(** * Covenant LLM evaluation harness: a shallow embedding

    The development follows the three Python modules of [llm-context]:
    - [compiler_validator.py]  (modules [Validator] and [Fixes]),
    - [example_selector.py]    (modules [Selector] and [Catalog]),
    - [generation_harness.py]  (modules [Harness], [Prompts], [Rounds] and
      [Batch]).

    Python [str] values are embedded as [string], one [ascii] per code point;
    the embedding therefore covers texts whose code points are below 256.
    Python [int] is [Z], [float] quantities that are only summed, scaled and
    divided are exact rationals ([Q]), and everything outside the repository
    (the compiler subprocess, the model API, the clock, [json.loads],
    [collections.Counter], the files, the environment) is an oracle
    collected in a record.  Output that is only printed under [verbose] is
    left out. *)

From Stdlib Require Import String Ascii List ZArith QArith Bool Lia.
From Stdlib Require Import Sorted Permutation.
From Stdlib Require DecimalString.
Import ListNotations.

Set Warnings "-register-all".

Local Open Scope string_scope.
Local Open Scope Z_scope.
Local Open Scope list_scope.

(** Concatenation of texts; [++] is kept for lists. *)
Notation "a +++ b" := (String.append a b)
  (at level 60, right associativity).

(* ===================================================================== *)
(** * Python built-ins used by the sources *)
(* ===================================================================== *)

Module PyStr.

(** The line feed, the separator of [str.split('\n')]. *)
Definition LF : ascii := ascii_of_nat 10.
Definition nl : string := String LF "".

(** [str.isspace] on one code point below 256: TAB..CR, FS..US, SPACE,
    NEL (0x85) and NBSP (0xA0). *)
Definition isspace (c : ascii) : bool :=
  let n := nat_of_ascii c in
  (((9 <=? n) && (n <=? 13)) || ((28 <=? n) && (n <=? 32))
   || (n =? 133) || (n =? 160))%nat.

Definition isdigit (c : ascii) : bool :=
  let n := nat_of_ascii c in ((48 <=? n) && (n <=? 57))%nat.

(** The class [[A-Z]] of [re]. *)
Definition isupper_az (c : ascii) : bool :=
  let n := nat_of_ascii c in ((65 <=? n) && (n <=? 90))%nat.

(** [s.lstrip()], [s.rstrip()], [s.strip()]. *)
Fixpoint lstrip (s : string) : string :=
  match s with
  | String c r => if isspace c then lstrip r else s
  | EmptyString => EmptyString
  end.

Fixpoint rstrip (s : string) : string :=
  match s with
  | String c r =>
      match rstrip r with
      | EmptyString => if isspace c then EmptyString else String c EmptyString
      | r' => String c r'
      end
  | EmptyString => EmptyString
  end.

Definition strip (s : string) : string := rstrip (lstrip s).

(** [s.startswith(p)]. *)
Definition startswith (s p : string) : bool := String.prefix p s.

(** [sub in s]. *)
Fixpoint contains (sub s : string) : bool :=
  if String.prefix sub s then true
  else match s with
       | String _ r => contains sub r
       | EmptyString => false
       end.

(** [s.split('\n')]: never empty, a trailing separator yields a last
    empty field. *)
Fixpoint split_lines (s : string) : list string :=
  match s with
  | EmptyString => [EmptyString]
  | String c r =>
      if Ascii.eqb c LF then EmptyString :: split_lines r
      else match split_lines r with
           | f :: fs => String c f :: fs
           | [] => [String c EmptyString]
           end
  end.

(** [s.lower()] on code points below 256: A..Z and the Latin-1 capitals
    0xC0..0xDE (0xD7, the multiplication sign, excepted) move up by 32. *)
Definition lower_char (c : ascii) : ascii :=
  let n := nat_of_ascii c in
  if (((65 <=? n) && (n <=? 90))
      || ((192 <=? n) && (n <=? 222) && negb (n =? 215)))%nat
  then ascii_of_nat (n + 32) else c.

Fixpoint lower (s : string) : string :=
  match s with
  | String c r => String (lower_char c) (lower r)
  | EmptyString => EmptyString
  end.

(** Truthiness of a [str]: non-empty. *)
Definition truthy (s : string) : bool :=
  match s with EmptyString => false | _ => true end.

(** The longest prefix of [s] whose characters satisfy [p], and the rest:
    what a greedy [[class]+] or [[class]*] consumes when the next pattern
    item cannot start with a character of the class. *)
Fixpoint span (p : ascii -> bool) (s : string) : string * string :=
  match s with
  | String c r =>
      if p c then let '(a, b) := span p r in (String c a, b)
      else (EmptyString, s)
  | EmptyString => (EmptyString, EmptyString)
  end.

(** [int(ds)] for a string of decimal digits. *)
Definition digit_value (c : ascii) : Z := Z.of_nat (nat_of_ascii c) - 48.

Fixpoint int_of_digits_acc (acc : Z) (ds : string) : Z :=
  match ds with
  | String c r => int_of_digits_acc (10 * acc + digit_value c) r
  | EmptyString => acc
  end.

Definition int_of_digits (ds : string) : Z := int_of_digits_acc 0 ds.

(** [range(lo, hi)] as the list it iterates over. *)
Definition range (lo hi : Z) : list Z :=
  map (fun i => lo + Z.of_nat i) (seq 0 (Z.to_nat (hi - lo))).

End PyStr.

(* ===================================================================== *)
(** * Exceptions, dynamically typed values and the outside world *)
(* ===================================================================== *)

Module Py.

(** The exceptions the modelled code can let escape; [ExternalFault] stands
    for whatever a collaborator outside the repository raises (missing
    credentials, transport errors, ...). *)
Inductive exn : Type :=
| JSONDecodeError
| AttributeError
| ValueError
| TypeError
| KeyError
| ZeroDivisionError
| NotImplementedError
| ExternalFault (what : string).

Inductive outcome (A : Type) : Type :=
| Ok (a : A)
| Raise (e : exn).
Arguments Ok {A} a.
Arguments Raise {A} e.

Definition is_ok {A} (o : outcome A) : bool :=
  match o with Ok _ => true | Raise _ => false end.

Definition obind {A B} (o : outcome A) (k : A -> outcome B) : outcome B :=
  match o with Ok a => k a | Raise e => Raise e end.

Definition is_JSONDecodeError (e : exn) : bool :=
  match e with JSONDecodeError => true | _ => false end.

(** The values [json.loads] returns: [None], [bool], [int], [float] (kept as
    the literal that denotes it), [str], [list] and [dict] with [str] keys
    (an association list; the first binding of a key is the one [get]
    sees). *)
Inductive value : Type :=
| VNone
| VBool (b : bool)
| VInt (z : Z)
| VFloat (literal : string)
| VStr (s : string)
| VList (items : list value)
| VDict (entries : list (string * value)).

Fixpoint assoc (k : string) (d : list (string * value)) : option value :=
  match d with
  | (k', v) :: r => if String.eqb k k' then Some v else assoc k r
  | [] => None
  end.

(** [d.get(k, default)] on a [dict]. *)
Definition dict_get (d : list (string * value)) (k : string)
  (default : value) : value :=
  match assoc k d with Some v => v | None => default end.

(** [item.get(k, default)] on an arbitrary value: only a [dict] has the
    method. *)
Definition get (item : value) (k : string) (default : value)
  : outcome value :=
  match item with
  | VDict d => Ok (dict_get d k default)
  | _ => Raise AttributeError
  end.

(** What a [for] loop iterates over: the items of a [list], the keys of a
    [dict], the one-character strings of a [str]; anything else is not
    iterable. *)
Definition iter (data : value) : outcome (list value) :=
  match data with
  | VList l => Ok l
  | VDict d => Ok (map (fun kv => VStr (fst kv)) d)
  | VStr s => Ok (map (fun c => VStr (String c "")) (list_ascii_of_string s))
  | _ => Raise TypeError
  end.

(** [code.startswith(p)] on an arbitrary value: only a [str] has it. *)
Definition value_startswith (v : value) (p : string) : outcome bool :=
  match v with
  | VStr s => Ok (PyStr.startswith s p)
  | _ => Raise AttributeError
  end.

(** [any(f(x) for x in xs)]: the generator is consumed lazily, so a fault
    in [f] behind the first [True] is never reached. *)
Fixpoint any_lazy {A} (f : A -> outcome bool) (xs : list A) : outcome bool :=
  match xs with
  | [] => Ok false
  | x :: r =>
      match f x with
      | Ok true => Ok true
      | Ok false => any_lazy f r
      | Raise e => Raise e
      end
  end.

(** [sys.get_int_max_str_digits()] as CPython 3.11 sets it. *)
Definition int_max_str_digits : nat := 4300.

(** [int(ds)] for a string of decimal digits: one of more digits than the
    limit is refused. *)
Definition int_ (ds : string) : outcome Z :=
  if (int_max_str_digits <? String.length ds)%nat then Raise ValueError
  else Ok (PyStr.int_of_digits ds).

(** A process that ran to completion: [subprocess.CompletedProcess]. *)
Record CompletedProcess : Type := {
  args : list string;
  returncode : Z;
  stdout : string;
  stderr : string
}.

(** How writing the temporary file and [subprocess.run] can end for the
    gateway: the process completes, one of the two faults [_run_compiler]
    handles, or anything else raised while the source is written to its
    file or the process is started, which nothing handles. *)
Inductive run_result : Type :=
| Completed (p : CompletedProcess)
| TimeoutExpired
| FileNotFoundError
| RunFault (e : exn).

(** The collaborators outside the repository.  Calls are numbered, so an
    oracle may answer the same request differently each time. *)
Record External : Type := {
  json_loads : string -> outcome value;
  time_time : nat -> Q;
  mkstemp : nat -> string;
  subprocess_run : nat -> list string -> string -> run_result;
  messages_create : nat -> string -> string -> outcome (string * Z * Z);
  isoformat : Q -> string;
  most_common : list value -> Z -> outcome (list (value * Z))
}.

(** What the harness has done to the world so far. *)
Record World : Type := {
  clock_reads : nat;
  compiled : list string;
  prompts : list string
}.

Definition initial_world : World :=
  {| clock_reads := 0; compiled := []; prompts := [] |}.

(** Computations that read and extend the world and may raise. *)
Definition M (A : Type) : Type := World -> outcome A * World.

Definition ret {A} (a : A) : M A := fun w => (Ok a, w).

Definition throw {A} (e : exn) : M A := fun w => (Raise e, w).

Definition bind {A B} (m : M A) (k : A -> M B) : M B :=
  fun w => match m w with
           | (Ok a, w') => k a w'
           | (Raise e, w') => (Raise e, w')
           end.

Definition lift {A} (o : outcome A) : M A := fun w => (o, w).

End Py.

Declare Scope py_scope.
Delimit Scope py_scope with py.
Notation "x <- m ;; k" := (Py.bind m (fun x => k))
  (at level 61, m at next level, right associativity) : py_scope.
Notation "' pat <- m ;; k" := (Py.bind m (fun x => match x with pat => k end))
  (at level 61, pat pattern, m at next level, right associativity) : py_scope.

(* ===================================================================== *)
(** * compiler_validator.py *)
(* ===================================================================== *)

Module Validator.
Import Py.

Inductive ErrorSeverity : Type := ERROR | WARNING | INFO.

Definition ErrorSeverity_eqb (a b : ErrorSeverity) : bool :=
  match a, b with
  | ERROR, ERROR | WARNING, WARNING | INFO, INFO => true
  | _, _ => false
  end.

(** [ErrorSeverity(v)]: lookup of an enum member by value; any value that
    is not one of the three strings is a [ValueError]. *)
Definition ErrorSeverity_of_value (v : value) : outcome ErrorSeverity :=
  match v with
  | VStr s =>
      if String.eqb s "error" then Ok ERROR
      else if String.eqb s "warning" then Ok WARNING
      else if String.eqb s "info" then Ok INFO
      else Raise ValueError
  | _ => Raise ValueError
  end.

(** The dataclass does not check its annotations, so the fields filled from
    a JSON record hold whatever the record holds; [VNone] is [None]. *)
Record CompilerError : Type := {
  code : value;
  severity : ErrorSeverity;
  message : value;
  location : value;
  line : value;
  column : value;
  suggestion : value;
  auto_fix_confidence : value
}.

Record ValidationResult : Type := {
  success : bool;
  errors : list CompilerError;
  warnings : list CompilerError;
  source_code : string;
  compilation_time_ms : option Q;
  phase_reached : option string
}.

(** [ValidationResult.get_error_codes]. *)
Definition get_error_codes (r : ValidationResult) : list value :=
  map code (errors r).

Record CompilerValidator : Type := {
  compiler_path : option string
}.

(** ** Regular expressions of [_parse_error_line] *)

Definition expect (c : ascii) (s : string) : option string :=
  match s with
  | String c' r => if Ascii.eqb c c' then Some r else None
  | EmptyString => None
  end.

Fixpoint strip_prefix (p s : string) : option string :=
  match p with
  | EmptyString => Some s
  | String c p' =>
      match expect c s with
      | Some r => strip_prefix p' r
      | None => None
      end
  end.

(** A match of [\[([EW]-[A-Z]+-\d+)\]] that starts at the head of [s]:
    group 1 and the text behind the match.  Each greedy class is followed
    by a character outside it, so no back-tracking can succeed where the
    longest run fails. *)
Definition match_code_at (s : string) : option (string * string) :=
  match expect "[" s with
  | Some (String k s2) =>
      if Ascii.eqb k "E" || Ascii.eqb k "W" then
        match expect "-" s2 with
        | Some s3 =>
            let '(up, s4) := PyStr.span PyStr.isupper_az s3 in
            if PyStr.truthy up then
              match expect "-" s4 with
              | Some s5 =>
                  let '(ds, s6) := PyStr.span PyStr.isdigit s5 in
                  if PyStr.truthy ds then
                    match expect "]" s6 with
                    | Some s7 => Some (String k ("-" +++ up +++ "-" +++ ds), s7)
                    | None => None
                    end
                  else None
              | None => None
              end
            else None
        | None => None
        end
      else None
  | _ => None
  end.

(** [re.search(r'\[([EW]-[A-Z]+-\d+)\]', line)]: the leftmost match. *)
Fixpoint search_code (s : string) : option (string * string) :=
  match match_code_at s with
  | Some m => Some m
  | None =>
      match s with
      | String _ r => search_code r
      | EmptyString => None
      end
  end.

(** A match of [line (\d+)] at the head of [s]: group 1. *)
Definition match_line_at (s : string) : option string :=
  match strip_prefix "line " s with
  | Some r =>
      let '(ds, _) := PyStr.span PyStr.isdigit r in
      if PyStr.truthy ds then Some ds else None
  | None => None
  end.

(** [re.search(r'line (\d+)', line)]. *)
Fixpoint search_line (s : string) : option string :=
  match match_line_at s with
  | Some ds => Some ds
  | None =>
      match s with
      | String _ r => search_line r
      | EmptyString => None
      end
  end.

(** ** [_parse_error_line] *)

(** The message: everything behind the bracketed code, without one
    leading colon; the whole line when there is no code. *)
Definition message_of (line_text : string)
  (code_match : option (string * string)) : string :=
  match code_match with
  | Some (_, rest) =>
      let m := PyStr.strip rest in
      match strip_prefix ":" m with
      | Some m' => PyStr.strip m'
      | None => m
      end
  | None => line_text
  end.

(** The method returns a diagnostic whenever it returns; the conversion of
    the line number is the one step of it that can raise. *)
Definition _parse_error_line (line_text : string) (sev : ErrorSeverity)
  : outcome (option CompilerError) :=
  let code_match := search_code line_text in
  let code_ := match code_match with Some (g, _) => g | None => "E-UNKNOWN" end in
  let line_match := search_line line_text in
  obind (match line_match with
         | Some ds => obind (int_ ds) (fun z => Ok (VInt z))
         | None => Ok VNone
         end) (fun line_num =>
  let message_ := message_of line_text code_match in
  Ok (Some {| code := VStr code_;
              severity := sev;
              message := VStr message_;
              location := VNone;
              line := line_num;
              column := VNone;
              suggestion := VNone;
              auto_fix_confidence := VNone |})).

(** ** [_parse_json_output] *)

(** The [CompilerError(...)] built from one decoded record. *)
Definition record_of (item : value) : outcome CompilerError :=
  obind (get item "severity" (VStr "error")) (fun sv =>
  obind (ErrorSeverity_of_value sv) (fun sev =>
  obind (get item "code" (VStr "E-UNKNOWN")) (fun c =>
  obind (get item "message" (VStr "")) (fun m =>
  obind (get item "location" VNone) (fun loc =>
  obind (get item "line" VNone) (fun ln =>
  obind (get item "column" VNone) (fun col =>
  obind (get item "suggestion" VNone) (fun sg =>
  obind (get item "auto_fix_confidence" VNone) (fun conf =>
    Ok {| code := c; severity := sev; message := m; location := loc;
          line := ln; column := col; suggestion := sg;
          auto_fix_confidence := conf |}))))))))).

(** The fault that reading one decoded record ends with, if any: a record
    that is no object has no [get]; a severity that is none of the three
    is refused by the enumeration. *)
Definition record_fault (item : value) : option exn :=
  match item with
  | VDict d =>
      match ErrorSeverity_of_value (dict_get d "severity" (VStr "error")) with
      | Ok _ => None
      | Raise e => Some e
      end
  | _ => Some AttributeError
  end.

(** The fault of the first record that has one. *)
Fixpoint first_fault (items : list value) : option exn :=
  match items with
  | [] => None
  | item :: r =>
      match record_fault item with
      | Some e => Some e
      | None => first_fault r
      end
  end.

(** [error.severity == ErrorSeverity.ERROR]. *)
Definition is_error (error : CompilerError) : bool :=
  ErrorSeverity_eqb (severity error) ERROR.

(** One turn of the loop over the decoded records. *)
Definition json_item (item : value)
  (acc : list CompilerError * list CompilerError)
  : outcome (list CompilerError * list CompilerError) :=
  let '(errs, warns) := acc in
  obind (record_of item) (fun error =>
    if is_error error
    then Ok (errs ++ [error], warns)
    else Ok (errs, warns ++ [error])).

Fixpoint json_items (items : list value)
  (acc : list CompilerError * list CompilerError)
  : outcome (list CompilerError * list CompilerError) :=
  match items with
  | [] => Ok acc
  | item :: r => obind (json_item item acc) (json_items r)
  end.

Definition _parse_json_output (data : value)
  : outcome (list CompilerError * list CompilerError) :=
  let data' := match data with VDict _ => VList [data] | _ => data end in
  obind (iter data') (fun items => json_items items ([], [])).

(** ** [_parse_compiler_output] *)

(** The tests of the text loop, on a trimmed line. *)
Definition is_error_line (l : string) : bool :=
  PyStr.startswith l "ERROR" || PyStr.startswith l "error".

Definition is_warning_line (l : string) : bool :=
  PyStr.startswith l "WARNING" || PyStr.startswith l "warning".

(** One turn of the loop over the lines of the text output. *)
Definition text_line (raw : string)
  (acc : list CompilerError * list CompilerError)
  : outcome (list CompilerError * list CompilerError) :=
  let '(errs, warns) := acc in
  let l := PyStr.strip raw in
  if negb (PyStr.truthy l) then Ok acc
  else if is_error_line l then
    obind (_parse_error_line l ERROR) (fun error =>
    match error with
    | Some error => Ok (errs ++ [error], warns)
    | None => Ok acc
    end)
  else if is_warning_line l then
    obind (_parse_error_line l WARNING) (fun warning =>
    match warning with
    | Some warning => Ok (errs, warns ++ [warning])
    | None => Ok acc
    end)
  else Ok acc.

(** The loop: the first line that raises ends it. *)
Fixpoint text_lines_from (lines : list string)
  (acc : list CompilerError * list CompilerError)
  : outcome (list CompilerError * list CompilerError) :=
  match lines with
  | [] => Ok acc
  | raw :: r => obind (text_line raw acc) (text_lines_from r)
  end.

Definition text_lines (lines : list string)
  : outcome (list CompilerError * list CompilerError) :=
  text_lines_from lines ([], []).

(** The error appended when the text path found none and the exit code is
    not zero. *)
Definition generic_error (output : string) : CompilerError :=
  {| code := VStr "E-UNKNOWN";
     severity := ERROR;
     message := VStr (if PyStr.truthy output then output
                      else "Compilation failed");
     location := VNone; line := VNone; column := VNone;
     suggestion := VNone; auto_fix_confidence := VNone |}.

Definition combined_output (result : CompletedProcess) : string :=
  (stderr result +++ PyStr.nl +++ stdout result).

Definition looks_structured (output : string) : bool :=
  PyStr.startswith (PyStr.strip output) "{"
  || PyStr.startswith (PyStr.strip output) "[".

(** The text path: everything below the [try] block. *)
Definition parse_text_output (result : CompletedProcess)
  : outcome (list CompilerError * list CompilerError) :=
  let output := combined_output result in
  obind (text_lines (PyStr.split_lines output)) (fun '(errs, warns) =>
  let errs' :=
    match errs with
    | [] => if negb (returncode result =? 0)
            then errs ++ [generic_error output] else errs
    | _ => errs
    end in
  Ok (errs', warns)).

(** The trimmed lines the text loop takes for errors and for warnings. *)
Definition error_lines (lines : list string) : list string :=
  filter is_error_line (map PyStr.strip lines).

Definition warning_lines (lines : list string) : list string :=
  filter (fun l => negb (is_error_line l) && is_warning_line l)
         (map PyStr.strip lines).

(** The digits behind the first "line " of a trimmed line that the text
    loop parses. *)
Definition parsed_line_number (raw : string) : option string :=
  let l := PyStr.strip raw in
  if is_error_line l || is_warning_line l then search_line l else None.

(** No line of [output] that the text loop parses has a line number of
    more digits than [int] accepts. *)
Definition line_numbers_fit (output : string) : Prop :=
  Forall (fun raw =>
            forall ds, parsed_line_number raw = Some ds ->
                       (String.length ds <= int_max_str_digits)%nat)
         (PyStr.split_lines output).

(** The code of a diagnostic is a text, as it is for every diagnostic the
    text path builds. *)
Definition str_code (e : CompilerError) : Prop := exists s, code e = VStr s.

Section WithExternal.
Variable E : External.

Definition _parse_compiler_output (result : CompletedProcess)
  : outcome (list CompilerError * list CompilerError) :=
  let output := combined_output result in
  if looks_structured output then
    match obind (json_loads E output) _parse_json_output with
    | Ok r => Ok r
    | Raise e =>
        if is_JSONDecodeError e then parse_text_output result
        else Raise e
    end
  else parse_text_output result.

(** ** [_determine_phase] *)

Definition any_code_startswith (p : string) (codes : list value)
  : outcome bool :=
  any_lazy (fun c => value_startswith c p) codes.

Definition _determine_phase (result : CompletedProcess)
  (errs : list CompilerError) : outcome string :=
  match errs with
  | [] => Ok "success"
  | _ =>
      let error_codes := map code errs in
      obind (any_code_startswith "E-PARSE" error_codes) (fun b1 =>
      if b1 then Ok "parser" else
      obind (any_code_startswith "E-TYPE" error_codes) (fun b2 =>
      if b2 then Ok "type_check" else
      obind (any_code_startswith "E-EFFECT" error_codes) (fun b3 =>
      if b3 then Ok "effect_check" else
      obind (any_code_startswith "E-CODEGEN" error_codes) (fun b4 =>
      if b4 then Ok "codegen" else
      let output := PyStr.lower (stderr result +++ stdout result) in
      if PyStr.contains "parsing" output then Ok "parser"
      else if PyStr.contains "type checking" output then Ok "type_check"
      else Ok "unknown"))))
  end.

(** ** [_run_compiler] and [validate] *)

Definition read_clock : M Q :=
  fun w => (Ok (time_time E (clock_reads w)),
            {| clock_reads := S (clock_reads w);
               compiled := compiled w; prompts := prompts w |}).

Definition compiler_command (self : CompilerValidator) (source_path : string)
  : list string :=
  match compiler_path self with
  | Some p => [p; "check"; source_path]
  | None => ["cargo"; "run"; "--bin"; "covenant-cli"; "--"; "check"; source_path]
  end.

(** The temporary file holds [source_code] while the compiler runs; both
    faults of [subprocess.run] the method handles become a completed
    process with exit code 1, every other fault escapes.  The request is
    entered in [compiled] however it ends; removing the temporary file
    afterwards is taken to succeed. *)
Definition _run_compiler (self : CompilerValidator) (source_code : string)
  : M CompletedProcess :=
  fun w =>
    let n := length (compiled w) in
    let cmd := compiler_command self (mkstemp E n) in
    let result :=
      match subprocess_run E n cmd source_code with
      | Completed p => Ok p
      | TimeoutExpired =>
          Ok {| args := cmd; returncode := 1; stdout := "";
                stderr := "ERROR: Compilation timeout (30s)" |}
      | FileNotFoundError =>
          Ok {| args := cmd; returncode := 1; stdout := "";
                stderr := "ERROR: Compiler not found. Run 'cargo build' first." |}
      | RunFault e => Raise e
      end in
    (result,
     {| clock_reads := clock_reads w;
        compiled := compiled w ++ [source_code];
        prompts := prompts w |}).

Local Open Scope py_scope.

Definition validate (self : CompilerValidator) (source_code_ : string)
  : M ValidationResult :=
  start_time <- read_clock ;;
  result <- _run_compiler self source_code_ ;;
  ' (errs, warns) <- lift (_parse_compiler_output result) ;;
  phase <- lift (_determine_phase result errs) ;;
  now_ <- read_clock ;;
  ret {| success := (length errs =? 0)%nat;
         errors := errs;
         warnings := warns;
         source_code := source_code_;
         compilation_time_ms := Some ((now_ - start_time) * 1000)%Q;
         phase_reached := Some phase |}.

End WithExternal.

(** A compiler that never prints anything that looks like JSON. *)
Definition text_only_compiler (E : External) : Prop :=
  forall n cmd src p,
    subprocess_run E n cmd src = Completed p ->
    looks_structured (combined_output p) = false.

(** A compiler run that ends in one of the three ways [_run_compiler]
    knows, and whose line numbers [int] accepts. *)
Definition dependable_compiler (E : External) : Prop :=
  forall n cmd src,
    match subprocess_run E n cmd src with
    | Completed p => line_numbers_fit (combined_output p)
    | TimeoutExpired | FileNotFoundError => True
    | RunFault _ => False
    end.

End Validator.

(* ===================================================================== *)
(** * A reference decoder for [json.loads] *)
(* ===================================================================== *)

(** The general results below hold for every decoder (the [json_loads]
    field of [External]); this one follows CPython's [json.decoder] and lets
    concrete compiler outputs be run through the parser.  Escapes that
    denote code points of 256 and above fall outside the embedded texts and
    are reported as an [ExternalFault], never as a decoding error; the
    recursion limit of the interpreter, which refuses documents nested
    about a thousand levels deep, is not modelled. *)
Module Json.
Import Py.

(** The double quote. *)
Definition DQ : ascii := ascii_of_nat 34.

Definition is_ws (c : ascii) : bool :=
  let n := nat_of_ascii c in
  ((n =? 32) || (n =? 9) || (n =? 10) || (n =? 13))%nat.

Fixpoint skip_ws (s : string) : string :=
  match s with
  | String c r => if is_ws c then skip_ws r else s
  | EmptyString => EmptyString
  end.

Definition hex_value (c : ascii) : option Z :=
  let n := nat_of_ascii c in
  if ((48 <=? n) && (n <=? 57))%nat then Some (Z.of_nat n - 48)
  else if ((97 <=? n) && (n <=? 102))%nat then Some (Z.of_nat n - 87)
  else if ((65 <=? n) && (n <=? 70))%nat then Some (Z.of_nat n - 55)
  else None.

(** The character a one-letter escape stands for. *)
Definition simple_escape (c : ascii) : option ascii :=
  if Ascii.eqb c DQ then Some DQ
  else if Ascii.eqb c "\" then Some "\"%char
  else if Ascii.eqb c "/" then Some "/"%char
  else if Ascii.eqb c "b" then Some (ascii_of_nat 8)
  else if Ascii.eqb c "f" then Some (ascii_of_nat 12)
  else if Ascii.eqb c "n" then Some (ascii_of_nat 10)
  else if Ascii.eqb c "r" then Some (ascii_of_nat 13)
  else if Ascii.eqb c "t" then Some (ascii_of_nat 9)
  else None.

Definition cons_char (c : ascii) (o : outcome (string * string))
  : outcome (string * string) :=
  obind o (fun '(body, rest) => Ok (String c body, rest)).

(** [scanstring] in strict mode, entered behind the opening quote. *)
Fixpoint scanstring (s : string) : outcome (string * string) :=
  match s with
  | EmptyString => Raise JSONDecodeError
  | String c r =>
      if Ascii.eqb c DQ then Ok (EmptyString, r)
      else if Ascii.eqb c "\" then
        match r with
        | EmptyString => Raise JSONDecodeError
        | String e r2 =>
            if Ascii.eqb e "u" then
              match r2 with
              | String h1 (String h2 (String h3 (String h4 r6))) =>
                  match hex_value h1, hex_value h2, hex_value h3, hex_value h4 with
                  | Some a, Some b, Some c', Some d =>
                      let cp := ((a * 16 + b) * 16 + c') * 16 + d in
                      if cp <? 256
                      then cons_char (ascii_of_nat (Z.to_nat cp)) (scanstring r6)
                      else Raise (ExternalFault "code point above 0xFF")
                  | _, _, _, _ => Raise JSONDecodeError
                  end
              | _ => Raise JSONDecodeError
              end
            else
              match simple_escape e with
              | Some ch => cons_char ch (scanstring r2)
              | None => Raise JSONDecodeError
              end
        end
      else if (nat_of_ascii c <? 32)%nat then Raise JSONDecodeError
      else cons_char c (scanstring r)
  end.

(** [NUMBER_RE] at the head of [s]: an optional minus sign, then 0 or a
    digit run without leading zero, then an optional fraction (a dot and
    digits) and an optional exponent (e or E, an optional sign, digits).  An
    integer literal becomes an [int], one with a fraction or an exponent a
    [float]. *)
Definition scan_int_part (s : string) : option (string * string) :=
  match s with
  | String d r =>
      if Ascii.eqb d "0" then Some ("0", r)
      else if PyStr.isdigit d then
        let '(ds, r') := PyStr.span PyStr.isdigit r in Some (String d ds, r')
      else None
  | EmptyString => None
  end.

Definition scan_frac (s : string) : string * string :=
  match Validator.expect "." s with
  | Some r =>
      let '(ds, r') := PyStr.span PyStr.isdigit r in
      if PyStr.truthy ds then (String "." ds, r') else (EmptyString, s)
  | None => (EmptyString, s)
  end.

Definition scan_exp (s : string) : string * string :=
  match s with
  | String e r =>
      if Ascii.eqb e "e" || Ascii.eqb e "E" then
        let '(sign, r1) :=
          match r with
          | String g r0 =>
              if Ascii.eqb g "-" || Ascii.eqb g "+"
              then (String g EmptyString, r0) else (EmptyString, r)
          | EmptyString => (EmptyString, r)
          end in
        let '(ds, r2) := PyStr.span PyStr.isdigit r1 in
        if PyStr.truthy ds then (String e (sign +++ ds), r2)
        else (EmptyString, s)
      else (EmptyString, s)
  | EmptyString => (EmptyString, s)
  end.

Definition scan_number (s : string) : option (value * string) :=
  let '(neg, s1) :=
    match Validator.expect "-" s with
    | Some r => (true, r)
    | None => (false, s)
    end in
  match scan_int_part s1 with
  | Some (ip, r1) =>
      let '(frac, r2) := scan_frac r1 in
      let '(ex, r3) := scan_exp r2 in
      if PyStr.truthy frac || PyStr.truthy ex then
        Some (VFloat ((if neg then "-" else "") +++ ip +++ frac +++ ex), r3)
      else
        Some (VInt (if neg then - PyStr.int_of_digits ip
                    else PyStr.int_of_digits ip), r3)
  | None => None
  end.

(** A literal keyword at the head of [s]. *)
Definition keyword (k : string) (v : value) (s : string)
  : option (value * string) :=
  match Validator.strip_prefix k s with
  | Some r => Some (v, r)
  | None => None
  end.

Definition first_some {A} (a b : option A) : option A :=
  match a with Some _ => a | None => b end.

Definition scan_atom (s : string) : outcome (value * string) :=
  match
    first_some (keyword "null" VNone s)
   (first_some (keyword "true" (VBool true) s)
   (first_some (keyword "false" (VBool false) s)
   (first_some (scan_number s)
   (first_some (keyword "NaN" (VFloat "NaN") s)
   (first_some (keyword "Infinity" (VFloat "Infinity") s)
               (keyword "-Infinity" (VFloat "-Infinity") s))))))
  with
  | Some r => Ok r
  | None => Raise JSONDecodeError
  end.

(** [dict(pairs)]: a repeated key keeps its place and takes the later
    value. *)
Fixpoint dict_set (d : list (string * value)) (k : string) (v : value)
  : list (string * value) :=
  match d with
  | (k', v') :: r =>
      if String.eqb k k' then (k', v) :: r else (k', v') :: dict_set r k v
  | [] => [(k, v)]
  end.

(** The scanner.  [fuel] bounds the depth of the calls still to be made.
    A value, an array item and an object member each take one call; a
    value and an item consume a character each, an array spends two calls
    on its opening bracket, so [loads] starts with two units per character
    and two more and never runs out. *)
Fixpoint scan_once (fuel : nat) (s : string) : outcome (value * string) :=
  match fuel with
  | O => Raise (ExternalFault "scanner fuel")
  | S f =>
      match s with
      | EmptyString => Raise JSONDecodeError
      | String c r =>
          if Ascii.eqb c DQ then
            obind (scanstring r) (fun '(str, rest) => Ok (VStr str, rest))
          else if Ascii.eqb c "{" then
            match skip_ws r with
            | String c1 r1 =>
                if Ascii.eqb c1 "}" then Ok (VDict [], r1)
                else if Ascii.eqb c1 DQ then object_members f r1 []
                else Raise JSONDecodeError
            | EmptyString => Raise JSONDecodeError
            end
          else if Ascii.eqb c "[" then
            match skip_ws r with
            | String c1 r1 =>
                if Ascii.eqb c1 "]" then Ok (VList [], r1)
                else array_items f (String c1 r1) []
            | EmptyString => Raise JSONDecodeError
            end
          else scan_atom s
      end
  end

(** Entered at the head of an item; [acc] holds the items read so far in
    reverse. *)
with array_items (fuel : nat) (s : string) (acc : list value)
  : outcome (value * string) :=
  match fuel with
  | O => Raise (ExternalFault "scanner fuel")
  | S f =>
      obind (scan_once f s) (fun '(v, rest) =>
      match skip_ws rest with
      | String c r =>
          if Ascii.eqb c "]" then Ok (VList (rev (v :: acc)), r)
          else if Ascii.eqb c "," then array_items f (skip_ws r) (v :: acc)
          else Raise JSONDecodeError
      | EmptyString => Raise JSONDecodeError
      end)
  end

(** Entered behind the opening quote of a key; [acc] is the dictionary
    built so far. *)
with object_members (fuel : nat) (s : string) (acc : list (string * value))
  : outcome (value * string) :=
  match fuel with
  | O => Raise (ExternalFault "scanner fuel")
  | S f =>
      obind (scanstring s) (fun '(key, rest) =>
      match skip_ws rest with
      | String c r =>
          if Ascii.eqb c ":" then
            obind (scan_once f (skip_ws r)) (fun '(v, rest') =>
            let acc' := dict_set acc key v in
            match skip_ws rest' with
            | String c2 r2 =>
                if Ascii.eqb c2 "}" then Ok (VDict acc', r2)
                else if Ascii.eqb c2 "," then
                  match skip_ws r2 with
                  | String c3 r3 =>
                      if Ascii.eqb c3 DQ then object_members f r3 acc'
                      else Raise JSONDecodeError
                  | EmptyString => Raise JSONDecodeError
                  end
                else Raise JSONDecodeError
            | EmptyString => Raise JSONDecodeError
            end)
          else Raise JSONDecodeError
      | EmptyString => Raise JSONDecodeError
      end)
  end.

(** [json.loads(s)]: one value between optional white space, nothing
    else. *)
Definition loads (s : string) : outcome value :=
  obind (scan_once (2 * String.length s + 2) (skip_ws s)) (fun '(v, rest) =>
  match skip_ws rest with
  | EmptyString => Ok v
  | _ => Raise JSONDecodeError
  end).

End Json.

(* ===================================================================== *)
(** * example_selector.py *)
(* ===================================================================== *)

Module Selector.

Inductive TaskType : Type :=
| PURE_FUNCTION
| EFFECTFUL_FUNCTION
| CRUD_OPERATION
| ERROR_HANDLING
| PATTERN_MATCHING
| TYPE_DEFINITION
| DATABASE_BINDING
| QUERY_COVENANT
| QUERY_SQL
| TRANSACTION
| MIGRATION
| REFACTORING
| GENERAL.

Scheme Equality for TaskType.

Definition TaskType_value (t : TaskType) : string :=
  match t with
  | PURE_FUNCTION => "pure_function"
  | EFFECTFUL_FUNCTION => "effectful_function"
  | CRUD_OPERATION => "crud_operation"
  | ERROR_HANDLING => "error_handling"
  | PATTERN_MATCHING => "pattern_matching"
  | TYPE_DEFINITION => "type_definition"
  | DATABASE_BINDING => "database_binding"
  | QUERY_COVENANT => "query_covenant"
  | QUERY_SQL => "query_sql"
  | TRANSACTION => "transaction"
  | MIGRATION => "migration"
  | REFACTORING => "refactoring"
  | GENERAL => "general"
  end.

(** [t in cats]. *)
Definition mem (t : TaskType) (cats : list TaskType) : bool :=
  existsb (TaskType_beq t) cats.

Record Example : Type := {
  path : string;
  title : string;
  categories : list TaskType;
  approx_tokens : Z;
  priority : Z
}.

Definition EXAMPLES : list Example := [
  {| path := "examples/01-hello-world.cov";
     title := "Hello World (Minimal Effectful Function)";
     categories := [EFFECTFUL_FUNCTION];
     approx_tokens := 80; priority := 3 |};
  {| path := "examples/02-pure-functions.cov";
     title := "Pure Functions (No Effects)";
     categories := [PURE_FUNCTION];
     approx_tokens := 350; priority := 9 |};
  {| path := "examples/04-error-handling.cov";
     title := "Error Handling (Union Returns, Handle Blocks)";
     categories := [ERROR_HANDLING; TYPE_DEFINITION];
     approx_tokens := 800; priority := 9 |};
  {| path := "examples/10-pattern-matching.cov";
     title := "Pattern Matching (Match, Destructuring)";
     categories := [PATTERN_MATCHING; TYPE_DEFINITION];
     approx_tokens := 550; priority := 8 |};
  {| path := "examples/16-database-dialects.cov";
     title := "Database Dialects (SQL Body Blocks)";
     categories := [QUERY_SQL; DATABASE_BINDING; CRUD_OPERATION; TRANSACTION];
     approx_tokens := 1200; priority := 8 |};
  {| path := "examples/14-project-queries.cov";
     title := "Project Queries (Covenant Dialect)";
     categories := [QUERY_COVENANT];
     approx_tokens := 650; priority := 7 |};
  {| path := "examples/06-database-access.cov";
     title := "Database Access (Simple CRUD)";
     categories := [CRUD_OPERATION; EFFECTFUL_FUNCTION];
     approx_tokens := 450; priority := 6 |};
  {| path := "examples/07-multiple-effects.cov";
     title := "Multiple Effects (Database + Network)";
     categories := [EFFECTFUL_FUNCTION];
     approx_tokens := 420; priority := 6 |};
  {| path := "examples/11-extern-bindings.cov";
     title := "External Bindings (Tool Integration)";
     categories := [EFFECTFUL_FUNCTION];
     approx_tokens := 700; priority := 5 |};
  {| path := "examples/13-database-module.cov";
     title := "Database Module (Schema Definition)";
     categories := [DATABASE_BINDING];
     approx_tokens := 700; priority := 7 |};
  {| path := "examples/15-ast-mutations.cov";
     title := "AST Mutations (Refactoring)";
     categories := [REFACTORING];
     approx_tokens := 800; priority := 5 |}
].

Record ExampleSelector : Type := {
  examples : list Example;
  examples_dir : string
}.

(** [ExampleSelector(examples_dir)]: the catalog is always [EXAMPLES]. *)
Definition new_selector (dir : string) : ExampleSelector :=
  {| examples := EXAMPLES; examples_dir := dir |}.

Definition _get_related_categories (task_type : TaskType) : list TaskType :=
  match task_type with
  | PURE_FUNCTION => [PATTERN_MATCHING]
  | EFFECTFUL_FUNCTION => [ERROR_HANDLING]
  | CRUD_OPERATION => [QUERY_SQL; QUERY_COVENANT; DATABASE_BINDING]
  | ERROR_HANDLING => [PATTERN_MATCHING; TYPE_DEFINITION]
  | PATTERN_MATCHING => [TYPE_DEFINITION; ERROR_HANDLING]
  | QUERY_SQL => [CRUD_OPERATION; DATABASE_BINDING]
  | QUERY_COVENANT => [CRUD_OPERATION]
  | TRANSACTION => [CRUD_OPERATION; QUERY_SQL]
  | _ => []
  end.

(** The score is a [float] in the source; it only ever holds sums of small
    integers, which floats represent exactly, so it is an integer here. *)
Definition _score_example (example : Example) (task_type : TaskType) : Z :=
  let score := 0 in
  let score := if mem task_type (categories example)
               then score + 50 else score in
  let related := _get_related_categories task_type in
  let score := fold_left (fun sc cat => if mem cat related then sc + 10 else sc)
                         (categories example) score in
  let score := score + priority example * 2 in
  let score := if approx_tokens example <? 500 then score + 5 else score in
  score.

(** [scored.sort(key=lambda x: x[0], reverse=True)]: the sort is stable also
    under [reverse=True], so equal scores keep their order: an element goes
    behind every element already placed whose score is at least its own. *)
Fixpoint insert_desc (x : Z * Example) (l : list (Z * Example))
  : list (Z * Example) :=
  match l with
  | y :: r => if fst y >=? fst x then y :: insert_desc x r else x :: y :: r
  | [] => [x]
  end.

Definition sort_desc (l : list (Z * Example)) : list (Z * Example) :=
  fold_left (fun sorted x => insert_desc x sorted) l [].

(** The first loop of [select]. *)
Definition score_all (self : ExampleSelector) (task_type : TaskType)
  : list (Z * Example) :=
  fold_left
    (fun scored ex =>
       let score := _score_example ex task_type in
       if score >? 0 then scored ++ [(score, ex)] else scored)
    (examples self) [].

(** The second loop of [select]; [break] ends it. *)
Fixpoint take_within (max_tokens max_examples : Z)
  (scored : list (Z * Example)) (selected : list Example) (total_tokens : Z)
  : list Example :=
  match scored with
  | [] => selected
  | (_, ex) :: rest =>
      if Z.of_nat (length selected) >=? max_examples then selected
      else if total_tokens + approx_tokens ex <=? max_tokens
      then take_within max_tokens max_examples rest
             (selected ++ [ex]) (total_tokens + approx_tokens ex)
      else take_within max_tokens max_examples rest selected total_tokens
  end.

Definition select (self : ExampleSelector) (task_type : TaskType)
  (max_tokens max_examples : Z) : list Example :=
  let scored := sort_desc (score_all self task_type) in
  take_within max_tokens max_examples scored [] 0.

(** [sum(ex.approx_tokens for ex in l)]. *)
Definition total_tokens_of (l : list Example) : Z :=
  fold_left (fun acc ex => acc + approx_tokens ex) l 0.

(** A catalog entry with its score for the task type [t]. *)
Definition scored_entry (t : TaskType) (ex : Example) : Z * Example :=
  (_score_example ex t, ex).

(** The order [sort_desc] establishes: no score in front of a larger one. *)
Definition by_score_desc (a b : Z * Example) : Prop := fst b <= fst a.

Definition has_score (s : Z) (p : Z * Example) : bool := fst p =? s.

End Selector.

(* ===================================================================== *)
(** * generation_harness.py *)
(* ===================================================================== *)

Module Harness.
Import Py Validator Selector.

Record GenerationTask : Type := {
  id : string;
  task_type : TaskType;
  description : string;
  module : string;
  function_name : string;
  parameters : list (list (string * string));
  return_type : string;
  requirements : list (list (string * string));
  expected_effects : list string;
  context : option string
}.

Record GenerationAttempt : Type := {
  attempt_number : Z;
  prompt_tokens : Z;
  completion_tokens : Z;
  generated_code : string;
  duration_ms : Q;
  validation_result : option ValidationResult
}.

Record GenerationMetrics : Type := {
  task_id : string;
  metrics_task_type : string;
  timestamp : string;
  attempts : list GenerationAttempt;
  total_attempts : Z;
  first_pass_success : bool;
  final_success : bool;
  total_prompt_tokens : Z;
  total_completion_tokens : Z;
  total_duration_ms : Q;
  total_cost_usd : Q;
  error_codes : list value
}.

Inductive ModelProvider : Type := ANTHROPIC | OPENAI | MOCK.

(** The text builders of the harness.  They only format strings (the
    prompt templates and the rendering of the selected examples); the
    control flow below is the same whatever text they produce, and a fault
    of theirs ([KeyError] on a parameter without a name, a fault of
    reading an example file, ...) aborts the task like any other. *)
Record TextBuilders : Type := {
  load_examples : ExampleSelector -> list Example -> outcome string;
  _build_initial_prompt : GenerationTask -> string -> string -> outcome string;
  _build_correction_prompt :
    GenerationTask -> string -> list CompilerError -> outcome string
}.

Record GenerationHarness : Type := {
  model_provider : ModelProvider;
  model_name : string;
  max_correction_rounds : Z;
  spec : string;
  example_selector : ExampleSelector;
  validator : CompilerValidator;
  text : TextBuilders
}.

(** ** [_extract_code_from_markdown] *)

(** [s] cut at the first occurrence of [sub]: the text in front of it and
    the text behind it. *)
Fixpoint split_at_first (sub s : string) : option (string * string) :=
  match strip_prefix sub s with
  | Some r => Some (EmptyString, r)
  | None =>
      match s with
      | String c r =>
          match split_at_first sub r with
          | Some (a, b) => Some (String c a, b)
          | None => None
          end
      | EmptyString => None
      end
  end.

(** The rest of the pattern behind the optional tag: a line feed, the
    shortest text that is followed by a fence (group 1), the fence. *)
Definition block_body (s : string) : option string :=
  match expect PyStr.LF s with
  | Some r => option_map fst (split_at_first "```" r)
  | None => None
  end.

(** A match of the pattern at the head of [s]; the optional group is tried
    with the tag first and without it when that fails. *)
Definition match_block_at (s : string) : option string :=
  match strip_prefix "```" s with
  | Some r =>
      let tagged :=
        match strip_prefix "covenant" r with
        | Some r' => block_body r'
        | None => None
        end in
      match tagged with
      | Some b => Some b
      | None => block_body r
      end
  | None => None
  end.

(** The first element of [re.findall(pattern, text, re.DOTALL)]: group 1 of
    the leftmost match. *)
Fixpoint first_block (s : string) : option string :=
  match match_block_at s with
  | Some b => Some b
  | None =>
      match s with
      | String _ r => first_block r
      | EmptyString => None
      end
  end.

Definition _extract_code_from_markdown (text_ : string) : string :=
  match first_block text_ with
  | Some b => PyStr.strip b
  | None => PyStr.strip text_
  end.

Definition fence : string := "```".

(** No fence starts inside [s], not even one that would run into a fence
    placed right behind it. *)
Definition no_fence_start (s : string) : Prop :=
  PyStr.contains fence (s +++ "``") = false.

(** [reply] holds a block of the form the pattern accepts: a fence, nothing
    or the tag [covenant], a line feed, [body], a fence. *)
Definition has_block (reply body : string) : Prop :=
  exists pre tag rest,
    (tag = "" \/ tag = "covenant") /\
    reply = pre +++ fence +++ tag +++ PyStr.nl +++ body +++ fence +++ rest.

(** ** [_call_llm] *)

Definition unlines (ls : list string) : string :=
  String.concat PyStr.nl ls.

Definition quoted (s : string) : string :=
  (String Json.DQ s +++ String Json.DQ EmptyString).

Definition mock_code : string :=
  unlines [
    ("snippet id=" +++ quoted "test.mock" +++ " kind=" +++ quoted "fn");
    "signature";
    ("  fn name=" +++ quoted "mock");
    ("    returns type=" +++ quoted "Unit");
    "  end";
    "end";
    "body";
    ("  step id=" +++ quoted "s1" +++ " kind=" +++ quoted "return");
    "    lit=none";
    ("    as=" +++ quoted "_");
    "  end";
    "end";
    "end" ].

(** What the harness takes as generated text from a reply of the model. *)
Definition reply_code (reply : string) : string :=
  if PyStr.contains "```" reply then _extract_code_from_markdown reply
  else reply.

Section WithExternal.
Variable E : External.

Local Open Scope py_scope.

(** Every call is entered in [prompts], whichever provider answers. *)
Definition log_prompt (prompt : string) : M nat :=
  fun w => (Ok (length (prompts w)),
            {| clock_reads := clock_reads w;
               compiled := compiled w;
               prompts := prompts w ++ [prompt] |}).

Definition _call_llm (self : GenerationHarness) (prompt : string)
  : M (string * Z * Z) :=
  n <- log_prompt prompt ;;
  match model_provider self with
  | MOCK => ret (mock_code, 100, 50)
  | ANTHROPIC =>
      ' (reply, input_tokens, output_tokens) <-
          lift (messages_create E n (model_name self) prompt) ;;
      ret (reply_code reply, input_tokens, output_tokens)
  | OPENAI => throw NotImplementedError
  end.

(** ** [_generate_attempt], [_generate_correction] *)

Definition _generate_attempt (self : GenerationHarness) (task : GenerationTask)
  (examples_text : string) (attempt_number_ : Z) : M GenerationAttempt :=
  prompt <- lift (_build_initial_prompt (text self) task (spec self)
                    examples_text) ;;
  start <- read_clock E ;;
  ' (code_, ptoks, ctoks) <- _call_llm self prompt ;;
  stop <- read_clock E ;;
  validation <- validate E (validator self) code_ ;;
  ret {| attempt_number := attempt_number_;
         prompt_tokens := ptoks;
         completion_tokens := ctoks;
         generated_code := code_;
         duration_ms := ((stop - start) * 1000)%Q;
         validation_result := Some validation |}.

Definition _generate_correction (self : GenerationHarness)
  (task : GenerationTask) (attempt_number_ : Z) (previous_code : string)
  (errs : list CompilerError) : M GenerationAttempt :=
  prompt <- lift (_build_correction_prompt (text self) task previous_code
                    errs) ;;
  start <- read_clock E ;;
  ' (code_, ptoks, ctoks) <- _call_llm self prompt ;;
  stop <- read_clock E ;;
  validation <- validate E (validator self) code_ ;;
  ret {| attempt_number := attempt_number_;
         prompt_tokens := ptoks;
         completion_tokens := ctoks;
         generated_code := code_;
         duration_ms := ((stop - start) * 1000)%Q;
         validation_result := Some validation |}.

(** ** [generate] *)

(** The variables the correction loop updates. *)
Record loop_state : Type := {
  ls_attempts : list GenerationAttempt;
  current_code : string;
  current_validation : option ValidationResult;
  ls_final_success : bool
}.

(** [x is not None and x.success]. *)
Definition succeeded (v : option ValidationResult) : bool :=
  match v with
  | Some r => success r
  | None => false
  end.

(** Whether the validation of an attempt succeeded. *)
Definition attempt_ok (a : GenerationAttempt) : bool :=
  succeeded (validation_result a).

(** The state of the loop between two rounds: the last attempt is the
    current one and every attempt before it failed. *)
Definition loop_inv (st : loop_state) : Prop :=
  exists pre a,
    ls_attempts st = pre ++ [a] /\
    current_validation st = validation_result a /\
    ls_final_success st = attempt_ok a /\
    Forall (fun b => attempt_ok b = false) pre.

(** The [for round_num in range(2, max_correction_rounds + 2)] loop; each of
    the two guards at its head is a [break]. *)
Fixpoint correction_rounds (self : GenerationHarness) (task : GenerationTask)
  (rounds : list Z) (st : loop_state) : M loop_state :=
  match rounds with
  | [] => ret st
  | round_num :: rest =>
      if ls_final_success st then ret st
      else
        match current_validation st with
        | None => ret st
        | Some v =>
            if success v then ret st
            else
              attempt_n <- _generate_correction self task round_num
                             (current_code st) (errors v) ;;
              correction_rounds self task rest
                {| ls_attempts := ls_attempts st ++ [attempt_n];
                   current_code := generated_code attempt_n;
                   current_validation := validation_result attempt_n;
                   ls_final_success :=
                     succeeded (validation_result attempt_n) |}
        end
  end.

Definition sum_Z {A} (f : A -> Z) (l : list A) : Z :=
  fold_left (fun acc a => acc + f a) l 0.

(** The durations and the cost are the exact values of the expressions of
    the source, which computes them in double precision: what it returns
    is those values rounded. *)
Definition generate (self : GenerationHarness) (task : GenerationTask)
  : M GenerationMetrics :=
  start_time <- read_clock E ;;
  let selected_examples :=
    select (example_selector self) (task_type task) 1500 3 in
  examples_text <-
    lift (load_examples (text self) (example_selector self)
            selected_examples) ;;
  attempt1 <- _generate_attempt self task examples_text 1 ;;
  let first_pass := succeeded (validation_result attempt1) in
  st <- correction_rounds self task
          (PyStr.range 2 (max_correction_rounds self + 2))
          {| ls_attempts := [attempt1];
             current_code := generated_code attempt1;
             current_validation := validation_result attempt1;
             ls_final_success := first_pass |} ;;
  stop_time <- read_clock E ;;
  let total_duration := ((stop_time - start_time) * 1000)%Q in
  let total_prompt := sum_Z prompt_tokens (ls_attempts st) in
  let total_completion := sum_Z completion_tokens (ls_attempts st) in
  let input_cost := (inject_Z total_prompt / 1000000 * 3)%Q in
  let output_cost := (inject_Z total_completion / 1000000 * 15)%Q in
  let codes :=
    match current_validation st with
    | Some v => if success v then [] else get_error_codes v
    | None => []
    end in
  now_ <- read_clock E ;;
  ret {| task_id := id task;
         metrics_task_type := TaskType_value (task_type task);
         timestamp := isoformat E now_;
         attempts := ls_attempts st;
         total_attempts := Z.of_nat (length (ls_attempts st));
         first_pass_success := first_pass;
         final_success := ls_final_success st;
         total_prompt_tokens := total_prompt;
         total_completion_tokens := total_completion;
         total_duration_ms := total_duration;
         total_cost_usd := (input_cost + output_cost)%Q;
         error_codes := codes |}.

(** ** [print_summary] *)

(** What [print] is handed: fixed text, or a line with the numbers that are
    formatted into it. *)
Inductive printed : Type :=
| PText (s : string)
| PTotal (total : Z)
| PRate (label : string) (count total : Z) (percent : Q)
| PAverage (label : string) (v : Q)
| PErrorCount (code_ : value) (count : Z).

(** [a / b]: true division faults exactly when the divisor is zero. *)
Definition truediv (a b : Q) : outcome Q :=
  if Qeq_bool b 0 then Raise ZeroDivisionError else Ok (a / b)%Q.

(** [a / total if total > 0 else 0]. *)
Definition guarded_average (a : Q) (total : Z) : outcome Q :=
  if total >? 0 then truediv a (inject_Z total) else Ok 0%Q.

Definition count_if {A} (p : A -> bool) (l : list A) : Z :=
  sum_Z (fun a => if p a then 1 else 0) l.

Definition sum_Q {A} (f : A -> Q) (l : list A) : Q :=
  fold_left (fun acc a => (acc + f a)%Q) l 0%Q.

Fixpoint repeat_string (s : string) (n : nat) : string :=
  match n with
  | O => EmptyString
  | S k => (s +++ repeat_string s k)
  end.

(** The lines printed so far, and how the function ended. *)
Definition print_summary (results : list GenerationMetrics)
  : list printed * outcome unit :=
  let total := Z.of_nat (length results) in
  let first_pass := count_if first_pass_success results in
  let final := count_if final_success results in
  match guarded_average (inject_Z (sum_Z total_attempts results)) total with
  | Raise e => ([], Raise e)
  | Ok avg_attempts =>
  match guarded_average (sum_Q total_cost_usd results) total with
  | Raise e => ([], Raise e)
  | Ok avg_cost =>
  match guarded_average (sum_Q total_duration_ms results) total with
  | Raise e => ([], Raise e)
  | Ok avg_time =>
  let rule := repeat_string "=" 80 in
  let out := [PText (PyStr.nl +++ rule); PText "SUMMARY"; PText rule;
              PTotal total] in
  match truediv (inject_Z first_pass) (inject_Z total) with
  | Raise e => (out, Raise e)
  | Ok r1 =>
  let out := out ++ [PRate "First-pass success" first_pass total (r1 * 100)%Q] in
  match truediv (inject_Z final) (inject_Z total) with
  | Raise e => (out, Raise e)
  | Ok r2 =>
  let out := out ++ [PRate "Final success" final total (r2 * 100)%Q;
                     PAverage "Average attempts" avg_attempts;
                     PAverage "Average cost" avg_cost;
                     PAverage "Average time" avg_time;
                     PText EmptyString] in
  let all_errors := flat_map error_codes results in
  match all_errors with
  | [] => (out, Ok tt)
  | _ =>
      match most_common E all_errors 10 with
      | Raise e => (out ++ [PText "Most common errors:"], Raise e)
      | Ok top =>
          (out ++ [PText "Most common errors:"]
               ++ map (fun cc => PErrorCount (fst cc) (snd cc)) top,
           Ok tt)
      end
  end
  end end end end end.

End WithExternal.

(** Text builders that never fault. *)
Definition builders_total (tb : TextBuilders) : Prop :=
  (forall task sp ex, exists s, _build_initial_prompt tb task sp ex = Ok s) /\
  (forall task code_ errs,
     exists s, _build_correction_prompt tb task code_ errs = Ok s) /\
  (forall selector selected, exists s, load_examples tb selector selected = Ok s).

End Harness.

(* ===================================================================== *)
(** * Concrete collaborators and inputs *)
(* ===================================================================== *)

Module Scenario.
Import Py Validator Selector Harness.

(** [E] with a compiler that always ends with the process [p]. *)
Definition with_process (E : External) (p : CompletedProcess) : External :=
  {| json_loads := json_loads E;
     time_time := time_time E;
     mkstemp := mkstemp E;
     subprocess_run := fun _ _ _ => Completed p;
     messages_create := messages_create E;
     isoformat := isoformat E;
     most_common := most_common E |}.

(** A process with the given streams and exit code. *)
Definition process (out err : string) (rc : Z) : CompletedProcess :=
  {| args := []; returncode := rc; stdout := out; stderr := err |}.

(** A world with the reference decoder, a clock that ticks once per
    reading, a compiler that accepts everything in silence and a model
    that answers every prompt with the same text. *)
Definition quiet : External :=
  {| json_loads := Json.loads;
     time_time := fun n => inject_Z (Z.of_nat n);
     mkstemp := fun _ => "/tmp/source.cov";
     subprocess_run := fun _ _ _ => Completed (process "" "" 0);
     messages_create := fun _ _ _ => Ok ("ok", 10, 5);
     isoformat := fun _ => "2025-01-01T00:00:00";
     most_common := fun _ _ => Ok [] |}.

Definition a_validator : CompilerValidator := {| compiler_path := None |}.

(** End-to-end scenario 1 of the specification. *)
Definition scenario1 : CompletedProcess :=
  process "" "ERROR [E-PARSE-001] at line 10: Unexpected token" 1.

(** End-to-end scenario 3: nothing on either stream, exit code 1. *)
Definition scenario3 : CompletedProcess := process "" "" 1.

(** A well-formed JSON document that holds no diagnostic record. *)
Definition not_a_record : CompletedProcess := process "" "[1]" 0.

(** An empty JSON array from a compiler that failed. *)
Definition empty_array_failed : CompletedProcess := process "" "[]" 1.

(** A malformed JSON document. *)
Definition unclosed_array : CompletedProcess := process "" "[1" 1.

(** Three decoded records: one of severity info, one without a severity,
    one of severity warning; and the diagnostics they become. *)
Definition three_records : value :=
  VList [ VDict [("severity", VStr "info"); ("code", VStr "I-1")];
          VDict [("message", VStr "no severity given")];
          VDict [("severity", VStr "warning")] ].

Definition diagnostic (sev : ErrorSeverity) (c m : string) : CompilerError :=
  {| code := VStr c; severity := sev; message := VStr m; location := VNone;
     line := VNone; column := VNone; suggestion := VNone;
     auto_fix_confidence := VNone |}.

Definition record_1 : CompilerError := diagnostic INFO "I-1" "".
Definition record_2 : CompilerError :=
  diagnostic ERROR "E-UNKNOWN" "no severity given".
Definition record_3 : CompilerError := diagnostic WARNING "E-UNKNOWN" "".

(** A reply whose only block carries another tag than [covenant]. *)
Definition python_reply : string :=
  "```python" +++ PyStr.nl +++ "print(1)" +++ PyStr.nl +++ "```".

(** A reply with a tagged block between two lines of prose. *)
Definition covenant_reply : string :=
  ("Here it is:" +++ PyStr.nl) +++ fence +++ "covenant" +++ PyStr.nl
  +++ ("  body" +++ PyStr.nl) +++ fence +++ (PyStr.nl +++ "Done.").

(** A compiler that rejects the first source it is given as in scenario 1
    and accepts every later one. *)
Definition second_time_lucky : External :=
  {| json_loads := Json.loads;
     time_time := fun n => inject_Z (Z.of_nat n);
     mkstemp := fun _ => "/tmp/source.cov";
     subprocess_run := fun n _ _ =>
       match n with
       | O => Completed scenario1
       | S _ => Completed (process "" "" 0)
       end;
     messages_create := fun _ _ _ => Ok (covenant_reply, 10, 5);
     isoformat := fun _ => "2025-01-01T00:00:00";
     most_common := fun _ _ => Ok [] |}.

Definition plain_text : TextBuilders :=
  {| load_examples := fun _ _ => Ok "# Example Covenant Code";
     _build_initial_prompt := fun task _ _ => Ok (description task);
     _build_correction_prompt := fun _ previous _ => Ok previous |}.

Definition a_harness : GenerationHarness :=
  {| model_provider := ANTHROPIC;
     model_name := "some-model";
     max_correction_rounds := 2;
     spec := "";
     example_selector := new_selector "examples";
     validator := a_validator;
     text := plain_text |}.

(** The first of [EXAMPLE_TASKS]. *)
Definition test_001_pure_add : GenerationTask :=
  {| id := "test_001_pure_add";
     task_type := PURE_FUNCTION;
     description := "Add two integers";
     module := "math";
     function_name := "add";
     parameters := [[("name", "a"); ("type", "Int")];
                    [("name", "b"); ("type", "Int")]];
     return_type := "Int";
     requirements := [[("priority", "high");
                       ("text", "Must return sum of a and b")]];
     expected_effects := [];
     context := None |}.

End Scenario.

(* ===================================================================== *)
(** * More of compiler_validator.py *)
(* ===================================================================== *)

Module Fixes.
Import Py Validator.

(** The six phases [_determine_phase] can name. *)
Definition phases : list string :=
  ["success"; "parser"; "type_check"; "effect_check"; "codegen"; "unknown"].

(** The shape [[EW]-[A-Z]+-\d+] of a code the first pattern captures. *)
Definition well_formed_code (c : string) : Prop :=
  exists k up ds,
    c = String k ("-" +++ up +++ "-" +++ ds) /\
    (k = "E"%char \/ k = "W"%char) /\
    up <> "" /\ ds <> "" /\
    Forall (fun x => PyStr.isupper_az x = true) (list_ascii_of_string up) /\
    Forall (fun x => PyStr.isdigit x = true) (list_ascii_of_string ds).

(** Whether the code of a diagnostic is a text that starts with [p]. *)
Definition code_has_prefix (p : string) (e : CompilerError) : bool :=
  match code e with
  | VStr s => PyStr.startswith s p
  | _ => false
  end.

(** A diagnostic without fix confidence. *)
Definition no_confidence (e : CompilerError) : Prop :=
  auto_fix_confidence e = VNone.

Section WithFloats.

(** Truth value of a [float] and its comparison with 0.7, by the literal
    that denotes it; both are left to the arithmetic of the interpreter. *)
Variable float_truthy : string -> bool.
Variable float_gt_0_7 : string -> bool.

(** [c and c > 0.7] as the truth value [any] sees.  A falsy value stops the
    conjunction; a number is compared; a non-empty text or container cannot
    be ordered against a float. *)
Definition confident (c : value) : outcome bool :=
  match c with
  | VNone => Ok false
  | VBool b => Ok b
  | VInt z => Ok (negb (z =? 0) && (z >=? 1))
  | VFloat lit => Ok (float_truthy lit && float_gt_0_7 lit)
  | VStr s => if PyStr.truthy s then Raise TypeError else Ok false
  | VList [] => Ok false
  | VList (_ :: _) => Raise TypeError
  | VDict [] => Ok false
  | VDict (_ :: _) => Raise TypeError
  end.

(** [ValidationResult.has_fixable_errors]. *)
Definition has_fixable_errors (r : ValidationResult) : outcome bool :=
  any_lazy (fun e => confident (auto_fix_confidence e)) (errors r).

(** [_apply_auto_fixes]: the placeholder of the source. *)
Definition _apply_auto_fixes (source_code_ : string)
  (errs : list CompilerError) : option string := None.

Local Open Scope py_scope.

Definition validate_and_suggest_fixes (E : External)
  (self : CompilerValidator) (source_code_ : string)
  : M (ValidationResult * option string) :=
  result <- validate E self source_code_ ;;
  if success result then ret (result, None)
  else
    fixable <- lift (has_fixable_errors result) ;;
    if negb fixable then ret (result, None)
    else ret (result, _apply_auto_fixes source_code_ (errors result)).

End WithFloats.

End Fixes.

(* ===================================================================== *)
(** * More of example_selector.py *)
(* ===================================================================== *)

Module Catalog.
Import Py Selector.

(** ** [get_recommended_for_task] *)

(** [any(kw in desc_lower for kw in kws)]. *)
Definition any_keyword (kws : list string) (desc_lower : string) : bool :=
  existsb (fun kw => PyStr.contains kw desc_lower) kws.

Definition pure_keywords : list string :=
  ["pure"; "no effect"; "calculation"; "compute"].
Definition crud_keywords : list string :=
  ["create"; "insert"; "update"; "delete"; "crud"].
Definition error_keywords : list string :=
  ["error"; "handle"; "exception"; "union"].
Definition pattern_keywords : list string :=
  ["match"; "pattern"; "destructur"].
Definition query_keywords : list string := ["query"; "select"; "sql"].
Definition database_keywords : list string := ["database"; "schema"; "table"].
Definition transaction_keywords : list string := ["transaction"; "atomic"].
Definition type_keywords : list string := ["struct"; "enum"; "type"].
Definition migration_keywords : list string :=
  ["migrate"; "translate"; "convert"].

(** All keywords of the nine rules. *)
Definition all_keywords : list string :=
  pure_keywords ++ crud_keywords ++ error_keywords ++ pattern_keywords
  ++ query_keywords ++ database_keywords ++ transaction_keywords
  ++ type_keywords ++ migration_keywords.

Definition get_recommended_for_task (task_description : string) : TaskType :=
  let desc_lower := PyStr.lower task_description in
  if any_keyword pure_keywords desc_lower then PURE_FUNCTION
  else if any_keyword crud_keywords desc_lower then CRUD_OPERATION
  else if any_keyword error_keywords desc_lower then ERROR_HANDLING
  else if any_keyword pattern_keywords desc_lower then PATTERN_MATCHING
  else if any_keyword query_keywords desc_lower then
    if PyStr.contains "postgres" desc_lower
       || PyStr.contains "mysql" desc_lower
       || PyStr.contains "sql" desc_lower
    then QUERY_SQL else QUERY_COVENANT
  else if any_keyword database_keywords desc_lower then DATABASE_BINDING
  else if any_keyword transaction_keywords desc_lower then TRANSACTION
  else if any_keyword type_keywords desc_lower then TYPE_DEFINITION
  else if any_keyword migration_keywords desc_lower then MIGRATION
  else GENERAL.

(** ** [load_examples] *)

(** How reading a file can end: its text, [FileNotFoundError], or another
    fault. *)
Inductive read_result : Type :=
| Content (s : string)
| NotFound
| ReadFault (e : exn).

(** The file system: the text form of [dir / p], and the files. *)
Record Files : Type := {
  joinpath : string -> string -> string;
  read_text : string -> read_result
}.

(** [str(i)] for a count. *)
Definition decimal (i : nat) : string :=
  DecimalString.NilZero.string_of_uint (Nat.to_uint i).

Definition examples_header : string := "# Example Covenant Code" +++ PyStr.nl.

Definition example_heading (i : nat) (ex : Example) : string :=
  "## Example " +++ decimal i +++ ": " +++ title ex +++ PyStr.nl.

(** The two entries one turn of the loop appends; a missing file is
    replaced by a note, any other fault escapes. *)
Definition example_section (F : Files) (self : ExampleSelector) (i : nat)
  (ex : Example) : outcome (list string) :=
  let p := joinpath F (examples_dir self) (path ex) in
  match read_text F p with
  | Content content =>
      Ok [example_heading i ex;
          "```covenant" +++ PyStr.nl +++ content +++ PyStr.nl +++ "```"
          +++ PyStr.nl]
  | NotFound =>
      Ok [example_heading i ex;
          "(File not found: " +++ p +++ ")" +++ PyStr.nl]
  | ReadFault e => Raise e
  end.

(** The loop over [enumerate(selected, i)]. *)
Fixpoint example_sections (F : Files) (self : ExampleSelector) (i : nat)
  (selected : list Example) (output : list string) : outcome (list string) :=
  match selected with
  | [] => Ok output
  | ex :: rest =>
      obind (example_section F self i ex) (fun entries =>
      example_sections F self (S i) rest (output ++ entries))
  end.

Definition load_examples (F : Files) (self : ExampleSelector)
  (selected : list Example) : outcome string :=
  obind (example_sections F self 1 selected [examples_header]) (fun output =>
  Ok (String.concat PyStr.nl output)).

(** ** [select_examples_for_task] *)

(** [dir] is the examples directory [ExampleSelector()] computes from the
    location of the module. *)
Definition select_examples_for_task (F : Files) (dir : string)
  (task_description : string) (task_type : option TaskType) (max_tokens : Z)
  : outcome string :=
  let selector := new_selector dir in
  let task_type' :=
    match task_type with
    | Some t => t
    | None => get_recommended_for_task task_description
    end in
  let selected := select selector task_type' max_tokens 3 in
  load_examples F selector selected.

(** No read ends with a fault other than a missing file. *)
Definition no_read_fault (F : Files) : Prop :=
  forall p e, read_text F p <> ReadFault e.

(** A text without back-tick. *)
Definition no_backtick (s : string) : Prop := PyStr.contains "`" s = false.

End Catalog.

(* ===================================================================== *)
(** * More of generation_harness.py: the prompts *)
(* ===================================================================== *)

Module Prompts.
Import Py Validator Selector Harness.

(** [sep.join(items)]. *)
Definition join (sep : string) (items : list string) : string :=
  String.concat sep items.

(** A generator consumed from left to right: the first fault ends it. *)
Fixpoint traverse {A B} (f : A -> outcome B) (l : list A)
  : outcome (list B) :=
  match l with
  | [] => Ok []
  | a :: r =>
      obind (f a) (fun b => obind (traverse f r) (fun bs => Ok (b :: bs)))
  end.

(** [d.get(k)] and [d[k]] on a [Dict[str, str]]. *)
Fixpoint lookup (k : string) (d : list (string * string)) : option string :=
  match d with
  | (k', v) :: r => if String.eqb k k' then Some v else lookup k r
  | [] => None
  end.

Definition getitem (d : list (string * string)) (k : string)
  : outcome string :=
  match lookup k d with
  | Some v => Ok v
  | None => Raise KeyError
  end.

(** ** [_build_initial_prompt] *)

Definition parameter_line (p : list (string * string)) : outcome string :=
  obind (getitem p "name") (fun name =>
  obind (getitem p "type") (fun type_ =>
  Ok ("  - " +++ name +++ ": " +++ type_
      +++ match lookup "description" p with
          | Some d => if PyStr.truthy d then " (" +++ d +++ ")" else ""
          | None => ""
          end))).

Definition requirement_line (r : list (string * string)) : outcome string :=
  obind (getitem r "priority") (fun priority_ =>
  obind (getitem r "text") (fun text_ =>
  Ok ("  - [" +++ priority_ +++ "] " +++ text_))).

Definition effects_text (task : GenerationTask) : string :=
  match expected_effects task with
  | [] => "none"
  | effects => join ", " effects
  end.

Definition context_text (task : GenerationTask) : string :=
  match context task with
  | Some c => if PyStr.truthy c then "Additional Context: " +++ c else ""
  | None => ""
  end.

(** The template, from the line that names the module on. *)
Definition task_text (task : GenerationTask) (params_text reqs_text : string)
  : string :=
  join PyStr.nl [
    "Module: " +++ module task;
    "Function: " +++ function_name task;
    "Description: " +++ description task;
    "";
    "Parameters:";
    params_text;
    "";
    "Returns: " +++ return_type task;
    "";
    "Expected Effects: " +++ effects_text task;
    "";
    "Requirements:";
    reqs_text;
    "";
    context_text task;
    "";
    "Generate complete snippet with:";
    "1. effects section (if needed)";
    "2. signature section";
    "3. body section with step-by-step implementation";
    "4. At least one test";
    "";
    "Output ONLY the Covenant code, no explanation.";
    "" ].

Definition initial_heading : string :=
  "You are a Covenant code generator. Generate valid Covenant code "
  +++ "following the specification exactly.".

Definition _build_initial_prompt (task : GenerationTask)
  (spec_ examples : string) : outcome string :=
  obind (traverse parameter_line (parameters task)) (fun params =>
  obind (traverse requirement_line (requirements task)) (fun reqs =>
  Ok (join PyStr.nl [
        initial_heading;
        "";
        spec_;
        "";
        examples;
        "";
        "Generate a Covenant function with the following specification:";
        "";
        task_text task (join PyStr.nl params) (join PyStr.nl reqs) ]))).

(** ** [_build_correction_prompt] *)

(** What the interpreter is left with: the text of a float and of a
    container, and the truth value of a float, by its literal. *)
Record Formatting : Type := {
  str_float : string -> string;
  repr_container : value -> string;
  float_truthy : string -> bool
}.

(** [str(z)]. *)
Definition decimal (z : Z) : string :=
  DecimalString.NilZero.string_of_int (Z.to_int z).

(** The text a replacement field of an f-string shows for [v]. *)
Definition format (F : Formatting) (v : value) : string :=
  match v with
  | VNone => "None"
  | VBool true => "True"
  | VBool false => "False"
  | VInt z => decimal z
  | VFloat lit => str_float F lit
  | VStr s => s
  | VList _ | VDict _ => repr_container F v
  end.

(** The truth value of [v] in a condition. *)
Definition truth (F : Formatting) (v : value) : bool :=
  match v with
  | VNone => false
  | VBool b => b
  | VInt z => negb (z =? 0)
  | VFloat lit => float_truthy F lit
  | VStr s => PyStr.truthy s
  | VList l => match l with [] => false | _ => true end
  | VDict d => match d with [] => false | _ => true end
  end.

Definition error_line (F : Formatting) (e : CompilerError) : string :=
  "[" +++ format F (code e) +++ "] " +++ format F (message e)
  +++ (if truth F (line e) then " at line " +++ format F (line e) else "").

Definition correction_heading : string :=
  "The following Covenant code has compilation errors. Fix them.".

Definition correction_closing : list string :=
  [ "Generate corrected Covenant code that fixes all errors.";
    "Preserve all functionality while fixing:";
    "- Effect transitivity violations";
    "- Pattern match exhaustiveness";
    "- Canonical ordering issues";
    "- SSA form violations";
    "- Type mismatches";
    "";
    "Output ONLY the corrected Covenant code, no explanation.";
    "" ].

Definition _build_correction_prompt (F : Formatting) (task : GenerationTask)
  (previous_code : string) (errs : list CompilerError) : string :=
  let errors_text := join PyStr.nl (map (error_line F) (firstn 5 errs)) in
  join PyStr.nl
    ([ correction_heading;
       "";
       "ORIGINAL CODE:";
       fence;
       previous_code;
       fence;
       "";
       "COMPILER ERRORS:";
       errors_text;
       "" ] ++ correction_closing).

(** ** The builders of the harness *)

(** The builders of the source: [load_examples] over the given files and
    the two prompt templates. *)
Definition builders (F : Formatting) (files : Catalog.Files) : TextBuilders :=
  {| Harness.load_examples := Catalog.load_examples files;
     Harness._build_initial_prompt := _build_initial_prompt;
     Harness._build_correction_prompt := fun task previous_code errs =>
       Ok (_build_correction_prompt F task previous_code errs) |}.

(** Every parameter has a name and a type, every requirement a priority
    and a text. *)
Definition has_keys (ks : list string) (d : list (string * string)) : bool :=
  forallb (fun k => match lookup k d with Some _ => true | None => false end)
          ks.

Definition well_keyed (task : GenerationTask) : bool :=
  forallb (has_keys ["name"; "type"]) (parameters task)
  && forallb (has_keys ["priority"; "text"]) (requirements task).

(** [sub] occurs in [s]. *)
Definition occurs (sub s : string) : Prop :=
  exists pre post, s = pre +++ sub +++ post.

End Prompts.

(* ===================================================================== *)
(** * Relations between the attempts of one task *)
(* ===================================================================== *)

Module Rounds.
Import Py Validator Selector Harness.

(** An attempt that carries the validation of its own generated text. *)
Definition validated (a : GenerationAttempt) : Prop :=
  exists v,
    validation_result a = Some v /\
    source_code v = generated_code a /\
    (success v = true <-> errors v = []).

(** The attempts [more] follow [prev] as corrections: each was prompted
    with the generated text and the errors of the failed attempt in front
    of it; [ps] are the prompts, in order. *)
Fixpoint follow_up (tb : TextBuilders) (task : GenerationTask)
  (prev : GenerationAttempt) (more : list GenerationAttempt)
  (ps : list string) : Prop :=
  match more, ps with
  | [], [] => True
  | a :: more', p :: ps' =>
      (exists v,
         validation_result prev = Some v /\ success v = false /\
         _build_correction_prompt tb task (generated_code prev) (errors v)
         = Ok p) /\
      follow_up tb task a more' ps'
  | _, _ => False
  end.

(** The loop state right behind the attempt [a]. *)
Definition at_attempt (st : loop_state) (a : GenerationAttempt) : Prop :=
  (exists pre, ls_attempts st = pre ++ [a]) /\
  current_code st = generated_code a /\
  current_validation st = validation_result a /\
  ls_final_success st = attempt_ok a /\
  validated a.

(** What the canned provider reports for every call. *)
Definition mock_attempt (a : GenerationAttempt) : Prop :=
  generated_code a = mock_code /\
  prompt_tokens a = 100 /\ completion_tokens a = 50.

(** The text of the examples [generate] puts into the first prompt. *)
Definition examples_text_of (self : GenerationHarness) (task : GenerationTask)
  : outcome string :=
  load_examples (text self) (example_selector self)
    (select (example_selector self) (task_type task) 1500 3).

End Rounds.

(* ===================================================================== *)
(** * More of generation_harness.py: construction and batches *)
(* ===================================================================== *)

Module Batch.
Import Py Validator Selector Harness.

(** How a step of the [try] block of [_init_api_client] can fail: with
    [ImportError], which the handler replaces, or with another fault. *)
Inductive fault : Type :=
| ImportError
| Fault (e : exn).

(** What the harness needs from the host it runs on: the environment,
    [import], the constructors of the client libraries, the files. *)
Record Host : Type := {
  environ_get : string -> option string;
  import_module : string -> option fault;
  construct : ModelProvider -> string -> option fault;
  default_spec_path : string;
  read_spec : string -> outcome string;
  examples_dir_of_module : string;
  debug_binary : option string;
  dumps : GenerationMetrics -> outcome string;
  open_append : string -> outcome unit;
  write : string -> string -> outcome unit
}.

(** The API client a harness holds. *)
Inductive client : Type :=
| NoClient
| AnthropicClient (api_key : string)
| OpenAIClient (api_key : string).

(** The [ImportError] raised anew when a client library is missing. *)
Definition import_error (package : string) : exn :=
  ExternalFault ("ImportError: Install " +++ package +++ ": pip install "
                 +++ package).

(** [os.environ.get(name)] followed by [if not api_key: raise ValueError]. *)
Definition api_key_of (H : Host) (name : string) : outcome string :=
  match environ_get H name with
  | Some k => if PyStr.truthy k then Ok k else Raise ValueError
  | None => Raise ValueError
  end.

(** The handler [except ImportError: raise ImportError(...)] around a
    [try] block. *)
Definition handled (package : string) (body : fault + client)
  : outcome client :=
  match body with
  | inr c => Ok c
  | inl ImportError => Raise (import_error package)
  | inl (Fault e) => Raise e
  end.

(** The [try] block for one provider: import the library, read the key,
    construct the client. *)
Definition try_client (H : Host) (provider : ModelProvider)
  (package variable : string) (made : string -> client) : fault + client :=
  match import_module H package with
  | Some f => inl f
  | None =>
      match api_key_of H variable with
      | Raise e => inl (Fault e)
      | Ok k =>
          match construct H provider k with
          | Some f => inl f
          | None => inr (made k)
          end
      end
  end.

Definition _init_api_client (H : Host) (provider : ModelProvider)
  : outcome client :=
  match provider with
  | MOCK => Ok NoClient
  | ANTHROPIC =>
      handled "anthropic"
        (try_client H ANTHROPIC "anthropic" "ANTHROPIC_API_KEY"
           AnthropicClient)
  | OPENAI =>
      handled "openai"
        (try_client H OPENAI "openai" "OPENAI_API_KEY" OpenAIClient)
  end.

(** [CompilerValidator()]: the debug binary when it exists, else none (the
    compiler is then run through cargo). *)
Definition new_validator (H : Host) : CompilerValidator :=
  {| compiler_path := debug_binary H |}.

(** [GenerationHarness(model_provider, model_name, spec_path,
    max_correction_rounds)]: the specification is read first, the client
    is made last. *)
Definition new_harness (H : Host) (tb : TextBuilders)
  (provider : ModelProvider) (name : string) (spec_path : option string)
  (rounds : Z) : outcome (GenerationHarness * client) :=
  let spec_path' :=
    match spec_path with
    | Some p => p
    | None => default_spec_path H
    end in
  obind (read_spec H spec_path') (fun spec_text =>
  obind (_init_api_client H provider) (fun c =>
  Ok ({| model_provider := provider;
         model_name := name;
         max_correction_rounds := rounds;
         spec := spec_text;
         example_selector := new_selector (examples_dir_of_module H);
         validator := new_validator H;
         text := tb |}, c))).

(** [GenerationHarness()] with the defaults of the constructor. *)
Definition default_harness (H : Host) (tb : TextBuilders)
  : outcome (GenerationHarness * client) :=
  new_harness H tb ANTHROPIC "claude-sonnet-4-5-20250929" None 2.

(** The state of a batch: the metrics collected, the world, and the lines
    appended to the output file. *)
Record batch_state : Type := {
  results : list GenerationMetrics;
  world : World;
  written : list string
}.

(** [asdict] copies the members of [ErrorSeverity] as they are, so the
    dictionary of metrics holds one for every diagnostic of every
    attempt. *)
Definition holds_severity (m : GenerationMetrics) : bool :=
  existsb (fun a =>
             match validation_result a with
             | Some v =>
                 match errors v ++ warnings v with
                 | [] => false
                 | _ :: _ => true
                 end
             | None => false
             end)
          (attempts m).

(** [json.dumps(metrics.to_dict())]: the encoder has no text for a member
    of an [Enum] and raises [TypeError] on the first one it meets; all that
    stands in front of it in the dictionary is text, numbers and decoded
    JSON.  Without one the outcome is left to the encoder. *)
Definition to_json (H : Host) (m : GenerationMetrics) : outcome string :=
  if holds_severity m then Raise TypeError else dumps H m.

(** The [if output_file:] statement with its [with open(output_file, 'a')]
    block: the file is opened, then the line is encoded, then written.  A
    line is in the file when all three went through. *)
Definition persist (H : Host) (output_file : option string)
  (m : GenerationMetrics) (lines : list string) : list string :=
  match output_file with
  | Some f =>
      if PyStr.truthy f then
        match open_append H f with
        | Ok _ =>
            match to_json H m with
            | Ok line =>
                match write H f (line +++ PyStr.nl) with
                | Ok _ => lines ++ [line +++ PyStr.nl]
                | Raise _ => lines
                end
            | Raise _ => lines
            end
        | Raise _ => lines
        end
      else lines
  | None => lines
  end.

(** One turn of the loop over the tasks; [except Exception] absorbs every
    fault of the turn. *)
Definition run_task (E : External) (H : Host) (self : GenerationHarness)
  (output_file : option string) (st : batch_state) (task : GenerationTask)
  : batch_state :=
  match generate E self task (world st) with
  | (Ok m, w') =>
      {| results := results st ++ [m];
         world := w';
         written := persist H output_file m (written st) |}
  | (Raise _, w') =>
      {| results := results st; world := w'; written := written st |}
  end.

Definition run_tasks (E : External) (H : Host) (self : GenerationHarness)
  (output_file : option string) (tasks : list GenerationTask)
  (st : batch_state) : batch_state :=
  fold_left (run_task E H self output_file) tasks st.

Definition run_test_suite (E : External) (H : Host) (tb : TextBuilders)
  (tasks : list GenerationTask) (output_file : option string) (w : World)
  : outcome batch_state :=
  obind (default_harness H tb) (fun '(harness, _) =>
  Ok (run_tasks E H harness output_file tasks
        {| results := []; world := w; written := [] |})).

(** Metrics of a task that succeeded at once, without any diagnostic. *)
Definition clean_first_pass (m : GenerationMetrics) : Prop :=
  total_attempts m = 1 /\
  first_pass_success m = true /\
  final_success m = true /\
  error_codes m = [] /\
  exists a v,
    attempts m = [a] /\ validation_result a = Some v /\
    errors v = [] /\ warnings v = [].

(** Metrics some call of [generate] on this harness returned. *)
Definition generated_by (E : External) (self : GenerationHarness)
  (m : GenerationMetrics) : Prop :=
  exists task w w', generate E self task w = (Ok m, w').

End Batch.

(* ===================================================================== *)
(** * More concrete collaborators and inputs *)
(* ===================================================================== *)

Module Scenario2.
Import Py Validator Selector Harness Scenario.

(** [E] with another way for the compiler run to end. *)
Definition with_run_result (E : External) (r : run_result) : External :=
  {| json_loads := json_loads E;
     time_time := time_time E;
     mkstemp := mkstemp E;
     subprocess_run := fun _ _ _ => r;
     messages_create := messages_create E;
     isoformat := isoformat E;
     most_common := most_common E |}.

(** A compiler that warns, chats and exits with code 0. *)
Definition warnings_only : CompletedProcess :=
  process "" ("WARNING [W-STYLE-001]: nit" +++ PyStr.nl +++ "2 files checked")
          0.

(** Diagnostics of three stages, and the same in another order. *)
Definition mixed_errors : list CompilerError :=
  [ diagnostic ERROR "E-CODEGEN-007" "cannot emit";
    diagnostic ERROR "E-TYPE-005" "mismatch";
    diagnostic ERROR "E-PARSE-001" "unexpected token" ].

Definition mixed_errors_reordered : list CompilerError :=
  [ diagnostic ERROR "E-PARSE-001" "unexpected token";
    diagnostic ERROR "E-CODEGEN-007" "cannot emit";
    diagnostic ERROR "E-TYPE-005" "mismatch" ].

(** A file system that holds one example and nothing else. *)
Definition one_file : Catalog.Files :=
  {| Catalog.joinpath := fun dir p => dir +++ "/" +++ p;
     Catalog.read_text := fun p =>
       if String.eqb p "examples/examples/02-pure-functions.cov"
       then Catalog.Content ("snippet id=add" +++ PyStr.nl +++ "end")
       else Catalog.NotFound |}.

(** The second entry of the catalog. *)
Definition pure_functions_example : Example :=
  {| path := "examples/02-pure-functions.cov";
     title := "Pure Functions (No Effects)";
     categories := [PURE_FUNCTION];
     approx_tokens := 350; priority := 9 |}.

(** [a_harness] with another provider. *)
Definition with_provider (self : GenerationHarness) (p : ModelProvider)
  : GenerationHarness :=
  {| model_provider := p;
     model_name := model_name self;
     max_correction_rounds := max_correction_rounds self;
     spec := spec self;
     example_selector := example_selector self;
     validator := validator self;
     text := text self |}.

(** Formatting functions for the scenarios. *)
Definition plain_formatting : Prompts.Formatting :=
  {| Prompts.str_float := fun literal => literal;
     Prompts.repr_container := fun _ => "[...]";
     Prompts.float_truthy := fun _ => true |}.

(** A harness with the canned provider and the builders of the source. *)
Definition mock_harness : GenerationHarness :=
  {| model_provider := MOCK;
     model_name := "some-model";
     max_correction_rounds := 2;
     spec := "# Covenant";
     example_selector := new_selector "examples";
     validator := a_validator;
     text := Prompts.builders plain_formatting one_file |}.

(** An error line whose line number has one digit more than [int]
    accepts. *)
Definition overlong_line_number : CompletedProcess :=
  process "" ("ERROR at line " +++ repeat_string "7" 4301) 1.


(** A task whose only parameter has no name. *)
Definition nameless_parameter : GenerationTask :=
  {| id := "nameless";
     task_type := PURE_FUNCTION;
     description := "Add two integers";
     module := "math";
     function_name := "add";
     parameters := [[("type", "Int")]];
     return_type := "Int";
     requirements := [[("priority", "high");
                       ("text", "Must return sum of a and b")]];
     expected_effects := [];
     context := None |}.

(** A host where the library, the key and the files are all there. *)
Definition a_host : Batch.Host :=
  {| Batch.environ_get := fun name =>
       if String.eqb name "ANTHROPIC_API_KEY" then Some "key" else None;
     Batch.import_module := fun _ => None;
     Batch.construct := fun _ _ => None;
     Batch.default_spec_path := "SPEC_CONDENSED.md";
     Batch.read_spec := fun _ => Ok "# Covenant";
     Batch.examples_dir_of_module := "examples";
     Batch.debug_binary := None;
     Batch.dumps := fun m => Ok ("{task_id: " +++ task_id m +++ "}");
     Batch.open_append := fun _ => Ok tt;
     Batch.write := fun _ _ => Ok tt |}.

(** A batch that has not started. *)
Definition fresh_batch : Batch.batch_state :=
  {| Batch.results := []; Batch.world := initial_world;
     Batch.written := [] |}.

End Scenario2.


(* ===================================================================== *)
(** * Properties of the validator *)
(* ===================================================================== *)

Module ValidatorProofs.
Import Py Validator Scenario Scenario2.

(** ** Structured records *)

Lemma json_item_inv item errs warns r :
  json_item item (errs, warns) = Ok r ->
  exists rec, record_of item = Ok rec /\
    r = if is_error rec then (errs ++ [rec], warns) else (errs, warns ++ [rec]).
Proof.
  unfold json_item. destruct (record_of item) as [rec|e]; simpl; [|discriminate].
  intros H. exists rec. split; [reflexivity|].
  destruct (is_error rec); congruence.
Qed.

Lemma json_items_inv items : forall errs warns errs' warns',
  json_items items (errs, warns) = Ok (errs', warns') ->
  exists recs,
    Forall2 (fun item rec => record_of item = Ok rec) items recs /\
    errs' = errs ++ filter is_error recs /\
    warns' = warns ++ filter (fun r => negb (is_error r)) recs.
Proof.
  induction items as [|item items IH]; intros errs warns errs' warns' H;
    cbn [json_items] in H.
  - inversion H; subst. exists []. simpl. rewrite !app_nil_r. auto.
  - destruct (json_item item (errs, warns)) as [[e1 w1]|e] eqn:Hi; simpl in H;
      [|discriminate].
    apply json_item_inv in Hi. destruct Hi as (rec & Hrec & Hr).
    apply IH in H. destruct H as (recs & HF & He & Hw).
    exists (rec :: recs). split; [constructor; assumption|].
    simpl. destruct (is_error rec); simpl;
      inversion Hr; subst; rewrite <- ?app_assoc; simpl; auto.
Qed.

Lemma severity_of_record item rec :
  record_of item = Ok rec ->
  exists sv, get item "severity" (VStr "error") = Ok sv /\
             ErrorSeverity_of_value sv = Ok (severity rec).
Proof.
  unfold record_of. destruct item; simpl; try discriminate.
  destruct (ErrorSeverity_of_value _) as [sev|] eqn:Hs; simpl; [|discriminate].
  intros H. inversion H; subst; simpl. eauto.
Qed.

Lemma record_of_raises item e :
  record_of item = Raise e -> e = AttributeError \/ e = ValueError.
Proof.
  unfold record_of. destruct item; simpl; try (intros H; inversion H; auto).
  revert H. 
  destruct (ErrorSeverity_of_value _) as [sev|e'] eqn:Hs; simpl; [discriminate|].
  intros H; inversion H; subst.
  unfold ErrorSeverity_of_value in Hs.
  destruct (dict_get entries "severity" (VStr "error")); try (inversion Hs; auto).
  revert Hs. repeat (destruct (String.eqb _ _); try discriminate).
  intros Hs; inversion Hs; auto.
Qed.

Lemma json_items_raises items : forall acc e,
  json_items items acc = Raise e -> e = AttributeError \/ e = ValueError.
Proof.
  induction items as [|item items IH]; intros acc e H; cbn [json_items] in H;
    [discriminate|].
  destruct (json_item item acc) as [acc'|e'] eqn:Hi; simpl in H.
  - eauto.
  - inversion H; subst. unfold json_item in Hi. destruct acc as [errs warns].
    destruct (record_of item) as [rec|e''] eqn:Hr; simpl in Hi.
    + destruct (is_error _); discriminate.
    + inversion Hi; subst. eauto using record_of_raises.
Qed.

Lemma parse_json_raises data e :
  _parse_json_output data = Raise e ->
  e = AttributeError \/ e = ValueError \/ e = TypeError.
Proof.
  unfold _parse_json_output.
  destruct data; cbn [iter obind]; intros H;
    try (inversion H; auto; fail);
    apply json_items_raises in H; tauto.
Qed.


(** C10.  When the structured path returns, the diagnostics it built from
    the decoded records, in order, are split by severity: the errors list
    holds exactly the records of severity error (a record without a
    severity counts as one), the warnings list exactly those of severity
    warning or info.  An info record is thus reported among the warnings,
    and the errors list, from which the success flag is computed, never
    holds it. *)
Theorem structured_records_split_by_severity data errs warns :
  _parse_json_output data = Ok (errs, warns) ->
  exists items recs,
    iter (match data with VDict _ => VList [data] | _ => data end) = Ok items /\
    Forall2 (fun item rec =>
               record_of item = Ok rec /\
               exists sv, get item "severity" (VStr "error") = Ok sv /\
                          ErrorSeverity_of_value sv = Ok (severity rec))
            items recs /\
    errs = filter is_error recs /\
    warns = filter (fun r => negb (is_error r)) recs /\
    forall r, In r recs ->
      (In r errs <-> severity r = ERROR) /\
      (In r warns <-> severity r = WARNING \/ severity r = INFO).
Proof.
  unfold _parse_json_output.
  destruct (iter _) as [items|] eqn:Hit; cbn [obind]; [|discriminate].
  intros H. apply json_items_inv in H. destruct H as (recs & HF & He & Hw).
  simpl in He, Hw. subst errs warns.
  exists items, recs. split; [reflexivity|]. split.
  - clear Hit. induction HF; constructor; auto using severity_of_record.
  - split; [reflexivity|]. split; [reflexivity|].
    intros r Hr. rewrite !filter_In. unfold is_error.
    destruct (severity r); simpl; split; split; intuition congruence.
Qed.

(** The three records of [three_records]: the one without a severity is
    the only error, the info record is the first warning. *)
Lemma structured_records_split_by_severity_witness :
  _parse_json_output three_records
    = Ok ([record_2], [record_1; record_3]) /\
  exists items recs,
    iter three_records = Ok items /\
    Forall2 (fun item rec =>
               record_of item = Ok rec /\
               exists sv, get item "severity" (VStr "error") = Ok sv /\
                          ErrorSeverity_of_value sv = Ok (severity rec))
            items recs /\
    [record_2] = filter is_error recs /\
    [record_1; record_3] = filter (fun r => negb (is_error r)) recs /\
    forall r, In r recs ->
      (In r [record_2] <-> severity r = ERROR) /\
      (In r [record_1; record_3] <-> severity r = WARNING \/ severity r = INFO).
Proof.
  split; [reflexivity|].
  apply (structured_records_split_by_severity three_records). reflexivity.
Defined.

(** C2.  Whatever the compiler printed, a result returned by [validate] has
    its success flag set if and only if its list of errors is empty. *)
Theorem validate_success_iff_no_errors E self src w v w' :
  validate E self src w = (Ok v, w') ->
  (success v = true <-> errors v = []).
Proof.
  unfold validate, bind, lift, ret, read_clock, _run_compiler.
  cbn [clock_reads compiled prompts].
  match goal with |- context [match ?r with Completed _ => _ | _ => _ end] =>
    destruct r as [p| | |e0] end; [| | |discriminate].
  all: destruct (_parse_compiler_output E _) as [[errs warns]|]; [|discriminate].
  all: destruct (_determine_phase _ errs); [|discriminate].
  all: intros H; inversion H; subst; cbn [success errors].
  all: destruct errs; simpl; split; congruence.
Qed.

(** A silent, successful compiler run. *)
Lemma validate_success_iff_no_errors_witness :
  exists v w',
    validate quiet a_validator "anything" initial_world = (Ok v, w') /\
    (success v = true <-> errors v = []).
Proof.
  eexists. eexists. split.
  - vm_compute. reflexivity.
  - eapply validate_success_iff_no_errors with (E := quiet) (self := a_validator)
      (src := "anything") (w := initial_world).
    vm_compute. reflexivity.
Defined.


(** ** The text path *)

Lemma int_fits ds :
  (String.length ds <= int_max_str_digits)%nat ->
  int_ ds = Ok (PyStr.int_of_digits ds).
Proof.
  intros H. unfold int_.
  destruct (Nat.ltb_spec int_max_str_digits (String.length ds)); [lia|].
  reflexivity.
Qed.

Lemma int_too_long ds :
  (int_max_str_digits < String.length ds)%nat -> int_ ds = Raise ValueError.
Proof.
  intros H. unfold int_.
  destruct (Nat.ltb_spec int_max_str_digits (String.length ds)); [|lia].
  reflexivity.
Qed.

(** [_parse_error_line] returns a diagnostic unless the line number is too
    long for [int]. *)
Lemma parse_error_line_cases l sev :
  (exists d,
     _parse_error_line l sev = Ok (Some d) /\ severity d = sev /\
     str_code d /\ auto_fix_confidence d = VNone /\
     forall ds, search_line l = Some ds ->
                (String.length ds <= int_max_str_digits)%nat) \/
  (_parse_error_line l sev = Raise ValueError /\
   exists ds, search_line l = Some ds /\
              (int_max_str_digits < String.length ds)%nat).
Proof.
  unfold _parse_error_line. destruct (search_line l) as [ds|].
  - destruct (Nat.le_gt_cases (String.length ds) int_max_str_digits) as [Hle|Hgt].
    + left. rewrite (int_fits ds Hle). cbn [obind]. eexists.
      split; [reflexivity|]. cbn [severity code auto_fix_confidence].
      split; [reflexivity|]. split; [red; cbn; eauto|].
      split; [reflexivity|]. intros ds' Hds. inversion Hds; subst. exact Hle.
    + right. rewrite (int_too_long ds Hgt). cbn [obind]. eauto.
  - left. cbn [obind]. eexists. split; [reflexivity|].
    cbn [severity code auto_fix_confidence].
    split; [reflexivity|]. split; [red; cbn; eauto|].
    split; [reflexivity|]. discriminate.
Qed.

Lemma is_line_empty : is_error_line "" = false /\ is_warning_line "" = false.
Proof. split; reflexivity. Qed.

(** One turn of the text loop. *)
Lemma text_line_cases raw errs warns :
  let l := PyStr.strip raw in
  match text_line raw (errs, warns) with
  | Ok (errs', warns') =>
      (is_error_line l = true /\
       exists d, _parse_error_line l ERROR = Ok (Some d) /\
                 severity d = ERROR /\ str_code d /\
                 auto_fix_confidence d = VNone /\
                 errs' = errs ++ [d] /\ warns' = warns) \/
      (is_error_line l = false /\ is_warning_line l = true /\
       exists d, _parse_error_line l WARNING = Ok (Some d) /\
                 severity d = WARNING /\ str_code d /\
                 auto_fix_confidence d = VNone /\
                 errs' = errs /\ warns' = warns ++ [d]) \/
      (is_error_line l = false /\ is_warning_line l = false /\
       errs' = errs /\ warns' = warns)
  | Raise e =>
      e = ValueError /\
      exists ds, parsed_line_number raw = Some ds /\
                 (int_max_str_digits < String.length ds)%nat
  end.
Proof.
  intros l. unfold text_line, parsed_line_number. fold l.
  destruct (PyStr.truthy l) eqn:Ht; cbn [negb].
  2:{ destruct l; [|discriminate Ht]. right. right.
      destruct is_line_empty. auto. }
  destruct (is_error_line l) eqn:He.
  - destruct (parse_error_line_cases l ERROR)
      as [(d & -> & Hs & Hc & Hf & _)|(-> & ds & Hds & Hgt)]; cbn [obind orb].
    + left. split; [reflexivity|]. exists d. auto 10.
    + split; [reflexivity|]. exists ds. auto.
  - destruct (is_warning_line l) eqn:Hw.
    + destruct (parse_error_line_cases l WARNING)
        as [(d & -> & Hs & Hc & Hf & _)|(-> & ds & Hds & Hgt)]; cbn [obind orb].
      * right. left. split; [reflexivity|]. split; [reflexivity|].
        exists d. auto 10.
      * split; [reflexivity|]. exists ds. auto.
    + right. right. auto.
Qed.

(** The trimmed lines the loop takes for errors and for warnings. *)
Lemma text_lines_from_cases lines : forall errs warns,
  match text_lines_from lines (errs, warns) with
  | Ok (errs', warns') =>
      exists de dw,
        errs' = errs ++ de /\ warns' = warns ++ dw /\
        Forall2 (fun l d => _parse_error_line l ERROR = Ok (Some d) /\
                            severity d = ERROR /\ str_code d /\
                            auto_fix_confidence d = VNone)
                (error_lines lines) de /\
        Forall2 (fun l d => _parse_error_line l WARNING = Ok (Some d) /\
                            severity d = WARNING /\ str_code d /\
                            auto_fix_confidence d = VNone)
                (warning_lines lines) dw
  | Raise e =>
      e = ValueError /\
      Exists (fun raw =>
                exists ds, parsed_line_number raw = Some ds /\
                           (int_max_str_digits < String.length ds)%nat)
             lines
  end.
Proof.
  unfold error_lines, warning_lines.
  induction lines as [|raw lines IH]; intros errs warns;
    cbn [text_lines_from map filter].
  - exists [], []. rewrite !app_nil_r. auto.
  - pose proof (text_line_cases raw errs warns) as Hl. cbv zeta in Hl.
    destruct (text_line raw (errs, warns)) as [[e1 w1]|e]; cbn [obind].
    + specialize (IH e1 w1).
      destruct (text_lines_from lines (e1, w1)) as [[e2 w2]|e].
      * destruct IH as (de & dw & -> & -> & Hde & Hdw).
        destruct Hl as [(He & d & Hd & Hs & Hc & Hf & -> & ->)
                       |[(He & Hw & d & Hd & Hs & Hc & Hf & -> & ->)
                        |(He & Hw & -> & ->)]];
          rewrite He; cbn [negb andb]; try rewrite Hw.
        -- exists (d :: de), dw. rewrite <- app_assoc.
           split; [reflexivity|]. split; [reflexivity|].
           split; [constructor; auto|exact Hdw].
        -- exists de, (d :: dw). rewrite <- app_assoc.
           split; [reflexivity|]. split; [reflexivity|].
           split; [exact Hde|constructor; auto].
        -- exists de, dw. auto.
      * destruct IH as [-> Hex]. split; [reflexivity|].
        apply Exists_cons_tl. exact Hex.
    + destruct Hl as [-> Hex]. split; [reflexivity|].
      apply Exists_cons_hd. exact Hex.
Qed.

Lemma text_lines_str_codes lines errs warns :
  text_lines lines = Ok (errs, warns) -> Forall str_code errs.
Proof.
  unfold text_lines. intros H.
  pose proof (text_lines_from_cases lines [] []) as Hc. rewrite H in Hc.
  destruct Hc as (de & dw & -> & _ & Hde & _). cbn [app].
  clear H. induction Hde as [|l d ls ds (_ & _ & Hc & _) _ IH];
    constructor; assumption.
Qed.

(** What the text path returns, and when it raises. *)
Lemma parse_text_output_cases p :
  match parse_text_output p with
  | Ok (errs, warns) =>
      exists de,
        text_lines (PyStr.split_lines (combined_output p)) = Ok (de, warns) /\
        errs = match de with
               | [] => if negb (returncode p =? 0)
                       then [generic_error (combined_output p)] else []
               | _ => de
               end
  | Raise e => e = ValueError /\ ~ line_numbers_fit (combined_output p)
  end.
Proof.
  unfold parse_text_output, text_lines.
  pose proof (text_lines_from_cases
                (PyStr.split_lines (combined_output p)) [] []) as Hc.
  destruct (text_lines_from _ ([], [])) as [[de dw]|e]; cbn [obind].
  - exists de. split; [reflexivity|]. destruct de; reflexivity.
  - destruct Hc as [-> Hex]. split; [reflexivity|]. intros Hfit.
    unfold line_numbers_fit in Hfit. apply Exists_exists in Hex.
    destruct Hex as (raw & Hin & ds & Hds & Hgt).
    rewrite Forall_forall in Hfit. specialize (Hfit raw Hin ds Hds). lia.
Qed.

Lemma parse_text_output_fits p :
  line_numbers_fit (combined_output p) ->
  exists errs warns, parse_text_output p = Ok (errs, warns).
Proof.
  intros Hfit. pose proof (parse_text_output_cases p) as Hc.
  destruct (parse_text_output p) as [[errs warns]|e]; [eauto|].
  destruct Hc as [_ Hn]. contradiction.
Qed.

Lemma parse_text_output_str_codes p errs warns :
  parse_text_output p = Ok (errs, warns) -> Forall str_code errs.
Proof.
  intros H. pose proof (parse_text_output_cases p) as Hc. rewrite H in Hc.
  destruct Hc as (de & Ht & ->). apply text_lines_str_codes in Ht.
  destruct de; [|assumption].
  destruct (negb (returncode p =? 0)); [|constructor].
  repeat constructor. red. cbn. eauto.
Qed.

Lemma any_code_startswith_ok prefix errs :
  Forall str_code errs ->
  exists b, any_code_startswith prefix (map code errs) = Ok b.
Proof.
  unfold any_code_startswith.
  induction 1 as [|e errs [s Hs] _ IH]; simpl; [eauto|].
  rewrite Hs. simpl. destruct (PyStr.startswith s prefix); eauto.
Qed.

Lemma determine_phase_ok p errs :
  Forall str_code errs -> exists ph, _determine_phase p errs = Ok ph.
Proof.
  intros H. unfold _determine_phase. destruct errs as [|e errs']; [eauto|].
  remember (e :: errs') as errs eqn:Heq. clear Heq.
  destruct (any_code_startswith_ok "E-PARSE" errs H) as [b1 ->]. cbn [obind].
  destruct b1; [eauto|].
  destruct (any_code_startswith_ok "E-TYPE" errs H) as [b2 ->]. cbn [obind].
  destruct b2; [eauto|].
  destruct (any_code_startswith_ok "E-EFFECT" errs H) as [b3 ->]. cbn [obind].
  destruct b3; [eauto|].
  destruct (any_code_startswith_ok "E-CODEGEN" errs H) as [b4 ->]. cbn [obind].
  destruct b4; [eauto|].
  destruct (PyStr.contains "parsing" _); [eauto|].
  destruct (PyStr.contains "type checking" _); eauto.
Qed.

Lemma parse_text_path E p :
  looks_structured (combined_output p) = false ->
  _parse_compiler_output E p = parse_text_output p.
Proof. unfold _parse_compiler_output. intros ->. reflexivity. Qed.

(** Every line number of a fixed output is short enough. *)
Ltac fits :=
  unfold line_numbers_fit, combined_output; cbn [stderr stdout];
  apply Forall_forall; intros raw Hin ds Hds; vm_compute in Hin;
  repeat (destruct Hin as [<-|Hin];
          [vm_compute in Hds;
           first [discriminate Hds
                 |injection Hds as <-; apply Nat.leb_le; vm_compute;
                  reflexivity]|]);
  destruct Hin.

(** The process [_run_compiler] hands on for a run that ends in one of the
    three known ways. *)
Lemma run_compiler_cases E self src w :
  match subprocess_run E (length (compiled w))
          (compiler_command self (mkstemp E (length (compiled w)))) src with
  | RunFault e => fst (_run_compiler E self src w) = Raise e
  | Completed p => fst (_run_compiler E self src w) = Ok p
  | _ => exists p, fst (_run_compiler E self src w) = Ok p /\
                   looks_structured (combined_output p) = false /\
                   line_numbers_fit (combined_output p)
  end.
Proof.
  unfold _run_compiler.
  destruct (subprocess_run E _ _ src) as [p| | |e]; cbn [fst];
    try reflexivity; eexists; (split; [reflexivity|]);
    (split; [reflexivity|]); fits.
Qed.

(** Validation returns whenever the compiler run ends in one of the three
    known ways with plain text whose line numbers [int] accepts. *)
Lemma validate_returns E self src w :
  text_only_compiler E -> dependable_compiler E ->
  exists v w', validate E self src w = (Ok v, w').
Proof.
  intros Ht Hd. unfold validate, bind, lift, ret, read_clock.
  cbn [clock_reads compiled prompts].
  set (w1 := {| clock_reads := S (clock_reads w); compiled := compiled w;
                prompts := prompts w |}).
  pose proof (run_compiler_cases E self src w1) as Hr.
  specialize (Hd (length (compiled w1))
                 (compiler_command self (mkstemp E (length (compiled w1)))) src).
  pose proof (Ht (length (compiled w1))
                 (compiler_command self (mkstemp E (length (compiled w1)))) src)
    as Ht'.
  assert (Hp : exists p,
             fst (_run_compiler E self src w1) = Ok p /\
             looks_structured (combined_output p) = false /\
             line_numbers_fit (combined_output p)).
  { destruct (subprocess_run E _ _ src) as [p| | |e];
      [exists p; auto|exact Hr|exact Hr|contradiction]. }
  destruct Hp as (p & Hp & Hl & Hfit).
  destruct (_run_compiler E self src w1) as [r w2]. cbn [fst] in Hp. subst r.
  rewrite (parse_text_path E p Hl).
  destruct (parse_text_output_fits p Hfit) as (errs & warns & Hpt).
  rewrite Hpt.
  destruct (determine_phase_ok p errs (parse_text_output_str_codes _ _ _ Hpt))
    as [ph ->].
  eauto.
Qed.

(** On an output that does not look structured and whose line numbers
    [int] accepts, validation returns. *)
Lemma validate_returns_on_text_output E p self src w :
  looks_structured (combined_output p) = false ->
  line_numbers_fit (combined_output p) ->
  exists v w' errs warns,
    validate (with_process E p) self src w = (Ok v, w') /\
    parse_text_output p = Ok (errs, warns) /\
    errors v = errs /\ warnings v = warns.
Proof.
  intros Hl Hfit. unfold validate, bind, lift, ret, read_clock, _run_compiler.
  cbn [clock_reads compiled prompts subprocess_run with_process].
  rewrite (parse_text_path _ p Hl).
  destruct (parse_text_output_fits p Hfit) as (errs & warns & Hpt).
  rewrite Hpt.
  destruct (determine_phase_ok p errs (parse_text_output_str_codes _ _ _ Hpt))
    as [ph ->].
  eexists. eexists. exists errs, warns. split; [reflexivity|]. cbn. auto.
Qed.

(** An error line with a line number of 4301 digits makes the text path,
    and with it validation, raise. *)
Lemma overlong_line_number_raises :
  line_numbers_fit (combined_output overlong_line_number) -> False.
Proof.
  unfold line_numbers_fit. intros H. rewrite Forall_forall in H.
  assert (Hin : In ("ERROR at line " +++ Harness.repeat_string "7" 4301)
                   (PyStr.split_lines (combined_output overlong_line_number)))
    by (vm_compute; left; reflexivity).
  assert (Hds : parsed_line_number
                  ("ERROR at line " +++ Harness.repeat_string "7" 4301)
                = Some (Harness.repeat_string "7" 4301))
    by (vm_compute; reflexivity).
  specialize (H _ Hin _ Hds).
  apply Nat.leb_le in H. vm_compute in H. discriminate H.
Qed.

(** C3.  With nothing on either stream and exit code 1 the parser builds
    one [E-UNKNOWN] error, but its message is the line feed that joins the
    two streams, not the text "Compilation failed"; validation fails. *)
Theorem empty_output_exit_1_message_is_newline E self src w :
  _parse_compiler_output E scenario3 = Ok ([generic_error PyStr.nl], []) /\
  message (generic_error PyStr.nl) = VStr PyStr.nl /\
  message (generic_error PyStr.nl) <> VStr "Compilation failed" /\
  exists v w',
    validate (with_process E scenario3) self src w = (Ok v, w') /\
    errors v = [generic_error PyStr.nl] /\ success v = false.
Proof.
  split; [reflexivity|]. split; [reflexivity|]. split; [discriminate|].
  eexists. eexists. split; [reflexivity|]. split; reflexivity.
Qed.

(** The fallback text of [generic_error] is dead: the combined output always
    holds the line feed that joins the two streams. *)
Lemma generic_error_message_is_output p :
  message (generic_error (combined_output p)) = VStr (combined_output p).
Proof.
  unfold generic_error, combined_output. cbn [message].
  destruct (stderr p); reflexivity.
Qed.

(** A failed compiler that prints an empty JSON array is reported without
    any error: the structured path returns before the exit code is looked
    at. *)
Lemma structured_path_ignores_exit_code :
  _parse_compiler_output quiet empty_array_failed = Ok ([], []).
Proof. reflexivity. Qed.

(** C4, as stated, fails: the message of the diagnostic is not the bare
    "Unexpected token". *)
Lemma scenario1_message_keeps_location :
  ~ exists e ws,
      _parse_compiler_output quiet scenario1 = Ok ([e], ws) /\
      code e = VStr "E-PARSE-001" /\ line e = VInt 10 /\
      message e = VStr "Unexpected token".
Proof.
  intros (e & ws & H & _ & _ & Hm). vm_compute in H.
  inversion H; subst. discriminate Hm.
Qed.

(** C4, amended.  The text of scenario 1 with exit code 1 yields exactly
    one error with code "E-PARSE-001" and line 10 whose message is
    everything behind the bracketed code, "at line 10: Unexpected token";
    there is no warning, the phase is "parser" and validation fails. *)
Theorem scenario1_outcome E self src w :
  exists v w',
    validate (with_process E scenario1) self src w = (Ok v, w') /\
    errors v = [ {| code := VStr "E-PARSE-001"; severity := ERROR;
                    message := VStr "at line 10: Unexpected token";
                    location := VNone; line := VInt 10; column := VNone;
                    suggestion := VNone; auto_fix_confidence := VNone |} ] /\
    warnings v = [] /\
    phase_reached v = Some "parser" /\
    success v = false.
Proof.
  eexists. eexists. split; [reflexivity|]. repeat split; reflexivity.
Qed.


(** C6, as stated, fails: a well-formed JSON array that holds a number
    instead of a diagnostic record makes the parser raise. *)
Lemma undiagnostic_json_raises :
  looks_structured (combined_output not_a_record) = true /\
  _parse_compiler_output quiet not_a_record = Raise AttributeError.
Proof. split; reflexivity. Qed.

Lemma severity_raises_value_error v e :
  ErrorSeverity_of_value v = Raise e -> e = ValueError.
Proof.
  unfold ErrorSeverity_of_value. destruct v; try (intros H; inversion H; auto).
  revert H. repeat (destruct (String.eqb _ _); try discriminate).
  intros H. inversion H. reflexivity.
Qed.

Lemma record_of_fault item :
  match record_fault item with
  | Some e => record_of item = Raise e
  | None => exists rec, record_of item = Ok rec
  end.
Proof.
  unfold record_fault, record_of.
  destruct item; cbn [get obind]; try reflexivity.
  destruct (ErrorSeverity_of_value _); cbn [obind]; [eauto|reflexivity].
Qed.

Lemma json_items_fault items : forall acc,
  match first_fault items with
  | Some e => json_items items acc = Raise e
  | None => exists r, json_items items acc = Ok r
  end.
Proof.
  induction items as [|item items IH]; intros [errs warns];
    cbn [first_fault json_items]; [eauto|].
  pose proof (record_of_fault item) as Hr. unfold json_item.
  destruct (record_fault item) as [e|].
  - rewrite Hr. reflexivity.
  - destruct Hr as [rec ->]. cbn [obind].
    destruct (is_error rec); cbn [obind]; apply IH.
Qed.

Lemma record_fault_cause item e :
  record_fault item = Some e ->
  (e = AttributeError /\ forall d, item <> VDict d) \/
  (e = ValueError /\
   exists d, item = VDict d /\
             forall sev, ErrorSeverity_of_value
                           (dict_get d "severity" (VStr "error")) <> Ok sev).
Proof.
  unfold record_fault.
  destruct item as [| | | | | |d];
    try (intros H; inversion H; left; split; [reflexivity|discriminate]).
  destruct (ErrorSeverity_of_value _) as [sev|e'] eqn:Hs; [discriminate|].
  intros H. inversion H; subst e'. right.
  split; [exact (severity_raises_value_error _ _ Hs)|].
  exists d. split; [reflexivity|]. intros sev. congruence.
Qed.

Lemma first_fault_cause items e :
  first_fault items = Some e -> e = AttributeError \/ e = ValueError.
Proof.
  induction items as [|item items IH]; cbn [first_fault]; [discriminate|].
  destruct (record_fault item) as [e'|] eqn:Hr; [|exact IH].
  intros H. inversion H; subst e'.
  destruct (record_fault_cause item e Hr) as [[-> _]|[-> _]]; auto.
Qed.

(** What the structured path does with a decoded document. *)
Lemma parse_json_output_cases data :
  match iter (match data with VDict _ => VList [data] | _ => data end) with
  | Raise _ => _parse_json_output data = Raise TypeError
  | Ok items =>
      match first_fault items with
      | Some e => _parse_json_output data = Raise e
      | None => exists r, _parse_json_output data = Ok r
      end
  end.
Proof.
  unfold _parse_json_output.
  destruct (iter _) as [items|e] eqn:Hi; cbn [obind].
  - apply json_items_fault.
  - destruct data; cbn [iter] in Hi; try discriminate Hi; inversion Hi;
      reflexivity.
Qed.

(** C6, amended.  A [JSONDecodeError] of the decoder is never raised to the
    caller: the text path takes over, as it does for an output that does not
    look structured.  The text path raises nothing but the [ValueError] of
    [int], and only when a line it parses holds a line number of more
    digits than [int] accepts.  On an output that looks structured every
    other fault of the decoder reaches the caller, and so does every fault
    of reading the decoded document: [TypeError] for a document that cannot
    be iterated, else the fault of the first record that has one,
    [AttributeError] for a record that is no object and [ValueError] for a
    severity outside the three known ones. *)
Theorem only_decode_errors_fall_through E p :
  let output := combined_output p in
  (json_loads E output = Raise JSONDecodeError ->
   _parse_compiler_output E p = parse_text_output p) /\
  (looks_structured output = false ->
   _parse_compiler_output E p = parse_text_output p) /\
  (forall e, parse_text_output p = Raise e ->
             e = ValueError /\ ~ line_numbers_fit output) /\
  (line_numbers_fit output -> exists r, parse_text_output p = Ok r) /\
  (looks_structured output = true ->
   (forall e, json_loads E output = Raise e -> e <> JSONDecodeError ->
              _parse_compiler_output E p = Raise e) /\
   (forall data, json_loads E output = Ok data ->
      _parse_compiler_output E p = _parse_json_output data /\
      match iter (match data with VDict _ => VList [data] | _ => data end) with
      | Raise _ => _parse_json_output data = Raise TypeError
      | Ok items =>
          match first_fault items with
          | Some e => _parse_json_output data = Raise e
          | None => exists r, _parse_json_output data = Ok r
          end
      end)) /\
  (forall item e, record_fault item = Some e ->
     (e = AttributeError /\ forall d, item <> VDict d) \/
     (e = ValueError /\
      exists d, item = VDict d /\
                forall sev, ErrorSeverity_of_value
                              (dict_get d "severity" (VStr "error")) <> Ok sev)).
Proof.
  intros output. unfold _parse_compiler_output. fold output.
  split; [|split; [|split; [|split; [|split]]]].
  - intros ->. cbn [obind is_JSONDecodeError].
    destruct (looks_structured output); reflexivity.
  - intros ->. reflexivity.
  - intros e He. pose proof (parse_text_output_cases p) as Hc.
    rewrite He in Hc. exact Hc.
  - intros Hfit. destruct (parse_text_output_fits p Hfit) as (errs & warns & H).
    eauto.
  - intros ->. split.
    + intros e -> Hne. cbn [obind].
      destruct e; try reflexivity. congruence.
    + intros data ->. cbn [obind].
      pose proof (parse_json_output_cases data) as Hc. split; [|exact Hc].
      destruct (_parse_json_output data) as [r|e] eqn:Hp; [reflexivity|].
      destruct (parse_json_raises data e Hp) as [->|[->| ->]]; reflexivity.
  - exact record_fault_cause.
Qed.

(** An unclosed array falls through, scenario 1 never reaches the decoder
    and is parsed, an error line with a line number of 4301 digits makes
    the text path raise [ValueError], and behind a successful decoding the
    array [[1]] raises for its first record, which is no object. *)
Lemma only_decode_errors_fall_through_witness :
  _parse_compiler_output quiet unclosed_array
    = parse_text_output unclosed_array /\
  _parse_compiler_output quiet scenario1 = parse_text_output scenario1 /\
  (exists r, parse_text_output scenario1 = Ok r) /\
  parse_text_output overlong_line_number = Raise ValueError /\
  _parse_compiler_output quiet not_a_record
    = _parse_json_output (VList [VInt 1]) /\
  _parse_json_output (VList [VInt 1]) = Raise AttributeError.
Proof.
  split; [|split; [|split; [|split]]].
  - exact (proj1 (only_decode_errors_fall_through quiet unclosed_array)
             eq_refl).
  - exact (proj1 (proj2 (only_decode_errors_fall_through quiet scenario1))
             eq_refl).
  - apply (proj1 (proj2 (proj2 (proj2
             (only_decode_errors_fall_through quiet scenario1))))).
    fits.
  - destruct (parse_text_output overlong_line_number) as [r|e] eqn:H.
    + exfalso. vm_compute in H. discriminate H.
    + f_equal.
      exact (proj1 (proj1 (proj2 (proj2
               (only_decode_errors_fall_through quiet overlong_line_number)))
               e H)).
  - exact (proj2 (proj1 (proj2 (proj2 (proj2 (proj2
                    (only_decode_errors_fall_through quiet not_a_record)))))
                  eq_refl)
             (VList [VInt 1]) eq_refl).
Defined.





End ValidatorProofs.

(* ===================================================================== *)
(** * Properties of the selector *)
(* ===================================================================== *)

Module SelectorProofs.
Import Selector.

(** ** The sort *)

Lemma insert_desc_perm x l : Permutation (insert_desc x l) (x :: l).
Proof.
  induction l as [|y r IH]; simpl; [reflexivity|].
  destruct (fst y >=? fst x); [|reflexivity].
  rewrite IH. apply perm_swap.
Qed.

Lemma fold_insert_perm l : forall acc,
  Permutation (fold_left (fun sorted x => insert_desc x sorted) l acc) (acc ++ l).
Proof.
  induction l as [|x r IH]; intros acc; simpl.
  - rewrite app_nil_r. reflexivity.
  - rewrite IH, insert_desc_perm. apply Permutation_middle.
Qed.

Lemma sort_desc_perm l : Permutation (sort_desc l) l.
Proof. unfold sort_desc. apply (fold_insert_perm l []). Qed.

Lemma insert_desc_sorted x l :
  StronglySorted by_score_desc l -> StronglySorted by_score_desc (insert_desc x l).
Proof.
  induction 1 as [|y r Hs IH Hall]; simpl.
  - repeat constructor.
  - destruct (fst y >=? fst x) eqn:Hc.
    + constructor; [assumption|].
      rewrite (Forall_forall (by_score_desc y)). intros z Hz.
      apply (Permutation_in _ (insert_desc_perm x r)) in Hz.
      destruct Hz as [<-|Hz].
      * unfold by_score_desc. lia.
      * rewrite Forall_forall in Hall. auto.
    + constructor; [constructor; assumption|].
      constructor; [unfold by_score_desc; lia|].
      rewrite Forall_forall in *. intros z Hz. specialize (Hall z Hz).
      unfold by_score_desc in *. lia.
Qed.

Lemma fold_insert_sorted l : forall acc,
  StronglySorted by_score_desc acc ->
  StronglySorted by_score_desc
    (fold_left (fun sorted x => insert_desc x sorted) l acc).
Proof.
  induction l as [|x r IH]; intros acc Hacc; simpl; auto using insert_desc_sorted.
Qed.

Lemma sort_desc_sorted l : StronglySorted by_score_desc (sort_desc l).
Proof. apply fold_insert_sorted. constructor. Qed.

Lemma filter_none_below s l :
  Forall (fun z => fst z < s) l -> filter (has_score s) l = [].
Proof.
  induction 1 as [|z r Hz _ IH]; simpl; [reflexivity|].
  unfold has_score at 1. destruct (fst z =? s) eqn:He; [lia|assumption].
Qed.

(** Inserting into a sorted list puts the new element behind its ties. *)
Lemma insert_desc_stable s x l :
  StronglySorted by_score_desc l ->
  filter (has_score s) (insert_desc x l) = filter (has_score s) (l ++ [x]).
Proof.
  induction 1 as [|y r Hs IH Hall]; [reflexivity|].
  cbn [insert_desc]. destruct (fst y >=? fst x) eqn:Hc.
  - cbn [filter app]. rewrite IH. reflexivity.
  - rewrite filter_app.
    change (filter (has_score s) (x :: y :: r))
      with (if has_score s x then x :: filter (has_score s) (y :: r)
            else filter (has_score s) (y :: r)).
    change (filter (has_score s) [x])
      with (if has_score s x then [x] else []).
    destruct (has_score s x) eqn:Hx; [|rewrite app_nil_r; reflexivity].
    rewrite (filter_none_below s (y :: r)); [reflexivity|].
    unfold has_score in Hx. constructor; [lia|].
    rewrite Forall_forall in *. intros z Hz. specialize (Hall z Hz).
    unfold by_score_desc in Hall. lia.
Qed.

Lemma fold_insert_stable s l : forall acc,
  StronglySorted by_score_desc acc ->
  filter (has_score s) (fold_left (fun sorted x => insert_desc x sorted) l acc)
  = filter (has_score s) (acc ++ l).
Proof.
  induction l as [|x r IH]; intros acc Hacc; simpl.
  - rewrite app_nil_r. reflexivity.
  - rewrite IH by auto using insert_desc_sorted.
    rewrite !filter_app, insert_desc_stable by assumption.
    rewrite filter_app. simpl. rewrite <- app_assoc. 
    destruct (has_score s x); reflexivity.
Qed.

Lemma sort_desc_stable s l :
  filter (has_score s) (sort_desc l) = filter (has_score s) l.
Proof. apply (fold_insert_stable s l []). constructor. Qed.

(** ** Scoring the catalog *)

Lemma score_all_filter self t :
  score_all self t
  = filter (fun p => fst p >? 0) (map (scored_entry t) (examples self)).
Proof.
  unfold score_all.
  assert (H : forall l acc,
    fold_left (fun scored ex =>
                 let score := _score_example ex t in
                 if score >? 0 then scored ++ [(score, ex)] else scored) l acc
    = acc ++ filter (fun p => fst p >? 0) (map (scored_entry t) l)).
  { induction l as [|ex r IH]; intros acc; simpl.
    - rewrite app_nil_r. reflexivity.
    - rewrite IH. destruct (_score_example ex t >? 0); [|reflexivity].
      rewrite <- app_assoc. reflexivity. }
  apply (H (examples self) []).
Qed.

(** ** The greedy loop *)

Lemma total_tokens_snoc sel ex :
  total_tokens_of (sel ++ [ex]) = total_tokens_of sel + approx_tokens ex.
Proof. unfold total_tokens_of. rewrite fold_left_app. reflexivity. Qed.

Lemma take_within_bounds mt me scored : forall sel,
  total_tokens_of sel <= mt ->
  Z.of_nat (length sel) <= me ->
  let r := take_within mt me scored sel (total_tokens_of sel) in
  total_tokens_of r <= mt /\ Z.of_nat (length r) <= me.
Proof.
  induction scored as [|[sc ex] rest IH]; intros sel Ht Hl; cbn [take_within].
  - auto.
  - destruct (Z.of_nat (length sel) >=? me) eqn:Hfull; [auto|].
    destruct (total_tokens_of sel + approx_tokens ex <=? mt) eqn:Hfit.
    + rewrite <- total_tokens_snoc. apply IH.
      * rewrite total_tokens_snoc. lia.
      * rewrite length_app. simpl. lia.
    + apply IH; assumption.
Qed.

Lemma take_within_app mt me l1 : forall l2 sel,
  take_within mt me (l1 ++ l2) sel (total_tokens_of sel)
  = let sel' := take_within mt me l1 sel (total_tokens_of sel) in
    take_within mt me l2 sel' (total_tokens_of sel').
Proof.
  induction l1 as [|[sc ex] rest IH]; intros l2 sel; cbn [take_within app].
  - reflexivity.
  - destruct (Z.of_nat (length sel) >=? me) eqn:Hfull.
    + cbv zeta. destruct l2 as [|[sc2 ex2] r2]; cbn [take_within]; [reflexivity|].
      rewrite Hfull. reflexivity.
    + destruct (total_tokens_of sel + approx_tokens ex <=? mt).
      * rewrite <- total_tokens_snoc. apply IH.
      * apply IH.
Qed.

Lemma take_within_extends mt me l : forall sel tot,
  exists more, take_within mt me l sel tot = sel ++ more.
Proof.
  induction l as [|[sc ex] rest IH]; intros sel tot; cbn [take_within].
  - exists []. now rewrite app_nil_r.
  - destruct (_ >=? _); [exists []; now rewrite app_nil_r|].
    destruct (_ <=? _); [|apply IH].
    destruct (IH (sel ++ [ex]) (tot + approx_tokens ex)) as [more ->].
    exists (ex :: more). rewrite <- app_assoc. reflexivity.
Qed.


(** C5, as stated, fails for a negative budget or limit: nothing is
    selected, and the empty selection already exceeds it. *)
Lemma negative_budget_exceeded :
  ~ (total_tokens_of (select (new_selector "examples") GENERAL (-1) 3) <= -1) /\
  ~ (Z.of_nat (length (select (new_selector "examples") GENERAL 1500 (-1))) <= -1).
Proof. split; vm_compute; intros H; apply H; reflexivity. Qed.

(** C5, amended.  For a budget and a limit that are not negative, the
    tokens of the selection sum to at most [max_tokens] and its length is at
    most [max_examples].  The candidates are the catalog entries of positive
    score, ordered by descending score with ties in catalog order, and the
    selection is made greedily along that order: a candidate is taken
    exactly when the limit is not yet reached and it fits the remaining
    budget, and whatever is decided for it, the selection goes on with the
    candidates behind it. *)
Theorem select_within_budget_greedy self t max_tokens max_examples :
  0 <= max_tokens -> 0 <= max_examples ->
  let scored := sort_desc (score_all self t) in
  let chosen l := take_within max_tokens max_examples l [] 0 in
  let result := select self t max_tokens max_examples in
  total_tokens_of result <= max_tokens /\
  Z.of_nat (length result) <= max_examples /\
  result = chosen scored /\
  Permutation scored
    (filter (fun p => fst p >? 0) (map (scored_entry t) (examples self))) /\
  StronglySorted by_score_desc scored /\
  (forall s, filter (has_score s) scored
             = filter (has_score s)
                 (filter (fun p => fst p >? 0)
                    (map (scored_entry t) (examples self)))) /\
  (forall pre c post, scored = pre ++ c :: post ->
     chosen (pre ++ [c])
     = chosen pre ++
       (if (Z.of_nat (length (chosen pre)) <? max_examples)
           && (total_tokens_of (chosen pre) + approx_tokens (snd c)
               <=? max_tokens)
        then [snd c] else []) /\
     exists more, result = chosen (pre ++ [c]) ++ more).
Proof.
  intros Ht He scored chosen result.
  assert (Hres : result = chosen scored) by reflexivity.
  pose proof (take_within_bounds max_tokens max_examples scored [] Ht He) as Hb.
  cbv zeta in Hb. change (total_tokens_of []) with 0 in Hb.
  split; [apply Hb|]. split; [apply Hb|]. split; [exact Hres|].
  split; [|split; [|split]].
  - subst scored. rewrite sort_desc_perm, score_all_filter. reflexivity.
  - apply sort_desc_sorted.
  - intros s. subst scored. rewrite sort_desc_stable, score_all_filter.
    reflexivity.
  - intros pre c post Hsplit. split.
    + unfold chosen.
      pose proof (take_within_app max_tokens max_examples pre [c] []) as Ha.
      change (total_tokens_of []) with 0 in Ha. rewrite Ha. cbv zeta.
      destruct c as [sc ex]. cbn [take_within snd].
      destruct (take_within_extends max_tokens max_examples pre [] 0)
        as [more Hm]. 
      destruct (Z.of_nat (length _) >=? max_examples) eqn:Hfull.
      * replace (Z.of_nat (length _) <? max_examples) with false by lia.
        simpl. now rewrite app_nil_r.
      * replace (Z.of_nat (length _) <? max_examples) with true by lia.
        simpl. destruct (_ <=? _); [reflexivity|now rewrite app_nil_r].
    + rewrite Hres, Hsplit. unfold chosen.
      replace (pre ++ c :: post) with ((pre ++ [c]) ++ post)
        by (rewrite <- app_assoc; reflexivity).
      pose proof (take_within_app max_tokens max_examples (pre ++ [c]) post [])
        as Ha.
      change (total_tokens_of []) with 0 in Ha. rewrite Ha. cbv zeta.
      apply take_within_extends.
Qed.

(** The defaults of [select] on the catalog of the repository. *)
Lemma select_within_budget_greedy_witness :
  total_tokens_of (select (new_selector "examples") CRUD_OPERATION 1500 3)
    <= 1500 /\
  Z.of_nat (length (select (new_selector "examples") CRUD_OPERATION 1500 3))
    <= 3.
Proof.
  pose proof (select_within_budget_greedy (new_selector "examples")
                CRUD_OPERATION 1500 3 ltac:(lia) ltac:(lia)) as H.
  cbv zeta in H. split; apply H.
Defined.

(** With the catalog of the repository, a CRUD task and the default budget:
    the best candidate (1200 tokens) is taken, the eight that follow it do
    not fit any more and are passed over, and the ninth (80 tokens) is
    taken. *)
Example select_crud_skips_and_continues :
  map title (select (new_selector "examples") CRUD_OPERATION 1500 3)
  = ["Database Dialects (SQL Body Blocks)";
     "Hello World (Minimal Effectful Function)"].
Proof. reflexivity. Qed.

End SelectorProofs.

(* ===================================================================== *)
(** * Properties of the harness *)
(* ===================================================================== *)

Module HarnessProofs.
Import Py Validator Selector Harness Scenario.

(** ** Strings *)

Lemma append_assoc (a b c : string) : ((a +++ b) +++ c) = (a +++ (b +++ c)).
Proof. induction a as [|x a IH]; simpl; [reflexivity|now rewrite IH]. Qed.

Lemma strip_prefix_append p s : strip_prefix p (p +++ s) = Some s.
Proof.
  induction p as [|c p IH]; simpl; [reflexivity|].
  rewrite Ascii.eqb_refl. exact IH.
Qed.

Lemma strip_prefix_sound p : forall s r,
  strip_prefix p s = Some r -> s = p +++ r.
Proof.
  induction p as [|c p IH]; simpl; intros s r H.
  - congruence.
  - destruct s as [|c' s']; simpl in H; [discriminate|].
    destruct (Ascii.eqb c c') eqn:Hc; [|discriminate].
    apply Ascii.eqb_eq in Hc. subst c'. f_equal. auto.
Qed.

Lemma strip_prefix_prefix p : forall s,
  String.prefix p s = true <-> exists r, strip_prefix p s = Some r.
Proof.
  induction p as [|c p IH]; intros s; simpl.
  - destruct s; split; eauto.
  - destruct s as [|c' s']; simpl.
    + split; [discriminate|intros [r H]; discriminate].
    + destruct (Ascii.ascii_dec c c') as [->|Hne].
      * rewrite Ascii.eqb_refl. apply IH.
      * destruct (Ascii.eqb c c') eqn:Hc.
        { apply Ascii.eqb_eq in Hc. contradiction. }
        split; [discriminate|intros [r H]; discriminate].
Qed.

Lemma strip_prefix_none p s :
  String.prefix p s = false -> strip_prefix p s = None.
Proof.
  intros H. destruct (strip_prefix p s) as [r|] eqn:Hs; [|reflexivity].
  assert (String.prefix p s = true) by (apply strip_prefix_prefix; eauto).
  congruence.
Qed.

(** Whether a three-character pattern starts at the head of a text is
    decided by the text's first three characters. *)
Lemma prefix3_append (a b c : ascii) (s t : string) :
  (3 <= String.length s)%nat ->
  String.prefix (String a (String b (String c ""))) (s +++ t)
  = String.prefix (String a (String b (String c ""))) s.
Proof.
  destruct s as [|x [|y [|z s']]]; simpl; try lia. intros _.
  destruct (Ascii.ascii_dec a x); [|reflexivity].
  destruct (Ascii.ascii_dec b y); [|reflexivity].
  destruct (Ascii.ascii_dec c z); [|reflexivity].
  destruct s'; [destruct t|]; reflexivity.
Qed.


Lemma length_append (a b : string) :
  String.length (a +++ b) = (String.length a + String.length b)%nat.
Proof. induction a; simpl; auto. Qed.

Lemma no_fence_start_cons c s x :
  no_fence_start (String c s) ->
  String.prefix fence (String c (s +++ fence +++ x)) = false /\ no_fence_start s.
Proof.
  unfold no_fence_start. cbn [String.append PyStr.contains].
  destruct (String.prefix fence (String c (s +++ "``"))) eqn:Hp; [discriminate|].
  intros Hc. split; [|exact Hc].
  change (String c (s +++ fence +++ x))
    with (String c (s +++ ("``" +++ ("`" +++ x)))).
  rewrite <- append_assoc.
  change (String c ((s +++ "``") +++ "`" +++ x))
    with ((String c (s +++ "``")) +++ ("`" +++ x)).
  unfold fence at 1. rewrite prefix3_append; [exact Hp|].
  simpl. rewrite length_append. simpl. lia.
Qed.

Lemma split_at_first_fence body rest :
  no_fence_start body ->
  split_at_first fence (body +++ fence +++ rest) = Some (body, rest).
Proof.
  induction body as [|c b IH]; intros Hn.
  - reflexivity.
  - destruct (no_fence_start_cons c b rest Hn) as [Hp Hb].
    cbn [String.append split_at_first].
    rewrite (strip_prefix_none _ _ Hp). rewrite (IH Hb). reflexivity.
Qed.

Lemma prefix_append p s : String.prefix p (p +++ s) = true.
Proof. apply strip_prefix_prefix. exists s. apply strip_prefix_append. Qed.

Lemma contains_head sub s :
  String.prefix sub s = true -> PyStr.contains sub s = true.
Proof.
  intros H. destruct s; unfold PyStr.contains; fold PyStr.contains;
    rewrite H; reflexivity.
Qed.

Lemma contains_fence pre x : PyStr.contains fence (pre +++ fence +++ x) = true.
Proof.
  induction pre as [|c p IH].
  - apply contains_head. exact (prefix_append fence x).
  - cbn [String.append PyStr.contains]. rewrite IH.
    destruct (String.prefix _ _); reflexivity.
Qed.

Lemma block_body_fence body rest :
  no_fence_start body ->
  block_body (PyStr.nl +++ body +++ fence +++ rest) = Some body.
Proof.
  intros Hb. unfold block_body.
  change (PyStr.nl +++ body +++ fence +++ rest)
    with (String PyStr.LF (body +++ fence +++ rest)).
  cbn [expect]. rewrite Ascii.eqb_refl.
  change (split_at_first "```") with (split_at_first fence).
  rewrite (split_at_first_fence body rest Hb). reflexivity.
Qed.

Lemma match_block_at_fence tag body rest :
  tag = "" \/ tag = "covenant" ->
  no_fence_start body ->
  match_block_at (fence +++ tag +++ PyStr.nl +++ body +++ fence +++ rest)
  = Some body.
Proof.
  intros Ht Hb. unfold match_block_at.
  change (strip_prefix "```") with (strip_prefix fence).
  rewrite strip_prefix_append.
  destruct Ht as [-> | ->].
  - change ("" +++ PyStr.nl +++ body +++ fence +++ rest)
      with (String PyStr.LF (body +++ fence +++ rest)).
    assert (Hnone : forall X, strip_prefix "covenant" (String PyStr.LF X) = None)
      by reflexivity.
    rewrite Hnone. apply (block_body_fence body rest Hb).
  - rewrite strip_prefix_append. rewrite (block_body_fence body rest Hb).
    reflexivity.
Qed.

Lemma first_block_skips pre x :
  no_fence_start pre ->
  first_block (pre +++ fence +++ x) = first_block (fence +++ x).
Proof.
  induction pre as [|c p IH]; intros Hn; [reflexivity|].
  destruct (no_fence_start_cons c p x Hn) as [Hp Hrest].
  cbn [String.append first_block]. unfold match_block_at at 1.
  change (strip_prefix "```") with (strip_prefix fence).
  rewrite (strip_prefix_none _ _ Hp). auto.
Qed.


Lemma split_at_first_sound sub : forall s a b,
  split_at_first sub s = Some (a, b) -> s = a +++ sub +++ b.
Proof.
  induction s as [|c s IH]; intros a b; cbn [split_at_first].
  - destruct (strip_prefix sub "") as [r|] eqn:Hs; [|discriminate].
    intros H; inversion H; subst. apply strip_prefix_sound in Hs. exact Hs.
  - destruct (strip_prefix sub (String c s)) as [r|] eqn:Hs.
    + intros H; inversion H; subst. apply strip_prefix_sound in Hs. exact Hs.
    + destruct (split_at_first sub s) as [[a' b']|] eqn:Hr; [|discriminate].
      intros H; inversion H; subst. rewrite (IH a' b eq_refl). reflexivity.
Qed.

Lemma block_body_sound s b :
  block_body s = Some b -> exists rest, s = PyStr.nl +++ b +++ fence +++ rest.
Proof.
  unfold block_body. destruct s as [|c s]; cbn [expect]; [discriminate|].
  destruct (Ascii.eqb PyStr.LF c) eqn:Hc; [|discriminate].
  apply Ascii.eqb_eq in Hc. subst c.
  destruct (split_at_first "```" s) as [[a r]|] eqn:Hs; [|discriminate].
  cbn. intros H; inversion H; subst. exists r.
  rewrite (split_at_first_sound _ _ _ _ Hs). reflexivity.
Qed.

Lemma match_block_at_sound s b :
  match_block_at s = Some b -> has_block s b.
Proof.
  unfold match_block_at.
  destruct (strip_prefix "```" s) as [r|] eqn:Hf; [|discriminate].
  apply strip_prefix_sound in Hf.
  destruct (strip_prefix "covenant" r) as [r'|] eqn:Ht.
  - destruct (block_body r') as [b'|] eqn:Hb.
    + intros H; inversion H; subst b'.
      apply strip_prefix_sound in Ht. apply block_body_sound in Hb.
      destruct Hb as [rest Hb]. exists "", "covenant", rest.
      split; [auto|]. rewrite Hf, Ht, Hb. reflexivity.
    + intros Hb'. apply block_body_sound in Hb'. destruct Hb' as [rest Hb'].
      exists "", "", rest. split; [auto|]. rewrite Hf, Hb'. reflexivity.
  - intros Hb'. apply block_body_sound in Hb'. destruct Hb' as [rest Hb'].
    exists "", "", rest. split; [auto|]. rewrite Hf, Hb'. reflexivity.
Qed.

Lemma first_block_sound : forall s b,
  first_block s = Some b -> has_block s b.
Proof.
  induction s as [|c s IH]; intros b; cbn [first_block].
  - destruct (match_block_at "") eqn:Hm; [|discriminate].
    intros H; inversion H; subst. now apply match_block_at_sound.
  - destruct (match_block_at (String c s)) eqn:Hm.
    + intros H; inversion H; subst. now apply match_block_at_sound.
    + intros H. destruct (IH b H) as (pre & tag & rest & Ht & ->).
      exists (String c pre), tag, rest. split; [assumption|reflexivity].
Qed.

Lemma split_at_first_complete sub : forall a b,
  exists a' b', split_at_first sub (a +++ sub +++ b) = Some (a', b').
Proof.
  induction a as [|c a IH]; intros b.
  - exists "", b. change ("" +++ sub +++ b) with (sub +++ b).
    destruct (sub +++ b) eqn:Hs; cbn [split_at_first]; rewrite <- Hs;
      rewrite strip_prefix_append; reflexivity.
  - cbn [String.append split_at_first].
    destruct (strip_prefix sub (String c (a +++ sub +++ b))) as [r|]; [eauto|].
    destruct (IH b) as (a' & b' & ->). eauto.
Qed.

Lemma block_body_complete body rest :
  exists b, block_body (PyStr.nl +++ body +++ fence +++ rest) = Some b.
Proof.
  unfold block_body.
  change (PyStr.nl +++ body +++ fence +++ rest)
    with (String PyStr.LF (body +++ fence +++ rest)).
  cbn [expect]. rewrite Ascii.eqb_refl.
  destruct (split_at_first_complete fence body rest) as (a' & b' & Hs).
  change (split_at_first "```") with (split_at_first fence). rewrite Hs.
  exists a'. reflexivity.
Qed.

Lemma match_block_at_complete tag body rest :
  tag = "" \/ tag = "covenant" ->
  exists b,
    match_block_at (fence +++ tag +++ PyStr.nl +++ body +++ fence +++ rest)
    = Some b.
Proof.
  intros Ht. unfold match_block_at.
  change (strip_prefix "```") with (strip_prefix fence).
  rewrite strip_prefix_append.
  destruct (block_body_complete body rest) as [b Hb].
  destruct Ht as [-> | ->].
  - change ("" +++ PyStr.nl +++ body +++ fence +++ rest)
      with (PyStr.nl +++ body +++ fence +++ rest).
    rewrite Hb. destruct (strip_prefix "covenant" _) as [r'|]; [|eauto].
    destruct (block_body r'); eauto.
  - rewrite strip_prefix_append, Hb. eauto.
Qed.

Lemma first_block_complete reply body :
  has_block reply body -> exists b, first_block reply = Some b.
Proof.
  intros (pre & tag & rest & Ht & ->).
  destruct (match_block_at_complete tag body rest Ht) as [b Hb].
  induction pre as [|c pre IH].
  - change ("" +++ fence +++ tag +++ PyStr.nl +++ body +++ fence +++ rest)
      with (fence +++ tag +++ PyStr.nl +++ body +++ fence +++ rest).
    destruct (fence +++ tag +++ PyStr.nl +++ body +++ fence +++ rest);
      cbn [first_block]; rewrite Hb; eauto.
  - cbn [String.append first_block].
    destruct (match_block_at (String c _)); [eauto|exact IH].
Qed.

Lemma first_block_none reply :
  first_block reply = None -> forall body, ~ has_block reply body.
Proof.
  intros Hn body Hb. destruct (first_block_complete reply body Hb) as [b Hb'].
  congruence.
Qed.

(** C9, as stated, fails twice: a block tagged [python] is not extracted
    (the reply is used whole, fences included), and a reply without any
    fence is used as it is, not trimmed. *)
Lemma other_tag_or_no_fence_not_extracted :
  reply_code python_reply = python_reply /\
  reply_code python_reply <> "print(1)" /\
  reply_code "  fn main  " = "  fn main  " /\
  reply_code "  fn main  " <> PyStr.strip "  fn main  ".
Proof. repeat split; try reflexivity; discriminate. Qed.

(** C9, amended.  A reply whose first fence opens a block without tag or
    with the tag [covenant], directly followed by a line feed, and closed by
    the next fence, yields the trimmed contents of that block.  A reply that
    holds a fence but no block of that form yields the trimmed reply, and a
    reply without any fence is used unchanged. *)
Theorem reply_code_extracts_first_covenant_block :
  (forall pre tag body rest,
     tag = "" \/ tag = "covenant" ->
     no_fence_start pre -> no_fence_start body ->
     reply_code (pre +++ fence +++ tag +++ PyStr.nl +++ body +++ fence +++ rest)
     = PyStr.strip body) /\
  (forall reply,
     PyStr.contains fence reply = true ->
     (forall body, ~ has_block reply body) ->
     reply_code reply = PyStr.strip reply) /\
  (forall reply,
     PyStr.contains fence reply = false -> reply_code reply = reply).
Proof.
  split; [|split].
  - intros pre tag body rest Ht Hpre Hbody. unfold reply_code.
    change (PyStr.contains "```") with (PyStr.contains fence).
    rewrite contains_fence. unfold _extract_code_from_markdown.
    rewrite (first_block_skips pre _ Hpre). 
    assert (Hm := match_block_at_fence tag body rest Ht Hbody).
    destruct (fence +++ tag +++ PyStr.nl +++ body +++ fence +++ rest) eqn:Hs;
      cbn [first_block]; rewrite Hm; reflexivity.
  - intros reply Hc Hno. unfold reply_code.
    change (PyStr.contains "```") with (PyStr.contains fence). rewrite Hc.
    unfold _extract_code_from_markdown.
    destruct (first_block reply) as [b|] eqn:Hb; [|reflexivity].
    exfalso. exact (Hno b (first_block_sound _ _ Hb)).
  - intros reply Hc. unfold reply_code.
    change (PyStr.contains "```") with (PyStr.contains fence). rewrite Hc.
    reflexivity.
Qed.


(** ** The summary *)

(** The three averages are guarded and never fault. *)
Lemma guarded_average_ok a total : exists q, guarded_average a total = Ok q.
Proof.
  unfold guarded_average, truediv. destruct (total >? 0) eqn:Hp; [|eauto].
  destruct (Qeq_bool (inject_Z total) 0) eqn:Hz; [|eauto].
  apply Qeq_bool_iff in Hz. unfold Qeq in Hz. simpl in Hz. lia.
Qed.

(** C7.  On the empty list [print_summary] prints the header and the total
    and then faults: the first-pass rate divides by the number of tasks,
    which is zero. *)
Theorem print_summary_empty_divides_by_zero E :
  print_summary E []
  = ([PText (PyStr.nl +++ repeat_string "=" 80); PText "SUMMARY";
      PText (repeat_string "=" 80); PTotal 0],
     Raise ZeroDivisionError).
Proof. reflexivity. Qed.

Lemma truediv_positive a total :
  0 < total -> truediv a (inject_Z total) = Ok (a / inject_Z total)%Q.
Proof.
  intros Hp. unfold truediv.
  destruct (Qeq_bool (inject_Z total) 0) eqn:Hz; [|reflexivity].
  apply Qeq_bool_iff in Hz. unfold Qeq in Hz. simpl in Hz. lia.
Qed.

(** With at least one task the divisions go through: the summary is
    printed in full unless the error counter itself faults. *)
Lemma print_summary_nonempty E r results :
  exists out,
    print_summary E (r :: results) = (out, Ok tt) \/
    exists e, most_common E (flat_map error_codes (r :: results)) 10 = Raise e /\
              print_summary E (r :: results) = (out, Raise e).
Proof.
  unfold print_summary.
  set (total := Z.of_nat (length (r :: results))).
  assert (Hp : 0 < total) by (subst total; simpl length; lia).
  unfold guarded_average.
  replace (total >? 0) with true by lia.
  rewrite !truediv_positive by assumption.
  destruct (flat_map error_codes (r :: results)) as [|c cs] eqn:Hall; [eauto|].
  destruct (most_common E (c :: cs) 10) as [top|e]; eauto.
Qed.

(** ** The correction loop *)

Lemma bind_ok {A B} (m : M A) (k : A -> M B) w b w' :
  bind m k w = (Ok b, w') ->
  exists a w1, m w = (Ok a, w1) /\ k a w1 = (Ok b, w').
Proof.
  unfold bind. destruct (m w) as [[a|e] w1]; [eauto|discriminate].
Qed.

Lemma lift_ok {A} (o : outcome A) w a w' :
  lift o w = (Ok a, w') -> o = Ok a /\ w' = w.
Proof. unfold lift. intros H; inversion H; auto. Qed.

Lemma ret_ok {A} (x : A) w a w' : ret x w = (Ok a, w') -> a = x /\ w' = w.
Proof. unfold ret. intros H; inversion H; auto. Qed.

Lemma read_clock_prompts E w q w' :
  read_clock E w = (Ok q, w') -> prompts w' = prompts w.
Proof. unfold read_clock. intros H; inversion H; reflexivity. Qed.

Lemma validate_prompts E self src w v w' :
  validate E self src w = (Ok v, w') -> prompts w' = prompts w.
Proof.
  unfold validate, bind, lift, ret, read_clock, _run_compiler.
  cbn [clock_reads compiled prompts].
  match goal with |- context [match ?r with Completed _ => _ | _ => _ end] =>
    destruct r as [p| | |e0] end; [| | |discriminate].
  all: destruct (_parse_compiler_output E _) as [[errs warns]|]; [|discriminate].
  all: destruct (_determine_phase _ errs); [|discriminate].
  all: intros H; inversion H; reflexivity.
Qed.

Lemma call_llm_prompts E self prompt w r w' :
  _call_llm E self prompt w = (Ok r, w') -> prompts w' = prompts w ++ [prompt].
Proof.
  unfold _call_llm, bind, log_prompt, lift, ret, throw.
  cbn [prompts].
  destruct (model_provider self).
  - destruct (messages_create E _ _ _) as [[[reply i] o]|]; [|discriminate].
    intros H; inversion H; reflexivity.
  - discriminate.
  - intros H; inversion H; reflexivity.
Qed.

(** Peel the first action off a computation that is known to return. *)
Ltac step H x w Hx :=
  apply bind_ok in H; destruct H as (x & w & Hx & H).

Lemma generate_attempt_spec E self task ex n w a w' :
  _generate_attempt E self task ex n w = (Ok a, w') ->
  attempt_number a = n /\
  (exists v, validation_result a = Some v) /\
  exists p, prompts w' = prompts w ++ [p].
Proof.
  unfold _generate_attempt. intros H.
  step H prompt w1 H1. apply lift_ok in H1 as [_ ->].
  step H start w2 H2. apply read_clock_prompts in H2.
  step H reply w3 H3. destruct reply as [[c pt] ct].
  apply call_llm_prompts in H3.
  step H stop w4 H4. apply read_clock_prompts in H4.
  step H v w5 H5. apply validate_prompts in H5.
  apply ret_ok in H as [-> ->]. cbn.
  split; [reflexivity|]. split; [eauto|].
  exists prompt. congruence.
Qed.

Lemma generate_correction_spec E self task n code errs w a w' :
  _generate_correction E self task n code errs w = (Ok a, w') ->
  attempt_number a = n /\
  (exists v, validation_result a = Some v) /\
  exists p, prompts w' = prompts w ++ [p].
Proof.
  unfold _generate_correction. intros H.
  step H prompt w1 H1. apply lift_ok in H1 as [_ ->].
  step H start w2 H2. apply read_clock_prompts in H2.
  step H reply w3 H3. destruct reply as [[c pt] ct].
  apply call_llm_prompts in H3.
  step H stop w4 H4. apply read_clock_prompts in H4.
  step H v w5 H5. apply validate_prompts in H5.
  apply ret_ok in H as [-> ->]. cbn.
  split; [reflexivity|]. split; [eauto|].
  exists prompt. congruence.
Qed.


Lemma correction_rounds_spec E self task rounds : forall st w st' w',
  correction_rounds E self task rounds st w = (Ok st', w') ->
  loop_inv st ->
  loop_inv st' /\
  exists more ps,
    ls_attempts st' = ls_attempts st ++ more /\
    prompts w' = prompts w ++ ps /\
    length ps = length more /\
    (length more <= length rounds)%nat /\
    map attempt_number more = firstn (length more) rounds.
Proof.
  induction rounds as [|n rounds IH]; intros st w st' w' H Hinv;
    cbn [correction_rounds] in H.
  - apply ret_ok in H as [-> ->]. split; [assumption|].
    exists [], []. rewrite !app_nil_r. auto.
  - assert (Hstop : st' = st /\ w' = w ->
              loop_inv st' /\
              exists more ps,
                ls_attempts st' = ls_attempts st ++ more /\
                prompts w' = prompts w ++ ps /\
                length ps = length more /\
                (length more <= length (n :: rounds))%nat /\
                map attempt_number more = firstn (length more) (n :: rounds)).
    { intros [-> ->]. split; [assumption|].
      exists [], []. rewrite !app_nil_r. simpl. repeat split; auto; lia. }
    destruct (ls_final_success st) eqn:Hfin;
      [apply Hstop, (ret_ok _ _ _ _ H)|].
    destruct (current_validation st) as [v|] eqn:Hcur;
      [|apply Hstop, (ret_ok _ _ _ _ H)].
    destruct (success v) eqn:Hsucc; [apply Hstop, (ret_ok _ _ _ _ H)|].
    clear Hstop. step H a w1 Ha.
    apply generate_correction_spec in Ha as (Hnum & _ & p & Hp).
    apply IH in H.
    + destruct H as (Hinv' & more & ps & Hatt & Hps & Hlen & Hle & Hnums).
      cbn [ls_attempts] in Hatt. split; [assumption|].
      exists (a :: more), (p :: ps). rewrite Hatt, Hps, Hp, <- !app_assoc.
      cbn [length map firstn app]. rewrite Hnum, Hnums, Hlen.
      repeat split; auto; lia.
    + destruct Hinv as (pre & a0 & Hatt & Hval & Hf & Hpre).
      exists (pre ++ [a0]), a. cbn. rewrite Hatt.
      repeat split; auto.
      apply Forall_app. split; [assumption|].
      constructor; [|constructor]. congruence.
Qed.

Lemma range_length lo hi : length (PyStr.range lo hi) = Z.to_nat (hi - lo).
Proof. unfold PyStr.range. now rewrite length_map, length_seq. Qed.

Lemma firstn_seq_le k : forall a n,
  (k <= n)%nat -> firstn k (seq a n) = seq a k.
Proof.
  induction k as [|k IH]; intros a n Hk; [reflexivity|].
  destruct n as [|n]; [lia|]. cbn [seq firstn]. rewrite IH by lia. reflexivity.
Qed.

Lemma range_firstn_cons lo hi k :
  (k <= Z.to_nat (hi - (lo + 1)))%nat ->
  lo :: firstn k (PyStr.range (lo + 1) hi)
  = PyStr.range lo (lo + 1 + Z.of_nat k).
Proof.
  intros Hk. unfold PyStr.range.
  rewrite firstn_map, firstn_seq_le by assumption.
  replace (Z.to_nat (lo + 1 + Z.of_nat k - lo)) with (S k) by lia.
  cbn [seq map]. rewrite <- seq_shift, map_map. f_equal; [lia|].
  apply map_ext. intros i. lia.
Qed.


Lemma call_llm_mock E self prompt w :
  model_provider self = MOCK ->
  exists w', _call_llm E self prompt w = (Ok (mock_code, 100, 50), w').
Proof.
  intros Hm. unfold _call_llm, bind, log_prompt, ret. rewrite Hm. eauto.
Qed.

Lemma generate_attempt_returns E self task ex n w :
  text_only_compiler E -> dependable_compiler E ->
  builders_total (text self) ->
  model_provider self = MOCK ->
  exists a w', _generate_attempt E self task ex n w = (Ok a, w').
Proof.
  intros Ht Hd [Hb _] Hm. unfold _generate_attempt.
  destruct (Hb task (spec self) ex) as [prompt Hp].
  unfold bind at 1. unfold lift. rewrite Hp.
  unfold bind at 1. unfold read_clock at 1.
  unfold bind at 1.
  destruct (call_llm_mock E self prompt
              {| clock_reads := S (clock_reads w); compiled := compiled w;
                 prompts := prompts w |} Hm) as [w1 ->].
  unfold bind at 1. unfold read_clock at 1.
  unfold bind at 1.
  match goal with |- context [validate E ?v ?c ?w0] =>
    destruct (ValidatorProofs.validate_returns E v c w0 Ht Hd)
      as (v' & w2 & ->) end.
  unfold ret. eauto.
Qed.

Lemma generate_correction_returns E self task n code errs w :
  text_only_compiler E -> dependable_compiler E ->
  builders_total (text self) ->
  model_provider self = MOCK ->
  exists a w', _generate_correction E self task n code errs w = (Ok a, w').
Proof.
  intros Ht Hd (_ & Hb & _) Hm. unfold _generate_correction.
  destruct (Hb task code errs) as [prompt Hp].
  unfold bind at 1. unfold lift. rewrite Hp.
  unfold bind at 1. unfold read_clock at 1.
  unfold bind at 1.
  destruct (call_llm_mock E self prompt
              {| clock_reads := S (clock_reads w); compiled := compiled w;
                 prompts := prompts w |} Hm) as [w1 ->].
  unfold bind at 1. unfold read_clock at 1.
  unfold bind at 1.
  match goal with |- context [validate E ?v ?c ?w0] =>
    destruct (ValidatorProofs.validate_returns E v c w0 Ht Hd)
      as (v' & w2 & ->) end.
  unfold ret. eauto.
Qed.

Lemma correction_rounds_returns E self task rounds :
  text_only_compiler E -> dependable_compiler E ->
  builders_total (text self) ->
  model_provider self = MOCK ->
  forall st w, exists st' w',
    correction_rounds E self task rounds st w = (Ok st', w').
Proof.
  intros Ht Hd Hb Hm. induction rounds as [|n rounds IH]; intros st w;
    cbn [correction_rounds]; [unfold ret; eauto|].
  destruct (ls_final_success st); [unfold ret; eauto|].
  destruct (current_validation st) as [v|]; [|unfold ret; eauto].
  destruct (success v); [unfold ret; eauto|].
  unfold bind.
  destruct (generate_correction_returns E self task n (current_code st)
              (errors v) w Ht Hd Hb Hm) as (a & w1 & ->).
  apply IH.
Qed.

(** With the mock provider, total text builders and a dependable compiler
    that prints plain text, [generate] returns its metrics for every task,
    bound and world. *)
Lemma generate_returns E self task w :
  text_only_compiler E -> dependable_compiler E ->
  builders_total (text self) ->
  model_provider self = MOCK ->
  exists m w', generate E self task w = (Ok m, w').
Proof.
  intros Ht Hd Hb Hm. unfold generate.
  unfold bind at 1. unfold read_clock at 1.
  unfold bind at 1. unfold lift at 1.
  destruct (proj2 (proj2 Hb) (example_selector self)
              (select (example_selector self) (task_type task) 1500 3))
    as [ex ->].
  unfold bind at 1.
  match goal with |- context [_generate_attempt E self task ?ex 1 ?w0] =>
    destruct (generate_attempt_returns E self task ex 1 w0 Ht Hd Hb Hm)
      as (a1 & w1 & ->) end.
  unfold bind at 1.
  match goal with |- context [correction_rounds E self task ?r ?st ?w0] =>
    destruct (correction_rounds_returns E self task r Ht Hd Hb Hm st w0)
      as (st' & w2 & ->) end.
  unfold bind, read_clock, ret. eauto.
Qed.

(** C1.  For a bound [max_correction_rounds] that is not negative, the
    metrics [generate] returns count their attempts, of which there are at
    least one and at most one more than the bound; the model was called
    once per attempt; every attempt but the last one failed validation, so
    no call follows a success; [first_pass_success] is the outcome of the
    first attempt and [final_success] that of the last, which holds exactly
    when some attempt succeeded; the attempts are numbered from 1. *)
Theorem generate_bounded_correction E self task w m w' :
  0 <= max_correction_rounds self ->
  generate E self task w = (Ok m, w') ->
  total_attempts m = Z.of_nat (length (attempts m)) /\
  1 <= total_attempts m <= 1 + max_correction_rounds self /\
  (exists ps, prompts w' = prompts w ++ ps /\
              length ps = length (attempts m)) /\
  (exists pre a, attempts m = pre ++ [a] /\
                 Forall (fun b => attempt_ok b = false) pre /\
                 final_success m = attempt_ok a) /\
  (exists a1 rest, attempts m = a1 :: rest /\
                   first_pass_success m = attempt_ok a1) /\
  (final_success m = true <->
   exists a, In a (attempts m) /\ attempt_ok a = true) /\
  map attempt_number (attempts m) = PyStr.range 1 (total_attempts m + 1).
Proof.
  intros HR H. unfold generate in H.
  step H start w1 H1. apply read_clock_prompts in H1.
  step H examples_text w1' Hex. apply lift_ok in Hex as [_ ->].
  step H attempt1 w2 H2.
  apply generate_attempt_spec in H2 as (Hn1 & _ & p1 & Hp1).
  step H st w3 H3. apply correction_rounds_spec in H3.
  2:{ exists [], attempt1. cbn. auto. }
  destruct H3 as (Hinv & more & ps & Hatt & Hps & Hlen & Hle & Hnums).
  cbn [ls_attempts] in Hatt.
  step H stop w4 H4. apply read_clock_prompts in H4.
  step H now_ w5 H5. apply read_clock_prompts in H5.
  apply ret_ok in H as [-> ->].
  cbn [total_attempts attempts first_pass_success final_success].
  rewrite range_length in Hle.
  destruct Hinv as (pre & a & Hsplit & _ & Hfin & Hpre).
  cbn [app] in Hatt.
  assert (Hcount : length (ls_attempts st) = S (length more))
    by (rewrite Hatt; reflexivity).
  split; [reflexivity|]. split; [lia|]. split.
  { exists (p1 :: ps). split; [|simpl; lia].
    rewrite H5, H4, Hps, Hp1, H1, <- app_assoc. reflexivity. }
  split; [exists pre, a; auto|].
  split; [exists attempt1, more; auto|].
  split.
  { rewrite Hfin, Hsplit. split.
    - intros Hok. exists a. split; [apply in_or_app; simpl; auto|assumption].
    - intros (b & Hin & Hb). apply in_app_or in Hin. destruct Hin as [Hin|Hin].
      + rewrite Forall_forall in Hpre. rewrite (Hpre b Hin) in Hb. discriminate.
      + destruct Hin as [<-|[]]. assumption. }
  rewrite Hcount, Hatt. cbn [map]. rewrite Hn1, Hnums.
  replace (Z.of_nat (S (length more)) + 1) with (1 + 1 + Z.of_nat (length more))
    by lia.
  apply (range_firstn_cons 1). lia.
Qed.

(** A run of two attempts: the compiler rejects the first source and
    accepts the second, and no third call is made although the bound would
    allow it. *)
Lemma generate_bounded_correction_witness :
  exists m w',
    generate second_time_lucky a_harness test_001_pure_add initial_world
      = (Ok m, w') /\
    map attempt_ok (attempts m) = [false; true] /\
    first_pass_success m = false /\
    final_success m = true /\
    length (prompts w') = 2%nat /\
    1 <= total_attempts m <= 1 + max_correction_rounds a_harness.
Proof.
  destruct (generate second_time_lucky a_harness test_001_pure_add
              initial_world) as [[m|e] w'] eqn:H;
    [|vm_compute in H; discriminate H].
  exists m, w'. split; [reflexivity|].
  pose proof (generate_bounded_correction second_time_lucky a_harness
                test_001_pure_add initial_world m w' ltac:(simpl; lia) H) as T.
  destruct T as (_ & Hbound & _).
  vm_compute in H. injection H as <- <-.
  repeat (split; [reflexivity|]). exact Hbound.
Defined.

(** One reply of each kind. *)
Lemma reply_code_extracts_first_covenant_block_witness :
  reply_code covenant_reply = "body" /\
  reply_code (python_reply +++ "  ") = python_reply /\
  reply_code "  fn main  " = "  fn main  ".
Proof.
  split; [|split].
  - exact (proj1 reply_code_extracts_first_covenant_block
             ("Here it is:" +++ PyStr.nl) "covenant" ("  body" +++ PyStr.nl)
             (PyStr.nl +++ "Done.") (or_intror eq_refl) eq_refl eq_refl).
  - exact (proj1 (proj2 reply_code_extracts_first_covenant_block)
             (python_reply +++ "  ") eq_refl
             (first_block_none (python_reply +++ "  ") eq_refl)).
  - exact (proj2 (proj2 reply_code_extracts_first_covenant_block)
             "  fn main  " eq_refl).
Defined.

End HarnessProofs.

(* ===================================================================== *)
(** * Further properties of the validator *)
(* ===================================================================== *)

Module ValidatorExtras.
Import Py Validator Scenario Scenario2 Fixes ValidatorProofs.

Lemma append_assoc_s (a b c : string) : (a +++ b) +++ c = a +++ b +++ c.
Proof. induction a as [|x a IH]; cbn; [reflexivity|now rewrite IH]. Qed.

(** What a returning call of [validate] did: it ran the compiler once on
    the source, parsed the result and filled the record from it. *)
Lemma validate_inv E self src w v w' :
  validate E self src w = (Ok v, w') ->
  exists result errs warns ph,
    _run_compiler E self src
      {| clock_reads := S (clock_reads w); compiled := compiled w;
         prompts := prompts w |}
    = (Ok result,
       {| clock_reads := S (clock_reads w); compiled := compiled w ++ [src];
          prompts := prompts w |}) /\
    _parse_compiler_output E result = Ok (errs, warns) /\
    _determine_phase result errs = Ok ph /\
    success v = (length errs =? 0)%nat /\
    errors v = errs /\ warnings v = warns /\
    source_code v = src /\ phase_reached v = Some ph /\
    compiled w' = compiled w ++ [src] /\ prompts w' = prompts w.
Proof.
  unfold validate, bind, lift, ret, read_clock.
  cbn [clock_reads compiled prompts].
  destruct (_run_compiler E self src _) as [[result|e] w1] eqn:Hrun;
    [|discriminate].
  assert (Hw1 : w1 = {| clock_reads := S (clock_reads w);
                        compiled := compiled w ++ [src];
                        prompts := prompts w |}).
  { unfold _run_compiler in Hrun. cbn [clock_reads compiled prompts] in Hrun.
    inversion Hrun. reflexivity. }
  subst w1.
  destruct (_parse_compiler_output E result) as [[errs warns]|] eqn:Hp;
    [|discriminate].
  destruct (_determine_phase result errs) as [ph|] eqn:Hph; [|discriminate].
  intros H. inversion H; subst v w'. clear H.
  exists result, errs, warns, ph. cbn.
  repeat split; auto.
Qed.

Lemma success_iff_no_errors E self src w v w' :
  validate E self src w = (Ok v, w') ->
  (success v = true <-> errors v = []).
Proof.
  intros H. apply validate_inv in H.
  destruct H as (r & errs & warns & ph & _ & _ & _ & -> & -> & _).
  destruct errs; simpl; split; congruence.
Qed.

(** ** Phases *)

Lemma determine_phase_in_range p errs ph :
  _determine_phase p errs = Ok ph ->
  In ph phases /\ (ph = "success" <-> errs = []).
Proof.
  unfold _determine_phase, phases. destruct errs as [|e errs'].
  - intros H; inversion H; subst. simpl. tauto.
  - remember (e :: errs') as errs eqn:Heq.
    assert (Hne : errs <> []) by (subst; discriminate). clear Heq.
    assert (Hgoal : forall s, In s ["parser"; "type_check"; "effect_check";
                                    "codegen"; "unknown"] ->
                    In s ["success"; "parser"; "type_check"; "effect_check";
                          "codegen"; "unknown"] /\ (s = "success" <-> errs = [])).
    { intros s Hs. split; [right; exact Hs|].
      split; [|tauto]. intros ->. simpl in Hs.
      repeat (destruct Hs as [Hs|Hs]; [discriminate Hs|]). destruct Hs. }
    destruct (any_code_startswith "E-PARSE" _) as [[]|]; cbn [obind];
      try discriminate;
      [intros H; inversion H; apply Hgoal; simpl; tauto|].
    destruct (any_code_startswith "E-TYPE" _) as [[]|]; cbn [obind];
      try discriminate;
      [intros H; inversion H; apply Hgoal; simpl; tauto|].
    destruct (any_code_startswith "E-EFFECT" _) as [[]|]; cbn [obind];
      try discriminate;
      [intros H; inversion H; apply Hgoal; simpl; tauto|].
    destruct (any_code_startswith "E-CODEGEN" _) as [[]|]; cbn [obind];
      try discriminate;
      [intros H; inversion H; apply Hgoal; simpl; tauto|].
    destruct (PyStr.contains "parsing" _);
      [intros H; inversion H; apply Hgoal; simpl; tauto|].
    destruct (PyStr.contains "type checking" _);
      intros H; inversion H; apply Hgoal; simpl; tauto.
Qed.

(** X1.  A result returned by [validate] names one of the six phases, and
    the phase is "success" exactly when the success flag is set. *)
Theorem validate_phase_matches_success E self src w v w' :
  validate E self src w = (Ok v, w') ->
  exists ph, phase_reached v = Some ph /\ In ph phases /\
             (ph = "success" <-> success v = true).
Proof.
  intros H. apply validate_inv in H.
  destruct H as (result & errs & warns & ph & _ & _ & Hph & -> & _ & _ & _
                 & -> & _).
  apply determine_phase_in_range in Hph. destruct Hph as [Hin Hiff].
  exists ph. split; [reflexivity|]. split; [assumption|].
  rewrite Hiff. destruct errs; simpl; split; congruence.
Qed.

Lemma validate_phase_matches_success_witness :
  exists v w',
    validate quiet a_validator "anything" initial_world = (Ok v, w') /\
    exists ph, phase_reached v = Some ph /\ In ph phases /\
               (ph = "success" <-> success v = true).
Proof.
  destruct (validate quiet a_validator "anything" initial_world)
    as [[v|e] w'] eqn:H; [|vm_compute in H; discriminate H].
  exists v, w'. split; [reflexivity|].
  exact (validate_phase_matches_success quiet a_validator "anything"
           initial_world v w' H).
Defined.

Lemma any_code_startswith_existsb pre errs :
  Forall str_code errs ->
  any_code_startswith pre (map code errs)
  = Ok (existsb (code_has_prefix pre) errs).
Proof.
  unfold any_code_startswith.
  induction 1 as [|e errs [s Hs] _ IH]; cbn [map any_lazy existsb];
    [reflexivity|].
  unfold code_has_prefix at 1. rewrite Hs. cbn [value_startswith].
  destruct (PyStr.startswith s pre); [reflexivity|exact IH].
Qed.

Lemma existsb_perm {A} (f : A -> bool) l l' :
  Permutation l l' -> existsb f l = existsb f l'.
Proof.
  intros Hp. apply eq_true_iff_eq. rewrite !existsb_exists.
  split; intros (x & Hin & Hx); exists x; split; try assumption.
  - exact (Permutation_in x Hp Hin).
  - exact (Permutation_in x (Permutation_sym Hp) Hin).
Qed.

(** X2.  For diagnostics whose codes are texts, the phase does not depend
    on the order in which they were reported: a list of errors and any
    rearrangement of it are given the same phase. *)
Theorem phase_ignores_order p errs errs' :
  Forall str_code errs -> Permutation errs errs' ->
  _determine_phase p errs = _determine_phase p errs'.
Proof.
  intros Hs Hp.
  assert (Hs' : Forall str_code errs').
  { rewrite Forall_forall in *. intros x Hx. apply Hs.
    eapply Permutation_in; [apply Permutation_sym|]; eauto. }
  unfold _determine_phase.
  rewrite !(any_code_startswith_existsb _ errs Hs),
          !(any_code_startswith_existsb _ errs' Hs'),
          !(existsb_perm _ errs errs' Hp).
  destruct errs as [|e l]; destruct errs' as [|e' l']; try reflexivity.
  - apply Permutation_nil in Hp. discriminate Hp.
  - apply Permutation_sym, Permutation_nil in Hp. discriminate Hp.
Qed.

Lemma phase_ignores_order_witness :
  _determine_phase scenario1 mixed_errors = Ok "parser" /\
  _determine_phase scenario1 mixed_errors
  = _determine_phase scenario1 mixed_errors_reordered.
Proof.
  split; [reflexivity|].
  apply phase_ignores_order.
  - repeat constructor; red; cbn; eauto.
  - apply Permutation_sym.
    exact (Permutation_cons_app
             [diagnostic ERROR "E-CODEGEN-007" "cannot emit";
              diagnostic ERROR "E-TYPE-005" "mismatch"] []
             (diagnostic ERROR "E-PARSE-001" "unexpected token")
             (Permutation_refl _)).
Defined.

(** ** The text path *)

Lemma error_lines_nil lines :
  error_lines lines = [] <->
  Forall (fun raw => is_error_line (PyStr.strip raw) = false) lines.
Proof.
  unfold error_lines. induction lines as [|raw lines IH]; cbn [map filter].
  - split; [constructor|reflexivity].
  - destruct (is_error_line (PyStr.strip raw)) eqn:He.
    + split; [discriminate|]. intros H. inversion H; congruence.
    + rewrite IH. split; [constructor; assumption|].
      intros H. inversion H; assumption.
Qed.

Lemma with_process_runs E p self src w result w' :
  _run_compiler (with_process E p) self src w = (Ok result, w') -> result = p.
Proof.
  unfold _run_compiler. cbn [subprocess_run with_process].
  intros H. inversion H. reflexivity.
Qed.

(** X3.  When the compiler prints plain text, validation succeeds exactly
    when the exit code is zero and no line of the output, trimmed, starts
    with "ERROR" or "error"; warnings never matter. *)
Theorem text_output_success_iff E p self src w v w' :
  looks_structured (combined_output p) = false ->
  validate (with_process E p) self src w = (Ok v, w') ->
  (success v = true <->
   returncode p = 0 /\
   Forall (fun raw => is_error_line (PyStr.strip raw) = false)
          (PyStr.split_lines (combined_output p))).
Proof.
  intros Hl Hv. rewrite (success_iff_no_errors _ _ _ _ _ _ Hv).
  destruct (validate_inv _ _ _ _ _ _ Hv)
    as (result & errs & warns & ph & Hrun & Hparse & _ & _ & -> & _).
  apply with_process_runs in Hrun. subst result.
  rewrite (parse_text_path _ p Hl) in Hparse.
  pose proof (parse_text_output_cases p) as Hc. rewrite Hparse in Hc.
  destruct Hc as (de & Ht & ->). unfold text_lines in Ht.
  pose proof (text_lines_from_cases
                (PyStr.split_lines (combined_output p)) [] []) as Hf.
  rewrite Ht in Hf. destruct Hf as (de' & dw & -> & _ & Hde & _).
  cbn [app]. rewrite <- error_lines_nil.
  apply Forall2_length in Hde.
  destruct de' as [|e de'].
  - destruct (error_lines _); [|discriminate Hde].
    destruct (returncode p =? 0) eqn:Hrc; cbn [negb].
    + split; [intros _; split; [lia|reflexivity]|reflexivity].
    + split; [discriminate|]. intros [Hz _]. lia.
  - split; [discriminate|]. intros [_ Hnil]. rewrite Hnil in Hde.
    discriminate Hde.
Qed.

Lemma text_output_success_iff_witness :
  exists v w',
    validate (with_process quiet warnings_only) a_validator "src" initial_world
      = (Ok v, w') /\
    success v = true /\
    (success v = true <->
     returncode warnings_only = 0 /\
     Forall (fun raw => is_error_line (PyStr.strip raw) = false)
            (PyStr.split_lines (combined_output warnings_only))).
Proof.
  destruct (validate (with_process quiet warnings_only) a_validator "src"
              initial_world) as [[v|e] w'] eqn:H;
    [|vm_compute in H; discriminate H].
  exists v, w'. split; [reflexivity|].
  pose proof (text_output_success_iff quiet warnings_only a_validator "src"
                initial_world v w' eq_refl H) as T.
  split; [|exact T].
  vm_compute in H. injection H as <- <-. reflexivity.
Defined.

(** ** Faults of the compiler run *)

(** X4.  A compiler that times out or cannot be found does not make
    [validate] fail: the result holds exactly one error, with the unknown
    code and the fixed message of the fault, no warning, phase "unknown",
    and the success flag is off. *)
Theorem compiler_fault_is_one_unknown_error E self src w :
  let n := length (compiled w) in
  let run := subprocess_run E n (compiler_command self (mkstemp E n)) src in
  (run = TimeoutExpired ->
   exists v w',
     validate E self src w = (Ok v, w') /\
     errors v = [diagnostic ERROR "E-UNKNOWN"
                   "ERROR: Compilation timeout (30s)"] /\
     warnings v = [] /\ success v = false /\
     phase_reached v = Some "unknown") /\
  (run = FileNotFoundError ->
   exists v w',
     validate E self src w = (Ok v, w') /\
     errors v = [diagnostic ERROR "E-UNKNOWN"
                   "ERROR: Compiler not found. Run 'cargo build' first."] /\
     warnings v = [] /\ success v = false /\
     phase_reached v = Some "unknown").
Proof.
  intros n run. subst run n.
  split; intros Hr;
    unfold validate, bind, lift, ret, read_clock, _run_compiler;
    cbn [clock_reads compiled prompts]; rewrite Hr;
    (eexists; eexists; split; [reflexivity|]); repeat split; reflexivity.
Qed.

Lemma compiler_fault_is_one_unknown_error_witness :
  (exists v w',
     validate (with_run_result quiet TimeoutExpired) a_validator "src"
       initial_world = (Ok v, w') /\
     errors v = [diagnostic ERROR "E-UNKNOWN"
                   "ERROR: Compilation timeout (30s)"] /\
     warnings v = [] /\ success v = false /\
     phase_reached v = Some "unknown") /\
  (exists v w',
     validate (with_run_result quiet FileNotFoundError) a_validator "src"
       initial_world = (Ok v, w') /\
     errors v = [diagnostic ERROR "E-UNKNOWN"
                   "ERROR: Compiler not found. Run 'cargo build' first."] /\
     warnings v = [] /\ success v = false /\
     phase_reached v = Some "unknown").
Proof.
  split.
  - exact (proj1 (compiler_fault_is_one_unknown_error
                    (with_run_result quiet TimeoutExpired) a_validator "src"
                    initial_world) eq_refl).
  - exact (proj2 (compiler_fault_is_one_unknown_error
                    (with_run_result quiet FileNotFoundError) a_validator "src"
                    initial_world) eq_refl).
Defined.

(** ** The shape of a parsed line *)

Lemma span_sound p : forall s a b,
  PyStr.span p s = (a, b) ->
  s = a +++ b /\ Forall (fun x => p x = true) (list_ascii_of_string a).
Proof.
  induction s as [|c s IH]; intros a b; cbn [PyStr.span].
  - intros H; inversion H; subst. split; [reflexivity|constructor].
  - destruct (p c) eqn:Hc.
    + destruct (PyStr.span p s) as [a' b'] eqn:Hs.
      intros H; inversion H; subst. destruct (IH a' b eq_refl) as [-> HF].
      split; [reflexivity|]. cbn. constructor; assumption.
    + intros H; inversion H; subst. split; [reflexivity|constructor].
Qed.

Lemma span_complete p : forall a b,
  Forall (fun x => p x = true) (list_ascii_of_string a) ->
  match b with String c _ => p c = false | EmptyString => True end ->
  PyStr.span p (a +++ b) = (a, b).
Proof.
  induction a as [|c a IH]; intros b Ha Hb; cbn.
  - destruct b as [|c b]; [reflexivity|]. cbn. now rewrite Hb.
  - cbn in Ha. inversion Ha; subst. rewrite H1, (IH b H2 Hb). reflexivity.
Qed.

Lemma expect_sound c s r : expect c s = Some r -> s = String c r.
Proof.
  destruct s as [|c' s]; cbn; [discriminate|].
  destruct (Ascii.eqb c c') eqn:Hc; [|discriminate].
  apply Ascii.eqb_eq in Hc. intros H; inversion H; subst. reflexivity.
Qed.

Lemma truthy_nonempty s : PyStr.truthy s = true -> s <> "".
Proof. destruct s; [discriminate|discriminate]. Qed.

Lemma match_code_at_sound s g rest :
  match_code_at s = Some (g, rest) ->
  s = "[" +++ g +++ "]" +++ rest /\ well_formed_code g.
Proof.
  unfold match_code_at.
  destruct (expect "[" s) as [[|k s2]|] eqn:H1; try discriminate.
  apply expect_sound in H1.
  destruct (Ascii.eqb k "E" || Ascii.eqb k "W") eqn:Hk; [|discriminate].
  destruct (expect "-" s2) as [s3|] eqn:H2; [|discriminate].
  apply expect_sound in H2.
  destruct (PyStr.span PyStr.isupper_az s3) as [up s4] eqn:H3.
  destruct (PyStr.truthy up) eqn:Hup; [|discriminate].
  destruct (expect "-" s4) as [s5|] eqn:H4; [|discriminate].
  apply expect_sound in H4.
  destruct (PyStr.span PyStr.isdigit s5) as [ds s6] eqn:H5.
  destruct (PyStr.truthy ds) eqn:Hds; [|discriminate].
  destruct (expect "]" s6) as [s7|] eqn:H6; [|discriminate].
  apply expect_sound in H6.
  intros H; inversion H; subst g rest. clear H.
  apply span_sound in H3. destruct H3 as [-> Hu].
  apply span_sound in H5. destruct H5 as [-> Hd].
  split.
  - subst. cbn. rewrite !append_assoc_s. reflexivity.
  - exists k, up, ds. split; [reflexivity|].
    split.
    { apply orb_true_iff in Hk. destruct Hk as [Hk|Hk];
        apply Ascii.eqb_eq in Hk; auto. }
    auto using truthy_nonempty.
Qed.

Lemma nonempty_truthy s : s <> "" -> PyStr.truthy s = true.
Proof. destruct s; [congruence|reflexivity]. Qed.

Lemma match_code_at_complete c rest :
  well_formed_code c ->
  match_code_at ("[" +++ c +++ "]" +++ rest) = Some (c, rest).
Proof.
  intros (k & up & ds & -> & Hk & Hup & Hds & Hu & Hd).
  replace ("[" +++ String k ("-" +++ up +++ "-" +++ ds) +++ "]" +++ rest)
    with (String "[" (String k (String "-"
            (up +++ String "-" (ds +++ String "]" rest))))).
  2:{ cbn. rewrite ?append_assoc_s. cbn. rewrite ?append_assoc_s. reflexivity. }
  unfold match_code_at. cbn [expect]. rewrite !Ascii.eqb_refl.
  assert (Hkb : Ascii.eqb k "E" || Ascii.eqb k "W" = true).
  { destruct Hk as [-> | ->]; reflexivity. }
  rewrite Hkb. cbn [expect]. rewrite Ascii.eqb_refl.
  rewrite (span_complete PyStr.isupper_az up
             (String "-" (ds +++ String "]" rest)) Hu eq_refl).
  rewrite (nonempty_truthy up Hup). cbn [expect]. rewrite Ascii.eqb_refl.
  rewrite (span_complete PyStr.isdigit ds (String "]" rest) Hd eq_refl).
  rewrite (nonempty_truthy ds Hds). cbn [expect]. rewrite Ascii.eqb_refl.
  reflexivity.
Qed.

Lemma search_code_sound : forall s g rest,
  search_code s = Some (g, rest) ->
  exists pre, s = pre +++ "[" +++ g +++ "]" +++ rest /\ well_formed_code g.
Proof.
  induction s as [|c s IH]; intros g rest; cbn [search_code].
  - destruct (match_code_at "") as [[g' r']|] eqn:Hm; [|discriminate].
    intros H; inversion H; subst. apply match_code_at_sound in Hm.
    exists "". exact Hm.
  - destruct (match_code_at (String c s)) as [[g' r']|] eqn:Hm.
    + intros H; inversion H; subst. apply match_code_at_sound in Hm.
      exists "". exact Hm.
    + intros H. destruct (IH g rest H) as (pre & -> & Hw).
      exists (String c pre). split; [reflexivity|assumption].
Qed.

Lemma search_code_leftmost : forall s g rest,
  search_code s = Some (g, rest) ->
  exists pre,
    s = pre +++ "[" +++ g +++ "]" +++ rest /\ well_formed_code g /\
    forall pre' c' rest',
      well_formed_code c' -> s = pre' +++ "[" +++ c' +++ "]" +++ rest' ->
      (String.length pre <= String.length pre')%nat.
Proof.
  induction s as [|c s IH]; intros g rest; cbn [search_code].
  - destruct (match_code_at "") as [[g' r']|] eqn:Hm; [|discriminate].
    intros H; inversion H; subst. apply match_code_at_sound in Hm.
    exists "". destruct Hm as [Hm1 Hm2]. split; [exact Hm1|].
    split; [exact Hm2|]. intros. cbn. lia.
  - destruct (match_code_at (String c s)) as [[g' r']|] eqn:Hm.
    + intros H; inversion H; subst. apply match_code_at_sound in Hm.
      exists "". destruct Hm as [Hm1 Hm2]. split; [exact Hm1|].
    split; [exact Hm2|]. intros. cbn. lia.
    + intros H. destruct (IH g rest H) as (pre & -> & Hw & Hleft).
      exists (String c pre). split; [reflexivity|]. split; [assumption|].
      intros pre' c' rest' Hw' Heq. destruct pre' as [|x pre'].
      * change ("" +++ "[" +++ c' +++ "]" +++ rest')
          with ("[" +++ c' +++ "]" +++ rest') in Heq.
        rewrite Heq, (match_code_at_complete c' rest' Hw') in Hm.
        discriminate Hm.
      * cbn [String.append] in Heq. injection Heq as Hx Htail.
        cbn [String.length]. apply le_n_S.
        exact (Hleft pre' c' rest' Hw' Htail).
Qed.

Lemma search_code_complete pre c rest :
  well_formed_code c ->
  exists g r, search_code (pre +++ "[" +++ c +++ "]" +++ rest) = Some (g, r).
Proof.
  intros Hw. pose proof (match_code_at_complete c rest Hw) as Hm.
  induction pre as [|x pre IH].
  - change ("" +++ "[" +++ c +++ "]" +++ rest)
      with ("[" +++ c +++ "]" +++ rest).
    destruct ("[" +++ c +++ "]" +++ rest); cbn [search_code]; rewrite Hm; eauto.
  - cbn [String.append search_code].
    destruct (match_code_at (String x _)) as [[g r]|]; [eauto|exact IH].
Qed.

Lemma int_of_digits_acc_nonneg ds : forall acc,
  0 <= acc ->
  Forall (fun x => PyStr.isdigit x = true) (list_ascii_of_string ds) ->
  0 <= PyStr.int_of_digits_acc acc ds.
Proof.
  induction ds as [|c ds IH]; intros acc Hacc Hd;
    cbn [PyStr.int_of_digits_acc]; [assumption|].
  change (list_ascii_of_string (String c ds))
    with (c :: list_ascii_of_string ds) in Hd.
  inversion Hd; subst. apply IH; [|assumption].
  unfold PyStr.isdigit in H1. cbv zeta in H1. unfold PyStr.digit_value.
  apply andb_true_iff in H1. destruct H1 as [H1 _].
  apply Nat.leb_le in H1.
  assert (48 <= Z.of_nat (nat_of_ascii c)) by lia. lia.
Qed.

Lemma search_line_digits : forall s ds,
  search_line s = Some ds ->
  Forall (fun x => PyStr.isdigit x = true) (list_ascii_of_string ds).
Proof.
  assert (Hat : forall s ds, match_line_at s = Some ds ->
            Forall (fun x => PyStr.isdigit x = true) (list_ascii_of_string ds)).
  { intros s ds. unfold match_line_at.
    destruct (strip_prefix "line " s) as [r|]; [|discriminate].
    destruct (PyStr.span PyStr.isdigit r) as [a b] eqn:Hs.
    destruct (PyStr.truthy a); [|discriminate].
    intros H; inversion H; subst. apply span_sound in Hs. tauto. }
  induction s as [|c s IH]; intros ds; cbn [search_line].
  - destruct (match_line_at "") eqn:Hm; [|discriminate].
    intros H; inversion H; subst. eauto.
  - destruct (match_line_at (String c s)) eqn:Hm.
    + intros H; inversion H; subst. eauto.
    + apply IH.
Qed.

(** X5.  [_parse_error_line] never returns [None].  It raises
    [ValueError] exactly when the digits behind the first "line " of the
    line are more than [int] accepts; every other line becomes a
    diagnostic of the requested severity.  Its code is the first bracketed
    code of the shape letter E or W, dash, capitals, dash, digits, that
    the line holds, and the message is what follows the bracket, trimmed,
    without one leading colon; a line without such a code gets the code
    "E-UNKNOWN" and is its own message.  The line number is absent or the
    value of those digits, which is not negative, and the other fields are
    empty. *)
Theorem parse_error_line_shape l sev :
  match _parse_error_line l sev with
  | Raise e =>
      e = ValueError /\
      exists ds, search_line l = Some ds /\
                 (int_max_str_digits < String.length ds)%nat
  | Ok None => False
  | Ok (Some d) =>
      severity d = sev /\
      ((exists pre c rest,
          l = pre +++ "[" +++ c +++ "]" +++ rest /\ well_formed_code c /\
          (forall pre' c' rest',
             well_formed_code c' -> l = pre' +++ "[" +++ c' +++ "]" +++ rest' ->
             (String.length pre <= String.length pre')%nat) /\
          code d = VStr c /\
          (PyStr.startswith (PyStr.strip rest) ":" = false /\
           message d = VStr (PyStr.strip rest) \/
           exists m, PyStr.strip rest = ":" +++ m /\
                     message d = VStr (PyStr.strip m)))
       \/
       ((forall pre c rest, well_formed_code c ->
                            l <> pre +++ "[" +++ c +++ "]" +++ rest) /\
        code d = VStr "E-UNKNOWN" /\ message d = VStr l)) /\
      (search_line l = None /\ line d = VNone \/
       exists ds n,
         search_line l = Some ds /\
         (String.length ds <= int_max_str_digits)%nat /\
         Forall (fun x => PyStr.isdigit x = true) (list_ascii_of_string ds) /\
         n = PyStr.int_of_digits ds /\ line d = VInt n /\ 0 <= n) /\
      location d = VNone /\ column d = VNone /\ suggestion d = VNone /\
      auto_fix_confidence d = VNone
  end.
Proof.
  unfold _parse_error_line.
  assert (Hline :
    match (match search_line l with
           | Some ds => obind (int_ ds) (fun z => Ok (VInt z))
           | None => Ok VNone
           end) with
    | Raise e =>
        e = ValueError /\
        exists ds, search_line l = Some ds /\
                   (int_max_str_digits < String.length ds)%nat
    | Ok ln =>
        search_line l = None /\ ln = VNone \/
        exists ds n,
          search_line l = Some ds /\
          (String.length ds <= int_max_str_digits)%nat /\
          Forall (fun x => PyStr.isdigit x = true) (list_ascii_of_string ds) /\
          n = PyStr.int_of_digits ds /\ ln = VInt n /\ 0 <= n
    end).
  { destruct (search_line l) as [ds|] eqn:Hs; [|auto].
    destruct (Nat.le_gt_cases (String.length ds) int_max_str_digits)
      as [Hle|Hgt].
    - rewrite (int_fits ds Hle). cbn [obind]. right.
      pose proof (search_line_digits l ds Hs) as Hd.
      exists ds, (PyStr.int_of_digits ds).
      split; [reflexivity|]. split; [exact Hle|]. split; [exact Hd|].
      split; [reflexivity|]. split; [reflexivity|].
      apply int_of_digits_acc_nonneg; [lia|exact Hd].
    - rewrite (int_too_long ds Hgt). cbn [obind]. eauto. }
  destruct (match search_line l with
            | Some ds => obind (int_ ds) (fun z => Ok (VInt z))
            | None => Ok VNone
            end) as [ln|e]; cbn [obind]; [|exact Hline].
  cbn [severity code message line location column suggestion
       auto_fix_confidence].
  split; [reflexivity|]. split; [|split; [exact Hline|repeat split; reflexivity]].
  unfold message_of.
  destruct (search_code l) as [[g rest]|] eqn:Hs.
  - left. destruct (search_code_leftmost l g rest Hs) as (pre & Hl & Hw & Hm).
    exists pre, g, rest. split; [exact Hl|]. split; [exact Hw|].
    split; [exact Hm|]. split; [reflexivity|].
    destruct (strip_prefix ":" (PyStr.strip rest)) as [m|] eqn:Hc.
    + right. exists m. split; [|reflexivity].
      exact (HarnessProofs.strip_prefix_sound _ _ _ Hc).
    + left. split; [|reflexivity]. unfold PyStr.startswith.
      destruct (String.prefix ":" (PyStr.strip rest)) eqn:Hp; [|reflexivity].
      apply HarnessProofs.strip_prefix_prefix in Hp as [r Hr]. congruence.
  - right. repeat split; auto.
    intros pre c rest Hw ->.
    destruct (search_code_complete pre c rest Hw) as (g & r & Hg).
    congruence.
Qed.

(** ** Structured records *)

(** X6.  When the structured path returns, the decoded document was an
    object or a sequence of objects and every record became exactly one
    diagnostic: errors and warnings together are as many as the records. *)
Theorem structured_records_all_reported data errs warns :
  _parse_json_output data = Ok (errs, warns) ->
  exists items,
    iter (match data with VDict _ => VList [data] | _ => data end) = Ok items /\
    Forall (fun item => exists d, item = VDict d) items /\
    (length errs + length warns = length items)%nat.
Proof.
  unfold _parse_json_output.
  destruct (iter _) as [items|] eqn:Hit; cbn [obind]; [|discriminate].
  intros H. apply json_items_inv in H. destruct H as (recs & HF & He & Hw).
  cbn [app] in He, Hw. subst errs warns.
  exists items. split; [reflexivity|]. split.
  - clear Hit. induction HF as [|item rec items recs Hr _ IH]; constructor; auto.
    unfold record_of in Hr. destruct item; try discriminate Hr. eauto.
  - rewrite (Forall2_length HF). clear.
    induction recs as [|r recs IH]; cbn; [reflexivity|].
    destruct (is_error r); cbn; lia.
Qed.

Lemma structured_records_all_reported_witness :
  exists items,
    iter three_records = Ok items /\
    Forall (fun item => exists d, item = VDict d) items /\
    (length [record_2] + length [record_1; record_3] = length items)%nat.
Proof.
  exact (structured_records_all_reported three_records
           [record_2] [record_1; record_3] eq_refl).
Defined.

(** ** Suggested fixes *)

(** X7.  [validate_and_suggest_fixes] never suggests anything: whenever it
    returns, the second component is [None] and the first is the result of
    [validate] on the same source. *)
Theorem no_fix_is_ever_suggested ft fg E self src w r fixed w' :
  validate_and_suggest_fixes ft fg E self src w = (Ok (r, fixed), w') ->
  fixed = None /\ validate E self src w = (Ok r, w').
Proof.
  unfold validate_and_suggest_fixes, bind.
  destruct (validate E self src w) as [[v|e] w1]; [|discriminate].
  destruct (success v).
  - unfold ret. intros H; inversion H; subst. auto.
  - unfold lift. destruct (has_fixable_errors ft fg v) as [b|]; [|discriminate].
    destruct b; cbn [negb]; unfold ret, _apply_auto_fixes;
      intros H; inversion H; subst; auto.
Qed.

Lemma no_fix_is_ever_suggested_witness :
  exists r w',
    validate_and_suggest_fixes (fun _ => true) (fun _ => true)
      (with_process quiet scenario1) a_validator "src" initial_world
    = (Ok (r, None), w') /\
    success r = false /\
    validate (with_process quiet scenario1) a_validator "src" initial_world
    = (Ok r, w').
Proof.
  destruct (validate_and_suggest_fixes (fun _ => true) (fun _ => true)
              (with_process quiet scenario1) a_validator "src" initial_world)
    as [[[r fixed]|e] w'] eqn:H; [|vm_compute in H; discriminate H].
  destruct (no_fix_is_ever_suggested _ _ _ _ _ _ _ _ _ H) as [-> Hv].
  exists r, w'. split; [reflexivity|]. split; [|exact Hv].
  vm_compute in H. injection H as <- <-. reflexivity.
Defined.

Lemma run_compiler_text_only E self src w result w' :
  text_only_compiler E ->
  _run_compiler E self src w = (Ok result, w') ->
  looks_structured (combined_output result) = false.
Proof.
  intros Ht. unfold _run_compiler.
  destruct (subprocess_run E _ _ src) as [p| | |e] eqn:Hr;
    intros H; inversion H; subst;
    [exact (Ht _ _ _ _ Hr)|reflexivity|reflexivity].
Qed.

Lemma parse_text_output_no_confidence p errs warns :
  parse_text_output p = Ok (errs, warns) -> Forall no_confidence errs.
Proof.
  intros H. pose proof (parse_text_output_cases p) as Hc. rewrite H in Hc.
  destruct Hc as (de & Ht & ->). unfold text_lines in Ht.
  pose proof (text_lines_from_cases
                (PyStr.split_lines (combined_output p)) [] []) as Hf.
  rewrite Ht in Hf. destruct Hf as (de' & dw & -> & _ & Hde & _).
  cbn [app]. destruct de' as [|e de'].
  - destruct (negb (returncode p =? 0)); repeat constructor.
  - clear -Hde. induction Hde as [|l d ls ds (_ & _ & _ & Hn) _ IH];
      constructor; assumption.
Qed.

(** X8.  With a compiler run that ends in one of the three ways
    [_run_compiler] knows and prints plain text whose line numbers [int]
    accepts, no diagnostic carries a fix confidence, and
    [validate_and_suggest_fixes] returns: the result of [validate], and no
    fix. *)
Theorem suggest_fixes_returns_on_text ft fg E self src w :
  text_only_compiler E -> dependable_compiler E ->
  exists r w',
    validate_and_suggest_fixes ft fg E self src w = (Ok (r, None), w') /\
    validate E self src w = (Ok r, w') /\
    has_fixable_errors ft fg r = Ok false.
Proof.
  intros Ht Hd. destruct (validate_returns E self src w Ht Hd) as (v & w' & Hv).
  exists v, w'.
  assert (Hfix : has_fixable_errors ft fg v = Ok false).
  { destruct (validate_inv _ _ _ _ _ _ Hv)
      as (result & errs & warns & ph & Hrun & Hparse & _ & _ & He & _).
    apply run_compiler_text_only in Hrun; [|assumption].
    rewrite (parse_text_path E result Hrun) in Hparse.
    pose proof (parse_text_output_no_confidence result _ _ Hparse) as Hn.
    unfold has_fixable_errors. rewrite He. clear -Hn.
    induction Hn as [|e l He _ IH]; cbn [any_lazy]; [reflexivity|].
    rewrite He. cbn [confident]. exact IH. }
  split; [|split; assumption].
  unfold validate_and_suggest_fixes, bind. rewrite Hv.
  destruct (success v); [reflexivity|].
  unfold lift. rewrite Hfix. reflexivity.
Qed.

Lemma scenario1_is_text_only : text_only_compiler (with_process quiet scenario1).
Proof. intros n cmd src p H. inversion H. reflexivity. Qed.

Lemma scenario1_is_dependable : dependable_compiler (with_process quiet scenario1).
Proof. intros n cmd src. cbn [subprocess_run with_process]. fits. Qed.

Lemma suggest_fixes_returns_on_text_witness :
  exists r w',
    validate_and_suggest_fixes (fun _ => true) (fun _ => true)
      (with_process quiet scenario1) a_validator "src" initial_world
    = (Ok (r, None), w') /\
    validate (with_process quiet scenario1) a_validator "src" initial_world
    = (Ok r, w') /\
    has_fixable_errors (fun _ => true) (fun _ => true) r = Ok false.
Proof.
  exact (suggest_fixes_returns_on_text (fun _ => true) (fun _ => true)
           (with_process quiet scenario1) a_validator "src" initial_world
           scenario1_is_text_only scenario1_is_dependable).
Defined.

End ValidatorExtras.

(* ===================================================================== *)
(** * Further properties of the selector *)
(* ===================================================================== *)

Module SelectorExtras.
Import Selector SelectorProofs.

(** ** What the greedy loop keeps *)

Lemma sorted_remove_middle {A} (R : A -> A -> Prop) (a : list A) x b :
  StronglySorted R (a ++ x :: b) -> StronglySorted R (a ++ b).
Proof.
  induction a as [|y a IH]; cbn; intros H; inversion H; subst.
  - assumption.
  - constructor; [auto|].
    rewrite Forall_app in *. destruct H3 as [Ha Hb]. inversion Hb; auto.
Qed.

Lemma sorted_prefix {A} (R : A -> A -> Prop) (a b : list A) :
  StronglySorted R (a ++ b) -> StronglySorted R a.
Proof.
  induction a as [|y a IH]; cbn; intros H; [constructor|].
  inversion H; subst. constructor; [auto|].
  rewrite Forall_app in H3. tauto.
Qed.

Lemma take_within_sorted (R : Example -> Example -> Prop) mt me l :
  forall sel tot,
    StronglySorted R (sel ++ map snd l) ->
    StronglySorted R (take_within mt me l sel tot).
Proof.
  induction l as [|[sc ex] l IH]; intros sel tot H; cbn [take_within map] in *.
  - now rewrite app_nil_r in H.
  - destruct (_ >=? _); [exact (sorted_prefix R _ _ H)|].
    destruct (_ <=? _).
    + apply IH. now rewrite <- app_assoc.
    + apply IH. exact (sorted_remove_middle R _ _ _ H).
Qed.

Lemma take_within_incl mt me l : forall sel tot,
  incl (take_within mt me l sel tot) (sel ++ map snd l).
Proof.
  induction l as [|[sc ex] l IH]; intros sel tot; cbn [take_within map].
  - rewrite app_nil_r. apply incl_refl.
  - destruct (_ >=? _); [apply incl_appl, incl_refl|].
    destruct (_ <=? _).
    + intros x Hx. apply IH in Hx. now rewrite <- app_assoc in Hx.
    + intros x Hx. apply IH in Hx. apply in_app_or in Hx.
      apply in_or_app. cbn. tauto.
Qed.

Lemma take_within_nodup mt me l : forall sel tot,
  NoDup (sel ++ map snd l) -> NoDup (take_within mt me l sel tot).
Proof.
  induction l as [|[sc ex] l IH]; intros sel tot H; cbn [take_within map] in *.
  - now rewrite app_nil_r in H.
  - destruct (_ >=? _); [exact (NoDup_app_remove_r _ _ H)|].
    destruct (_ <=? _).
    + apply IH. now rewrite <- app_assoc.
    + apply IH. exact (NoDup_remove_1 _ _ _ H).
Qed.

(** The candidates, without their scores, are the catalog entries of
    positive score. *)
Lemma candidates_perm self t :
  Permutation (map snd (sort_desc (score_all self t)))
              (filter (fun ex => _score_example ex t >? 0) (examples self)).
Proof.
  rewrite sort_desc_perm, score_all_filter.
  induction (examples self) as [|ex l IH]; cbn; [constructor|].
  destruct (_score_example ex t >? 0); cbn; [constructor|]; exact IH.
Qed.

Lemma candidates_scored self t :
  Forall (fun p => fst p = _score_example (snd p) t)
         (sort_desc (score_all self t)).
Proof.
  rewrite Forall_forall. intros p Hp.
  apply (Permutation_in _ (sort_desc_perm _)) in Hp.
  rewrite score_all_filter in Hp. apply filter_In in Hp. destruct Hp as [Hp _].
  apply in_map_iff in Hp. destruct Hp as (ex & <- & _). reflexivity.
Qed.

(** X9.  Whatever the budget and the limit, [select] returns catalog
    entries of positive score, in the order of descending score, and none
    of them twice when the catalog lists none twice. *)
Theorem select_returns_ranked_catalog_entries self t max_tokens max_examples :
  let result := select self t max_tokens max_examples in
  (forall ex, In ex result ->
              In ex (examples self) /\ 0 < _score_example ex t) /\
  StronglySorted (fun a b => _score_example b t <= _score_example a t) result /\
  (NoDup (examples self) -> NoDup result).
Proof.
  intros result. subst result. unfold select.
  set (scored := sort_desc (score_all self t)).
  split; [|split].
  - intros ex Hin. apply take_within_incl in Hin. cbn [app] in Hin.
    apply (Permutation_in _ (candidates_perm self t)) in Hin.
    apply filter_In in Hin. destruct Hin as [Hin Hs]. split; [assumption|lia].
  - apply take_within_sorted. cbn [app].
    pose proof (sort_desc_sorted (score_all self t)) as Hs.
    pose proof (candidates_scored self t) as Hc. fold scored in Hs, Hc.
    induction Hs as [|p l Hs IH Hall]; cbn [map]; constructor.
    + apply IH. inversion Hc; assumption.
    + inversion Hc as [|? ? Hp Hl]; subst. clear IH Hs Hc.
      rewrite Forall_forall in *. intros ex Hex.
      apply in_map_iff in Hex. destruct Hex as (q & <- & Hq).
      specialize (Hall q Hq). specialize (Hl q Hq). cbn in Hl.
      unfold by_score_desc in Hall. lia.
  - intros Hnd. apply take_within_nodup. cbn [app].
    apply (Permutation_NoDup (Permutation_sym (candidates_perm self t))).
    apply NoDup_filter. assumption.
Qed.

Lemma EXAMPLES_nodup : NoDup EXAMPLES.
Proof.
  apply (NoDup_map_inv path). cbn.
  repeat (constructor; [cbn; intuition discriminate|]). constructor.
Qed.

Lemma select_returns_ranked_catalog_entries_witness :
  NoDup (select (new_selector "examples") CRUD_OPERATION 1500 3) /\
  forall ex, In ex (select (new_selector "examples") CRUD_OPERATION 1500 3) ->
             In ex EXAMPLES /\ 0 < _score_example ex CRUD_OPERATION.
Proof.
  pose proof (select_returns_ranked_catalog_entries
                (new_selector "examples") CRUD_OPERATION 1500 3) as T.
  cbv zeta in T. destruct T as (Hin & _ & Hnd).
  split; [exact (Hnd EXAMPLES_nodup)|exact Hin].
Defined.

(** ** The first choice *)

(** X10.  With a limit of at least one example, the first example selected
    is the best-ranked candidate that fits the budget on its own; the
    selection is empty only when no candidate fits. *)
Theorem select_first_is_best_fitting self t max_tokens max_examples :
  0 < max_examples ->
  hd_error (select self t max_tokens max_examples)
  = option_map snd
      (find (fun p => approx_tokens (snd p) <=? max_tokens)
            (sort_desc (score_all self t))).
Proof.
  intros Hme. unfold select.
  induction (sort_desc (score_all self t)) as [|[sc ex] l IH];
    cbn [take_within find snd]; [reflexivity|].
  replace (Z.of_nat (length (@nil Example)) >=? max_examples) with false
    by (cbn; lia).
  change (0 + approx_tokens ex) with (approx_tokens ex).
  destruct (approx_tokens ex <=? max_tokens); [|exact IH].
  destruct (take_within_extends max_tokens max_examples l ([] ++ [ex])
              (approx_tokens ex)) as [more ->].
  reflexivity.
Qed.

Lemma select_first_is_best_fitting_witness :
  hd_error (select (new_selector "examples") ERROR_HANDLING 700 3)
  = option_map snd
      (find (fun p => approx_tokens (snd p) <=? 700)
            (sort_desc (score_all (new_selector "examples") ERROR_HANDLING))).
Proof.
  apply select_first_is_best_fitting. lia.
Defined.

(** ** Candidates *)

Lemma related_bonus_nonneg related cats : forall sc,
  sc <= fold_left (fun s cat => if mem cat related then s + 10 else s) cats sc.
Proof.
  induction cats as [|c cats IH]; intros sc; cbn [fold_left]; [lia|].
  destruct (mem c related).
  - specialize (IH (sc + 10)). lia.
  - apply IH.
Qed.

Lemma score_at_least_priority ex t : priority ex * 2 <= _score_example ex t.
Proof.
  unfold _score_example.
  set (s0 := if mem t (categories ex) then 0 + 50 else 0).
  assert (H0 : 0 <= s0) by (subst s0; destruct (mem _ _); lia).
  pose proof (related_bonus_nonneg (_get_related_categories t)
                (categories ex) s0) as H1.
  destruct (approx_tokens ex <? 500); lia.
Qed.

(** X11.  The score is never below twice the priority, so in a catalog
    whose priorities are positive the filter on positive scores removes
    nothing: for every task type all entries are candidates. *)
Theorem positive_priorities_keep_all_candidates self t :
  Forall (fun ex => 0 < priority ex) (examples self) ->
  Permutation (map snd (sort_desc (score_all self t))) (examples self).
Proof.
  intros Hp. rewrite candidates_perm.
  induction Hp as [|ex l Hex _ IH]; cbn [filter]; [constructor|].
  pose proof (score_at_least_priority ex t) as Hs.
  replace (_score_example ex t >? 0) with true by lia.
  constructor. exact IH.
Qed.

Lemma positive_priorities_keep_all_candidates_witness :
  Permutation
    (map snd (sort_desc (score_all (new_selector "examples") GENERAL)))
    EXAMPLES.
Proof.
  apply (positive_priorities_keep_all_candidates (new_selector "examples")).
  repeat constructor.
Defined.

End SelectorExtras.

(* ===================================================================== *)
(** * Properties of task-type inference and example rendering *)
(* ===================================================================== *)

Module CatalogProofs.
Import Py Validator Selector Harness Scenario2 Catalog.

(** ** [get_recommended_for_task] *)

(** X12.  The inferred task type is never the effectful-function type and
    never the refactoring type: no rule names them. *)
Theorem inference_never_effectful_or_refactoring desc :
  get_recommended_for_task desc <> EFFECTFUL_FUNCTION /\
  get_recommended_for_task desc <> REFACTORING.
Proof.
  unfold get_recommended_for_task.
  repeat match goal with
         | |- context [if ?b then _ else _] => destruct b
         end; split; discriminate.
Qed.

(** X13.  The inferred task type is the general one exactly when none of
    the keywords of the nine rules occurs in the lower-cased description. *)
Theorem inference_general_iff_no_keyword desc :
  get_recommended_for_task desc = GENERAL <->
  any_keyword all_keywords (PyStr.lower desc) = false.
Proof.
  unfold get_recommended_for_task, all_keywords, any_keyword.
  rewrite !existsb_app.
  repeat match goal with
         | |- context [existsb ?f ?l] =>
             let b := fresh "b" in
             remember (existsb f l) as b; destruct b
         end; cbn [orb];
    try (split; [discriminate|discriminate]);
    try (split; reflexivity).
  all: destruct (_ || _); split; discriminate.
Qed.

Lemma lower_char_idempotent c :
  PyStr.lower_char (PyStr.lower_char c) = PyStr.lower_char c.
Proof. destruct c as [[] [] [] [] [] [] [] []]; reflexivity. Qed.

Lemma lower_idempotent s : PyStr.lower (PyStr.lower s) = PyStr.lower s.
Proof.
  induction s as [|c s IH]; cbn [PyStr.lower]; [reflexivity|].
  now rewrite lower_char_idempotent, IH.
Qed.

(** X14.  Inference does not look at letter case: a description and its
    lower-cased form get the same task type. *)
Theorem inference_ignores_case desc :
  get_recommended_for_task (PyStr.lower desc) = get_recommended_for_task desc.
Proof.
  unfold get_recommended_for_task. now rewrite lower_idempotent.
Qed.

(** ** [load_examples] *)

Lemma example_sections_outcome F self selected : forall i output,
  match example_sections F self i selected output with
  | Ok out => exists more, out = output ++ more /\
                           length more = (2 * length selected)%nat
  | Raise e =>
      exists ex, In ex selected /\
                 read_text F (joinpath F (examples_dir self) (path ex))
                 = ReadFault e
  end.
Proof.
  induction selected as [|ex rest IH]; intros i output;
    cbn [example_sections].
  - exists []. now rewrite app_nil_r.
  - unfold example_section at 1.
    destruct (read_text F (joinpath F (examples_dir self) (path ex)))
      as [content| |e] eqn:Hr; cbn [obind].
    + specialize (IH (S i) (output ++
        [example_heading i ex;
         "```covenant" +++ PyStr.nl +++ content +++ PyStr.nl +++ "```"
         +++ PyStr.nl])).
      destruct (example_sections F self (S i) rest _) as [out|e].
      * destruct IH as (more & -> & Hl). eexists.
        rewrite <- app_assoc. split; [reflexivity|].
        rewrite length_app, Hl. cbn. lia.
      * destruct IH as (ex' & Hin & Hf). exists ex'. cbn. auto.
    + specialize (IH (S i) (output ++
        [example_heading i ex;
         "(File not found: " +++ joinpath F (examples_dir self) (path ex)
         +++ ")" +++ PyStr.nl])).
      destruct (example_sections F self (S i) rest _) as [out|e].
      * destruct IH as (more & -> & Hl). eexists.
        rewrite <- app_assoc. split; [reflexivity|].
        rewrite length_app, Hl. cbn. lia.
      * destruct IH as (ex' & Hin & Hf). exists ex'. cbn. auto.
    + exists ex. cbn. auto.
Qed.

Lemma load_examples_returns F self selected :
  no_read_fault F -> exists text_, load_examples F self selected = Ok text_.
Proof.
  intros Hn. unfold load_examples.
  pose proof (example_sections_outcome F self selected 1 [examples_header])
    as Ho.
  destruct (example_sections F self 1 selected [examples_header]) as [out|e];
    cbn [obind]; [eauto|].
  destruct Ho as (ex & _ & Hf). destruct (Hn _ _ Hf).
Qed.

Lemma one_file_no_read_fault : no_read_fault one_file.
Proof.
  intros p e. unfold one_file. cbn [read_text].
  destruct (String.eqb p _); discriminate.
Qed.

Lemma concat_head sep x more :
  String.prefix x (String.concat sep (x :: more)) = true.
Proof.
  destruct more as [|y more]; cbn [String.concat].
  - induction x as [|c x IH]; cbn [String.prefix]; [reflexivity|].
    destruct (Ascii.ascii_dec c c); [exact IH|congruence].
  - apply HarnessProofs.prefix_append.
Qed.

(** X15.  [load_examples] fails only when reading an example ends with a
    fault other than a missing file, which it passes on; a missing file
    costs nothing but a note.  Otherwise it returns a document that starts
    with the header line, followed by two entries per selected example. *)
Theorem load_examples_outcome F self selected :
  match load_examples F self selected with
  | Ok text_ =>
      exists entries,
        text_ = String.concat PyStr.nl (examples_header :: entries) /\
        length entries = (2 * length selected)%nat /\
        String.prefix examples_header text_ = true
  | Raise e =>
      exists ex, In ex selected /\
                 read_text F (joinpath F (examples_dir self) (path ex))
                 = ReadFault e
  end.
Proof.
  unfold load_examples.
  pose proof (example_sections_outcome F self selected 1 [examples_header])
    as H.
  destruct (example_sections F self 1 selected [examples_header])
    as [out|e]; cbn [obind]; [|exact H].
  destruct H as (more & -> & Hl). exists more. cbn [app].
  split; [reflexivity|]. split; [exact Hl|]. apply concat_head.
Qed.

(** ** Rendering and extraction *)

Lemma contains_cons sub c s :
  PyStr.contains sub (String c s)
  = if String.prefix sub (String c s) then true else PyStr.contains sub s.
Proof. reflexivity. Qed.

Lemma no_backtick_cons c s :
  no_backtick (String c s) <-> c <> "`"%char /\ no_backtick s.
Proof.
  unfold no_backtick. rewrite contains_cons. cbn [String.prefix].
  destruct (Ascii.ascii_dec "`" c) as [<-|Hne].
  - destruct s; split; try discriminate; intros [H _]; congruence.
  - split; [intros H; split; [congruence|exact H]|tauto].
Qed.

Lemma no_backtick_app a b :
  no_backtick a -> no_backtick b -> no_backtick (a +++ b).
Proof.
  induction a as [|c a IH]; intros Ha Hb; [exact Hb|].
  apply no_backtick_cons in Ha. destruct Ha as [Hc Ha].
  cbn [String.append]. apply no_backtick_cons. auto.
Qed.

Lemma no_backtick_no_fence_start s : no_backtick s -> no_fence_start s.
Proof.
  unfold no_fence_start. induction s as [|c s IH]; intros H; [reflexivity|].
  apply no_backtick_cons in H. destruct H as [Hc Hs].
  cbn [String.append]. rewrite contains_cons, (IH Hs).
  unfold fence. cbn [String.prefix].
  destruct (Ascii.ascii_dec "`" c); [congruence|reflexivity].
Qed.

Lemma rstrip_line_feed s : PyStr.rstrip (s +++ PyStr.nl) = PyStr.rstrip s.
Proof.
  induction s as [|c s IH]; [reflexivity|].
  cbn [String.append PyStr.rstrip]. now rewrite IH.
Qed.

Lemma lstrip_line_feed s :
  PyStr.lstrip (s +++ PyStr.nl) = PyStr.lstrip s +++ PyStr.nl \/
  (PyStr.lstrip (s +++ PyStr.nl) = "" /\ PyStr.lstrip s = "").
Proof.
  induction s as [|c s IH]; [right; split; reflexivity|].
  cbn [String.append PyStr.lstrip]. destruct (PyStr.isspace c); [exact IH|].
  left. reflexivity.
Qed.

Lemma strip_line_feed s : PyStr.strip (s +++ PyStr.nl) = PyStr.strip s.
Proof.
  unfold PyStr.strip. destruct (lstrip_line_feed s) as [-> | [-> ->]].
  - apply rstrip_line_feed.
  - reflexivity.
Qed.

(** What the harness takes from a reply whose first fence opens a block
    tagged [covenant]. *)
Lemma reply_code_of_covenant_block pre body rest :
  no_fence_start pre -> no_fence_start body ->
  reply_code (pre +++ fence +++ "covenant" +++ PyStr.nl +++ body +++ fence
              +++ rest)
  = PyStr.strip body.
Proof.
  intros Hpre Hbody. unfold reply_code.
  change (PyStr.contains "```") with (PyStr.contains fence).
  rewrite HarnessProofs.contains_fence. unfold _extract_code_from_markdown.
  rewrite (HarnessProofs.first_block_skips pre _ Hpre).
  pose proof (HarnessProofs.match_block_at_fence "covenant" body rest
                (or_intror eq_refl) Hbody) as Hm.
  destruct (fence +++ "covenant" +++ PyStr.nl +++ body +++ fence +++ rest);
    cbn [first_block]; rewrite Hm; reflexivity.
Qed.

(** X16.  What [load_examples] renders, the harness reads back: for one
    example whose file is there, and whose title and contents hold no
    back-tick, the code extracted from the rendered document is the
    trimmed contents of the file. *)
Theorem rendered_example_is_extracted_back F self ex content :
  read_text F (joinpath F (examples_dir self) (path ex)) = Content content ->
  no_backtick (title ex) -> no_backtick content ->
  exists text_,
    Catalog.load_examples F self [ex] = Ok text_ /\
    reply_code text_ = PyStr.strip content.
Proof.
  intros Hr Ht Hc. unfold Catalog.load_examples.
  cbn [example_sections]. unfold example_section. rewrite Hr.
  cbn [obind app String.concat]. eexists. split; [reflexivity|].
  rewrite <- (strip_line_feed content).
  set (pre := examples_header +++ PyStr.nl +++ example_heading 1 ex
              +++ PyStr.nl).
  replace (examples_header +++ PyStr.nl +++ example_heading 1 ex +++ PyStr.nl
           +++ "```covenant" +++ PyStr.nl +++ content +++ PyStr.nl +++ "```"
           +++ PyStr.nl)
    with (pre +++ fence +++ "covenant" +++ PyStr.nl +++ (content +++ PyStr.nl)
          +++ fence +++ PyStr.nl).
  2:{ subst pre. rewrite !HarnessProofs.append_assoc. reflexivity. }
  apply reply_code_of_covenant_block.
  - apply no_backtick_no_fence_start. subst pre.
    unfold example_heading.
    repeat (apply no_backtick_app; [try reflexivity|]); try reflexivity;
      exact Ht.
  - apply no_backtick_no_fence_start, no_backtick_app; [exact Hc|reflexivity].
Qed.

Lemma rendered_example_is_extracted_back_witness :
  exists text_,
    Catalog.load_examples one_file (new_selector "examples")
      [pure_functions_example] = Ok text_ /\
    reply_code text_ = "snippet id=add" +++ PyStr.nl +++ "end".
Proof.
  exact (rendered_example_is_extracted_back one_file (new_selector "examples")
           pure_functions_example ("snippet id=add" +++ PyStr.nl +++ "end")
           eq_refl eq_refl eq_refl).
Defined.

End CatalogProofs.

(* ===================================================================== *)
(** * Further properties of the harness *)
(* ===================================================================== *)

Module HarnessExtras.
Import Py Validator Selector Harness Scenario Scenario2 Rounds HarnessProofs.

(** ** One attempt *)

Lemma read_clock_inv E w q w' :
  read_clock E w = (Ok q, w') ->
  prompts w' = prompts w /\ compiled w' = compiled w.
Proof. unfold read_clock. intros H; inversion H; auto. Qed.

Lemma call_llm_inv E self prompt w r w' :
  _call_llm E self prompt w = (Ok r, w') ->
  prompts w' = prompts w ++ [prompt] /\ compiled w' = compiled w /\
  model_provider self <> OPENAI /\
  (model_provider self = MOCK -> r = (mock_code, 100, 50)).
Proof.
  unfold _call_llm, bind, log_prompt, lift, ret, throw. cbn [prompts].
  destruct (model_provider self).
  - destruct (messages_create E _ _ _) as [[[reply i] o]|]; [|discriminate].
    intros H; inversion H; cbn. repeat split; auto; discriminate.
  - discriminate.
  - intros H; inversion H; cbn. repeat split; auto; discriminate.
Qed.

Lemma validate_validated E self src w v w' :
  validate E self src w = (Ok v, w') ->
  source_code v = src /\ (success v = true <-> errors v = []) /\
  prompts w' = prompts w /\ compiled w' = compiled w ++ [src].
Proof.
  intros H. pose proof (ValidatorExtras.success_iff_no_errors _ _ _ _ _ _ H).
  apply ValidatorExtras.validate_inv in H.
  destruct H as (r & errs & warns & ph & _ & _ & _ & _ & _ & _ & Hs & _ & Hc & Hp).
  auto.
Qed.

(** What a returning attempt did, given the outcome of its prompt
    builder. *)
Lemma attempt_inv E self (build : outcome string) n w a w'
  (run : M GenerationAttempt) :
  run = (fun w0 =>
    bind (lift build) (fun prompt =>
    bind (read_clock E) (fun start =>
    bind (_call_llm E self prompt) (fun '(code_, ptoks, ctoks) =>
    bind (read_clock E) (fun stop =>
    bind (validate E (validator self) code_) (fun validation =>
    ret {| attempt_number := n;
           prompt_tokens := ptoks;
           completion_tokens := ctoks;
           generated_code := code_;
           duration_ms := ((stop - start) * 1000)%Q;
           validation_result := Some validation |}))))) w0) ->
  run w = (Ok a, w') ->
  attempt_number a = n /\ validated a /\
  model_provider self <> OPENAI /\
  (model_provider self = MOCK -> mock_attempt a) /\
  exists p, build = Ok p /\
            prompts w' = prompts w ++ [p] /\
            compiled w' = compiled w ++ [generated_code a].
Proof.
  intros -> H.
  step H prompt w1 H1. apply lift_ok in H1 as [Hb ->].
  step H start w2 H2. apply read_clock_inv in H2 as [Hp2 Hc2].
  step H reply w3 H3. destruct reply as [[c pt] ct].
  apply call_llm_inv in H3 as (Hp3 & Hc3 & Hno & Hmock).
  step H stop w4 H4. apply read_clock_inv in H4 as [Hp4 Hc4].
  step H v w5 H5. apply validate_validated in H5 as (Hsrc & Hiff & Hp5 & Hc5).
  apply ret_ok in H as [-> ->]. cbn.
  split; [reflexivity|]. split.
  { exists v. cbn. auto. }
  split; [exact Hno|]. split.
  { intros Hm. specialize (Hmock Hm). inversion Hmock; subst.
    repeat split. }
  exists prompt. split; [exact Hb|]. split; congruence.
Qed.

Lemma generate_attempt_inv E self task ex n w a w' :
  _generate_attempt E self task ex n w = (Ok a, w') ->
  attempt_number a = n /\ validated a /\
  model_provider self <> OPENAI /\
  (model_provider self = MOCK -> mock_attempt a) /\
  exists p, _build_initial_prompt (text self) task (spec self) ex = Ok p /\
            prompts w' = prompts w ++ [p] /\
            compiled w' = compiled w ++ [generated_code a].
Proof. apply (attempt_inv E self _ n w a w'). reflexivity. Qed.

Lemma generate_correction_inv E self task n code_ errs w a w' :
  _generate_correction E self task n code_ errs w = (Ok a, w') ->
  attempt_number a = n /\ validated a /\
  model_provider self <> OPENAI /\
  (model_provider self = MOCK -> mock_attempt a) /\
  exists p, _build_correction_prompt (text self) task code_ errs = Ok p /\
            prompts w' = prompts w ++ [p] /\
            compiled w' = compiled w ++ [generated_code a].
Proof. apply (attempt_inv E self _ n w a w'). reflexivity. Qed.

(** ** The loop *)

Lemma last_cons {A} (x : A) l d : last (x :: l) d = last l x.
Proof.
  revert x d. induction l as [|y l IH]; intros x d; [reflexivity|].
  change (last (x :: y :: l) d) with (last (y :: l) d).
  rewrite !IH. reflexivity.
Qed.

Lemma correction_rounds_detail E self task rounds : forall st a w st' w',
  correction_rounds E self task rounds st w = (Ok st', w') ->
  at_attempt st a ->
  exists more ps,
    ls_attempts st' = ls_attempts st ++ more /\
    prompts w' = prompts w ++ ps /\
    compiled w' = compiled w ++ map generated_code more /\
    follow_up (text self) task a more ps /\
    Forall validated more /\
    at_attempt st' (last more a) /\
    (ls_final_success st' = false -> length more = length rounds) /\
    (ls_final_success st = true -> more = []) /\
    (model_provider self = MOCK -> Forall mock_attempt more).
Proof.
  induction rounds as [|n rounds IH]; intros st a w st' w' H Hat;
    cbn [correction_rounds] in H.
  - apply ret_ok in H as [-> ->]. exists [], [].
    rewrite !app_nil_r. cbn [map last follow_up length].
    split; [reflexivity|]. split; [reflexivity|]. split; [reflexivity|].
    split; [exact I|]. split; [constructor|]. split; [exact Hat|].
    split; [reflexivity|]. split; [reflexivity|]. intros _. constructor.
  - destruct Hat as (Hpre & Hcode & Hval & Hfin & Hvalid).
    destruct Hvalid as (v & Hv & Hsrc & Hiff).
    assert (Hstop : ls_final_success st = true -> st' = st /\ w' = w ->
              exists more ps,
                ls_attempts st' = ls_attempts st ++ more /\
                prompts w' = prompts w ++ ps /\
                compiled w' = compiled w ++ map generated_code more /\
                follow_up (text self) task a more ps /\
                Forall validated more /\
                at_attempt st' (last more a) /\
                (ls_final_success st' = false ->
                 length more = length (n :: rounds)) /\
                (ls_final_success st = true -> more = []) /\
                (model_provider self = MOCK -> Forall mock_attempt more)).
    { intros Ht [-> ->]. exists [], [].
      rewrite !app_nil_r. cbn [map last follow_up length].
      split; [reflexivity|]. split; [reflexivity|]. split; [reflexivity|].
      split; [exact I|]. split; [constructor|].
      split; [repeat split; auto; exists v; auto|].
      split; [congruence|]. split; [reflexivity|]. intros _. constructor. }
    destruct (ls_final_success st) eqn:Hf;
      [apply Hstop; [reflexivity|apply (ret_ok _ _ _ _ H)]|].
    rewrite Hval, Hv in H.
    assert (Hsv : success v = false).
    { unfold attempt_ok in Hfin. rewrite Hv in Hfin. cbn in Hfin. congruence. }
    rewrite Hsv in H. clear Hstop.
    step H a1 w1 Ha1.
    apply generate_correction_inv in Ha1
      as (Hnum & Hvalid1 & _ & Hmock1 & p & Hp & Hps & Hcs).
    apply (IH _ a1) in H.
    + destruct H as (more & ps & Hatt & Hprompts & Hcomp & Hfollow & Hall
                     & Hat' & Hlen & _ & Hmock).
      cbn [ls_attempts ls_final_success] in *.
      exists (a1 :: more), (p :: ps).
      rewrite Hatt, Hprompts, Hcomp, Hps, Hcs, <- !app_assoc, last_cons.
      cbn [app map length follow_up].
      split; [reflexivity|]. split; [reflexivity|]. split; [reflexivity|].
      split.
      { split; [|exact Hfollow]. exists v. rewrite <- Hcode. auto. }
      split; [constructor; assumption|].
      split; [exact Hat'|].
      split; [intros Hf'; rewrite (Hlen Hf'); reflexivity|].
      split; [discriminate|].
      intros Hm. constructor; auto.
    + cbn. destruct Hpre as [pre Hpre].
      repeat split; auto. exists (pre ++ [a]). now rewrite Hpre.
Qed.

(** ** The whole task *)

Lemma generate_inv E self task w m w' :
  generate E self task w = (Ok m, w') ->
  exists attempt1 more p1 ps,
    attempts m = attempt1 :: more /\
    total_attempts m = Z.of_nat (length (attempts m)) /\
    (exists examples_text,
       examples_text_of self task = Ok examples_text /\
       _build_initial_prompt (text self) task (spec self) examples_text
       = Ok p1) /\
    prompts w' = prompts w ++ p1 :: ps /\
    compiled w' = compiled w ++ map generated_code (attempts m) /\
    follow_up (text self) task attempt1 more ps /\
    Forall validated (attempts m) /\
    first_pass_success m = attempt_ok attempt1 /\
    final_success m = attempt_ok (last more attempt1) /\
    (final_success m = false ->
     length more = length (PyStr.range 2 (max_correction_rounds self + 2))) /\
    (first_pass_success m = true -> more = []) /\
    error_codes m
    = match validation_result (last more attempt1) with
      | Some v => if success v then [] else get_error_codes v
      | None => []
      end /\
    total_prompt_tokens m = sum_Z prompt_tokens (attempts m) /\
    total_completion_tokens m = sum_Z completion_tokens (attempts m) /\
    total_cost_usd m
    = (inject_Z (total_prompt_tokens m) / 1000000 * 3
       + inject_Z (total_completion_tokens m) / 1000000 * 15)%Q /\
    model_provider self <> OPENAI /\
    (model_provider self = MOCK -> Forall mock_attempt (attempts m)).
Proof.
  intros H. unfold generate in H.
  step H start w1 H1. apply read_clock_inv in H1 as [Hp1 Hc1].
  step H examples_text w1' Hex. apply lift_ok in Hex as [Hex ->].
  step H attempt1 w2 H2.
  apply generate_attempt_inv in H2
    as (_ & Hvalid1 & Hno & Hmock1 & p1 & Hb1 & Hp2 & Hc2).
  step H st w3 H3.
  apply (correction_rounds_detail _ _ _ _ _ attempt1) in H3.
  2:{ cbn. repeat split; auto. exists []. reflexivity. }
  destruct H3 as (more & ps & Hatt & Hp3 & Hc3 & Hfollow & Hall & Hat & Hlen
                  & Hfirst & Hmock).
  cbn [ls_attempts ls_final_success app] in Hatt, Hfirst.
  step H stop w4 H4. apply read_clock_inv in H4 as [Hp4 Hc4].
  step H now_ w5 H5. apply read_clock_inv in H5 as [Hp5 Hc5].
  apply ret_ok in H as [-> ->].
  cbn [attempts total_attempts first_pass_success final_success error_codes
       total_prompt_tokens total_completion_tokens total_cost_usd].
  destruct Hat as (_ & _ & Hcur & Hfin & _).
  exists attempt1, more, p1, ps. rewrite Hatt.
  split; [reflexivity|]. split; [reflexivity|].
  split; [exists examples_text; split; [exact Hex|exact Hb1]|].
  split; [rewrite Hp5, Hp4, Hp3, Hp2, Hp1, <- app_assoc; reflexivity|].
  split; [rewrite Hc5, Hc4, Hc3, Hc2, Hc1, <- app_assoc; reflexivity|].
  split; [exact Hfollow|]. split; [constructor; assumption|].
  split; [reflexivity|]. split; [exact Hfin|].
  split; [intros Hf; apply Hlen; congruence|].
  split; [exact Hfirst|].
  split; [rewrite Hcur; reflexivity|].
  split; [reflexivity|]. split; [reflexivity|]. split; [reflexivity|].
  split; [exact Hno|].
  intros Hm. constructor; auto.
Qed.

(** X17.  [generate] gives up only when all correction rounds are used:
    metrics that report a final failure hold exactly one attempt more than
    the bound.  Metrics that report a first-pass success hold one attempt,
    and it is the final success. *)
Theorem corrections_are_used_up E self task w m w' :
  0 <= max_correction_rounds self ->
  generate E self task w = (Ok m, w') ->
  (final_success m = false ->
   total_attempts m = 1 + max_correction_rounds self) /\
  (first_pass_success m = true ->
   total_attempts m = 1 /\ final_success m = true).
Proof.
  intros HR H. apply generate_inv in H.
  destruct H as (a1 & more & p1 & ps & Hatt & Htot & _ & _ & _ & _ & _ & Hfp
                 & Hfin & Hlen & Hfirst & _).
  rewrite Htot, Hatt. cbn [length]. split.
  - intros Hf. rewrite (Hlen Hf), range_length. lia.
  - intros Ht. rewrite (Hfirst Ht) in *. cbn [length last] in *.
    split; [reflexivity|congruence].
Qed.

Lemma corrections_are_used_up_witness :
  exists m w',
    generate (with_process quiet scenario1) a_harness test_001_pure_add
      initial_world = (Ok m, w') /\
    final_success m = false /\
    total_attempts m = 1 + max_correction_rounds a_harness.
Proof.
  destruct (generate (with_process quiet scenario1) a_harness
              test_001_pure_add initial_world) as [[m|e] w'] eqn:H;
    [|vm_compute in H; discriminate H].
  exists m, w'. split; [reflexivity|].
  pose proof (corrections_are_used_up _ a_harness _ _ _ _
                ltac:(cbn; lia) H) as [T _].
  assert (Hf : final_success m = false).
  { vm_compute in H. injection H as <- _. reflexivity. }
  split; [exact Hf|exact (T Hf)].
Defined.

(** X18.  The error codes of the metrics are those of the last attempt
    when the task failed and none when it succeeded; as a failed validation
    always holds an error, the list is empty exactly when the task
    succeeded. *)
Theorem error_codes_iff_failed E self task w m w' :
  generate E self task w = (Ok m, w') ->
  (exists pre a v,
     attempts m = pre ++ [a] /\ validation_result a = Some v /\
     final_success m = success v /\
     error_codes m = if success v then [] else map code (errors v)) /\
  (error_codes m = [] <-> final_success m = true).
Proof.
  intros H. apply generate_inv in H.
  destruct H as (a1 & more & p1 & ps & Hatt & _ & _ & _ & _ & _ & Hall & _
                 & Hfin & _ & _ & Hcodes & _).
  set (a := last more a1) in *.
  assert (Hsplit : attempts m = removelast (a1 :: more) ++ [a]).
  { rewrite Hatt. subst a. rewrite <- (last_cons a1 more a1).
    apply app_removelast_last. discriminate. }
  assert (Hin : In a (attempts m)).
  { rewrite Hsplit. apply in_or_app. cbn. auto. }
  rewrite Forall_forall in Hall. destruct (Hall a Hin) as (v & Hv & _ & Hiff).
  unfold attempt_ok in Hfin. rewrite Hv in Hfin, Hcodes. cbn in Hfin.
  unfold get_error_codes in Hcodes.
  split.
  - exists (removelast (a1 :: more)), a, v. auto.
  - rewrite Hcodes, Hfin. destruct (success v) eqn:Hs.
    + tauto.
    + split; [|discriminate]. intros Hmap. apply map_eq_nil in Hmap.
      apply Hiff in Hmap. discriminate Hmap.
Qed.

Lemma error_codes_iff_failed_witness :
  exists m w',
    generate (with_process quiet scenario1) a_harness test_001_pure_add
      initial_world = (Ok m, w') /\
    error_codes m = [VStr "E-PARSE-001"] /\
    (error_codes m = [] <-> final_success m = true).
Proof.
  destruct (generate (with_process quiet scenario1) a_harness
              test_001_pure_add initial_world) as [[m|e] w'] eqn:H;
    [|vm_compute in H; discriminate H].
  exists m, w'. split; [reflexivity|].
  pose proof (error_codes_iff_failed _ _ _ _ _ _ H) as [_ T].
  split; [|exact T].
  vm_compute in H. injection H as <- _. reflexivity.
Defined.

(** X19.  During one task the compiler is given exactly the generated
    texts of the attempts, one run each, in the order of the attempts, and
    every attempt carries the validation of its own text. *)
Theorem every_attempt_is_compiled_once E self task w m w' :
  generate E self task w = (Ok m, w') ->
  compiled w' = compiled w ++ map generated_code (attempts m) /\
  Forall (fun a => exists v, validation_result a = Some v /\
                             source_code v = generated_code a)
         (attempts m).
Proof.
  intros H. apply generate_inv in H.
  destruct H as (a1 & more & p1 & ps & _ & _ & _ & _ & Hc & _ & Hall & _).
  split; [exact Hc|].
  rewrite Forall_forall in *. intros a Ha.
  destruct (Hall a Ha) as (v & Hv & Hs & _). eauto.
Qed.

Lemma every_attempt_is_compiled_once_witness :
  exists m w',
    generate second_time_lucky a_harness test_001_pure_add initial_world
      = (Ok m, w') /\
    compiled w' = ["body"; "body"] /\
    compiled w' = compiled initial_world ++ map generated_code (attempts m).
Proof.
  destruct (generate second_time_lucky a_harness test_001_pure_add
              initial_world) as [[m|e] w'] eqn:H;
    [|vm_compute in H; discriminate H].
  exists m, w'. split; [reflexivity|].
  pose proof (every_attempt_is_compiled_once _ _ _ _ _ _ H) as [T _].
  split; [|exact T].
  vm_compute in H. injection H as _ <-. reflexivity.
Defined.

(** X20.  The prompts of one task form a chain: the first is the initial
    prompt for the task with the text of the selected examples, which was
    loaded, and every later one is the correction prompt built from the
    generated text and the errors of the attempt in front of it, which
    failed. *)
Theorem prompts_follow_the_attempts E self task w m w' :
  generate E self task w = (Ok m, w') ->
  exists attempt1 more p1 ps,
    attempts m = attempt1 :: more /\
    prompts w' = prompts w ++ p1 :: ps /\
    (exists examples_text,
       examples_text_of self task = Ok examples_text /\
       _build_initial_prompt (text self) task (spec self) examples_text
       = Ok p1) /\
    follow_up (text self) task attempt1 more ps.
Proof.
  intros H. apply generate_inv in H.
  destruct H as (a1 & more & p1 & ps & Hatt & _ & Hb & Hp & _ & Hf & _).
  exists a1, more, p1, ps. auto.
Qed.

Lemma prompts_follow_the_attempts_witness :
  exists m w',
    generate second_time_lucky a_harness test_001_pure_add initial_world
      = (Ok m, w') /\
    prompts w' = ["Add two integers"; "body"] /\
    exists attempt1 more p1 ps,
      attempts m = attempt1 :: more /\
      prompts w' = prompts initial_world ++ p1 :: ps /\
      (exists examples_text,
         examples_text_of a_harness test_001_pure_add = Ok examples_text /\
         _build_initial_prompt (text a_harness) test_001_pure_add
           (spec a_harness) examples_text = Ok p1) /\
      follow_up (text a_harness) test_001_pure_add attempt1 more ps.
Proof.
  destruct (generate second_time_lucky a_harness test_001_pure_add
              initial_world) as [[m|e] w'] eqn:H;
    [|vm_compute in H; discriminate H].
  exists m, w'. split; [reflexivity|].
  pose proof (prompts_follow_the_attempts _ _ _ _ _ _ H) as T.
  split; [|exact T].
  vm_compute in H. injection H as _ <-. reflexivity.
Defined.

(** ** Providers *)

(** X21.  A harness set to the OPENAI provider never returns metrics: when
    the examples are loaded and the initial prompt is built, the first call
    of the model raises [NotImplementedError], after the prompt was handed
    over and before anything is compiled; a fault of loading the examples
    or of building the prompt comes before that, and nothing is handed
    over. *)
Theorem openai_provider_never_returns E self task w :
  model_provider self = OPENAI ->
  (forall m w', generate E self task w <> (Ok m, w')) /\
  (forall examples_text p,
     examples_text_of self task = Ok examples_text ->
     _build_initial_prompt (text self) task (spec self) examples_text = Ok p ->
     exists w',
       generate E self task w = (Raise NotImplementedError, w') /\
       prompts w' = prompts w ++ [p] /\ compiled w' = compiled w) /\
  (forall e,
     examples_text_of self task = Raise e \/
     (exists examples_text,
        examples_text_of self task = Ok examples_text /\
        _build_initial_prompt (text self) task (spec self) examples_text
        = Raise e) ->
     exists w',
       generate E self task w = (Raise e, w') /\
       prompts w' = prompts w /\ compiled w' = compiled w).
Proof.
  intros Ho. split; [|split].
  - intros m w' H. apply generate_inv in H.
    destruct H as (a1 & more & p1 & ps & _ & _ & _ & _ & _ & _ & _ & _ & _ & _
                   & _ & _ & _ & _ & _ & Hno & _).
    contradiction.
  - intros examples_text p Hex Hp.
    unfold generate, bind at 1, read_clock at 1.
    fold (examples_text_of self task). rewrite Hex.
    unfold bind at 1, lift at 1.
    unfold bind at 1, _generate_attempt.
    unfold bind at 1, lift. rewrite Hp.
    unfold bind at 1, read_clock at 1.
    unfold bind at 1, _call_llm, bind, log_prompt, throw. rewrite Ho.
    cbn [prompts compiled clock_reads]. eexists. split; [reflexivity|].
    split; reflexivity.
  - intros e [Hex|(examples_text & Hex & Hp)];
      unfold generate, bind at 1, read_clock at 1;
      fold (examples_text_of self task); rewrite Hex;
      unfold bind at 1, lift at 1.
    + eexists. split; [reflexivity|]. split; reflexivity.
    + unfold bind at 1, _generate_attempt.
      unfold bind at 1, lift. rewrite Hp.
      eexists. split; [reflexivity|]. split; reflexivity.
Qed.

Lemma openai_provider_never_returns_witness :
  exists w',
    generate quiet (with_provider a_harness OPENAI) test_001_pure_add
      initial_world = (Raise NotImplementedError, w') /\
    prompts w' = prompts initial_world ++ ["Add two integers"] /\
    compiled w' = compiled initial_world.
Proof.
  exact (proj1 (proj2 (openai_provider_never_returns quiet
                         (with_provider a_harness OPENAI) test_001_pure_add
                         initial_world eq_refl))
           "# Example Covenant Code" "Add two integers" eq_refl eq_refl).
Defined.

Lemma sum_Z_constant {A} (f : A -> Z) (c : Z) (l : list A) :
  Forall (fun a => f a = c) l -> sum_Z f l = c * Z.of_nat (length l).
Proof.
  unfold sum_Z. intros H.
  assert (G : forall acc, fold_left (fun acc a => acc + f a) l acc
                          = acc + c * Z.of_nat (length l)).
  { induction H as [|a l Ha _ IH]; intros acc; cbn [fold_left length];
      [lia|]. rewrite IH, Ha. lia. }
  rewrite G. lia.
Qed.

(** X22.  With the mock provider every attempt holds the canned text and
    is counted with 100 prompt tokens and 50 completion tokens, so the
    metrics report 100 prompt tokens and 50 completion tokens per
    attempt. *)
Theorem mock_provider_metrics E self task w m w' :
  model_provider self = MOCK ->
  generate E self task w = (Ok m, w') ->
  Forall (fun a => generated_code a = mock_code /\
                   prompt_tokens a = 100 /\ completion_tokens a = 50)
         (attempts m) /\
  total_prompt_tokens m = 100 * total_attempts m /\
  total_completion_tokens m = 50 * total_attempts m.
Proof.
  intros Hm H. apply generate_inv in H.
  destruct H as (a1 & more & p1 & ps & _ & Htot & _ & _ & _ & _ & _ & _ & _ & _
                 & _ & _ & Hpt & Hct & _ & _ & Hmock).
  specialize (Hmock Hm).
  assert (Hp : total_prompt_tokens m = 100 * total_attempts m).
  { rewrite Hpt, Htot. apply sum_Z_constant.
    rewrite Forall_forall in *. intros a Ha. apply (Hmock a Ha). }
  assert (Hc : total_completion_tokens m = 50 * total_attempts m).
  { rewrite Hct, Htot. apply sum_Z_constant.
    rewrite Forall_forall in *. intros a Ha. apply (Hmock a Ha). }
  split; [exact Hmock|]. split; [exact Hp|exact Hc].
Qed.

Lemma mock_provider_metrics_witness :
  exists m w',
    generate quiet (with_provider a_harness MOCK) test_001_pure_add
      initial_world = (Ok m, w') /\
    total_attempts m = 1 /\
    total_prompt_tokens m = 100 * total_attempts m /\
    total_completion_tokens m = 50 * total_attempts m.
Proof.
  destruct (generate quiet (with_provider a_harness MOCK) test_001_pure_add
              initial_world) as [[m|e] w'] eqn:H;
    [|vm_compute in H; discriminate H].
  exists m, w'. split; [reflexivity|].
  pose proof (mock_provider_metrics quiet (with_provider a_harness MOCK)
                test_001_pure_add initial_world m w' eq_refl H)
    as (_ & Tp & Tc).
  split; [|split; assumption].
  vm_compute in H. injection H as <- _. reflexivity.
Defined.

End HarnessExtras.

(* ===================================================================== *)
(** * Properties of the prompts *)
(* ===================================================================== *)

Module PromptProofs.
Import Py Validator Selector Harness Scenario Scenario2 Rounds HarnessProofs.

(** ** The first prompt *)

Lemma parameter_line_outcome p :
  match Prompts.parameter_line p with
  | Ok _ => Prompts.has_keys ["name"; "type"] p = true
  | Raise e => e = KeyError /\ Prompts.has_keys ["name"; "type"] p = false
  end.
Proof.
  unfold Prompts.parameter_line, Prompts.getitem, Prompts.has_keys.
  cbn [forallb].
  destruct (Prompts.lookup "name" p); cbn [obind andb]; [|auto].
  destruct (Prompts.lookup "type" p); cbn [obind andb]; auto.
Qed.

Lemma requirement_line_outcome r :
  match Prompts.requirement_line r with
  | Ok _ => Prompts.has_keys ["priority"; "text"] r = true
  | Raise e => e = KeyError /\ Prompts.has_keys ["priority"; "text"] r = false
  end.
Proof.
  unfold Prompts.requirement_line, Prompts.getitem, Prompts.has_keys.
  cbn [forallb].
  destruct (Prompts.lookup "priority" r); cbn [obind andb]; [|auto].
  destruct (Prompts.lookup "text" r); cbn [obind andb]; auto.
Qed.

Lemma traverse_outcome {A B} (f : A -> outcome B) (ok : A -> bool) l :
  (forall a, match f a with
             | Ok _ => ok a = true
             | Raise e => e = KeyError /\ ok a = false
             end) ->
  match Prompts.traverse f l with
  | Ok bs => forallb ok l = true /\ length bs = length l
  | Raise e => e = KeyError /\ forallb ok l = false
  end.
Proof.
  intros Hf. induction l as [|a l IH]; cbn [Prompts.traverse forallb].
  - auto.
  - specialize (Hf a). destruct (f a) as [b|e]; cbn [obind].
    + rewrite Hf. cbn [andb].
      destruct (Prompts.traverse f l) as [bs|e]; cbn [obind].
      * destruct IH as [-> IH]. cbn [length]. auto.
      * exact IH.
    + destruct Hf as [-> ->]. auto.
Qed.

Lemma traverse_lines task :
  (Prompts.well_keyed task = true ->
   exists ps rs,
     Prompts.traverse Prompts.parameter_line (parameters task) = Ok ps /\
     Prompts.traverse Prompts.requirement_line (requirements task) = Ok rs) /\
  (Prompts.well_keyed task = false ->
   Prompts.traverse Prompts.parameter_line (parameters task) = Raise KeyError \/
   (exists ps,
      Prompts.traverse Prompts.parameter_line (parameters task) = Ok ps /\
      Prompts.traverse Prompts.requirement_line (requirements task)
      = Raise KeyError)).
Proof.
  unfold Prompts.well_keyed.
  pose proof (traverse_outcome Prompts.parameter_line _ (parameters task)
                parameter_line_outcome) as Hp.
  pose proof (traverse_outcome Prompts.requirement_line _ (requirements task)
                requirement_line_outcome) as Hr.
  destruct (Prompts.traverse Prompts.parameter_line (parameters task))
    as [ps|e].
  - destruct Hp as [-> _]. cbn [andb].
    destruct (Prompts.traverse Prompts.requirement_line (requirements task))
      as [rs|e].
    + split; [eauto|]. destruct Hr as [Hr _]. congruence.
    + destruct Hr as [-> Hr]. split; [congruence|]. intros _. right. eauto.
  - destruct Hp as [-> ->]. cbn [andb]. split; [discriminate|auto].
Qed.

Lemma initial_prompt_cases task spec_ examples :
  (Prompts.well_keyed task = true ->
   exists p, Prompts._build_initial_prompt task spec_ examples = Ok p) /\
  (Prompts.well_keyed task = false ->
   Prompts._build_initial_prompt task spec_ examples = Raise KeyError).
Proof.
  unfold Prompts._build_initial_prompt.
  destruct (traverse_lines task) as [Hyes Hno]. split; intros Hk.
  - destruct (Hyes Hk) as (ps & rs & -> & ->). cbn [obind]. eauto.
  - destruct (Hno Hk) as [->|(ps & -> & ->)]; reflexivity.
Qed.

(** X23.  The first prompt is built exactly for the tasks whose parameters
    all have a name and a type and whose requirements all have a priority
    and a text; for every other task the builder raises [KeyError],
    whatever the specification and the examples. *)
Theorem initial_prompt_needs_keys task spec_ examples :
  match Prompts._build_initial_prompt task spec_ examples with
  | Ok _ => Prompts.well_keyed task = true
  | Raise e => e = KeyError /\ Prompts.well_keyed task = false
  end.
Proof.
  destruct (initial_prompt_cases task spec_ examples) as [Hyes Hno].
  destruct (Prompts.well_keyed task) eqn:Hk.
  - destruct (Hyes eq_refl) as [p ->]. reflexivity.
  - rewrite (Hno eq_refl). auto.
Qed.

(** ** The correction prompt *)

Lemma occurs_refl s : Prompts.occurs s s.
Proof.
  exists "", "". cbn. clear. induction s as [|c s IH]; cbn; congruence.
Qed.

Lemma occurs_left sub a b : Prompts.occurs sub a -> Prompts.occurs sub (a +++ b).
Proof.
  intros (pre & post & ->). exists pre, (post +++ b).
  rewrite !append_assoc. reflexivity.
Qed.

Lemma occurs_right sub a b : Prompts.occurs sub b -> Prompts.occurs sub (a +++ b).
Proof.
  intros (pre & post & ->). exists (a +++ pre), post.
  rewrite !append_assoc. reflexivity.
Qed.

Lemma occurs_join sep x l :
  In x l -> Prompts.occurs x (Prompts.join sep l).
Proof.
  unfold Prompts.join. induction l as [|y l IH]; [intros []|].
  intros [->|Hin].
  - destruct l as [|z l]; cbn [String.concat];
      [apply occurs_refl|apply occurs_left, occurs_refl].
  - destruct l as [|z l]; [destruct Hin|]. cbn [String.concat].
    apply occurs_right, occurs_right. exact (IH Hin).
Qed.

Lemma occurs_trans a b c :
  Prompts.occurs a b -> Prompts.occurs b c -> Prompts.occurs a c.
Proof.
  intros (p1 & q1 & ->) (p2 & q2 & ->). exists (p2 +++ p1), (q1 +++ q2).
  rewrite !append_assoc. reflexivity.
Qed.

(** X24.  The correction prompt is never refused and says nothing about
    the task: it is made of the previous text, which it shows between two
    bare fences, and of the first five errors, each with its code and its
    message; what the compiler reported beyond the fifth error does not
    reach the model. *)
Theorem correction_prompt_shows_five_errors F task task' previous_code errs :
  let prompt := Prompts._build_correction_prompt F task previous_code errs in
  prompt
  = Prompts._build_correction_prompt F task' previous_code (firstn 5 errs) /\
  Prompts.occurs
    (fence +++ PyStr.nl +++ previous_code +++ PyStr.nl +++ fence) prompt /\
  forall e, In e (firstn 5 errs) ->
    Prompts.occurs ("[" +++ Prompts.format F (code e) +++ "] "
                    +++ Prompts.format F (message e)) prompt.
Proof.
  cbv zeta. unfold Prompts._build_correction_prompt.
  rewrite firstn_firstn. change (Nat.min 5 5) with 5%nat.
  split; [reflexivity|]. split.
  - exists (Prompts.join PyStr.nl
              [Prompts.correction_heading; ""; "ORIGINAL CODE:"] +++ PyStr.nl),
           (PyStr.nl +++
            Prompts.join PyStr.nl
              ("" :: "COMPILER ERRORS:"
                  :: Prompts.join PyStr.nl
                       (map (Prompts.error_line F) (firstn 5 errs))
                  :: "" :: Prompts.correction_closing)).
    unfold Prompts.join.
    cbn [app String.concat Prompts.correction_closing].
    rewrite !append_assoc. reflexivity.
  - intros e He.
    apply occurs_trans with (b := Prompts.error_line F e).
    + unfold Prompts.error_line.
      exists "", (if Prompts.truth F (line e)
                  then " at line " +++ Prompts.format F (line e) else "").
      rewrite !append_assoc. reflexivity.
    + apply occurs_trans
        with (b := Prompts.join PyStr.nl
                     (map (Prompts.error_line F) (firstn 5 errs))).
      * apply occurs_join, in_map, He.
      * apply occurs_join. cbn [app]. do 8 right. left. reflexivity.
Qed.

(** ** The builders inside [generate] *)

Lemma call_llm_mock' E self prompt w :
  model_provider self = MOCK ->
  exists w', _call_llm E self prompt w = (Ok (mock_code, 100, 50), w').
Proof.
  intros Hm. unfold _call_llm, bind, log_prompt, ret. rewrite Hm. eauto.
Qed.

Lemma generate_attempt_returns_on E self task ex n w prompt :
  text_only_compiler E -> dependable_compiler E ->
  _build_initial_prompt (text self) task (spec self) ex = Ok prompt ->
  model_provider self = MOCK ->
  exists a w', _generate_attempt E self task ex n w = (Ok a, w').
Proof.
  intros Ht Hd Hp Hm. unfold _generate_attempt.
  unfold bind at 1. unfold lift. rewrite Hp.
  unfold bind at 1. unfold read_clock at 1.
  unfold bind at 1.
  destruct (call_llm_mock' E self prompt
              {| clock_reads := S (clock_reads w); compiled := compiled w;
                 prompts := prompts w |} Hm) as [w1 ->].
  unfold bind at 1. unfold read_clock at 1.
  unfold bind at 1.
  match goal with |- context [validate E ?v ?c ?w0] =>
    destruct (ValidatorProofs.validate_returns E v c w0 Ht Hd)
      as (v' & w2 & ->) end.
  unfold ret. eauto.
Qed.

Lemma generate_correction_returns_on E self task n previous errs w :
  text_only_compiler E -> dependable_compiler E ->
  (forall c es, exists s,
     _build_correction_prompt (text self) task c es = Ok s) ->
  model_provider self = MOCK ->
  exists a w', _generate_correction E self task n previous errs w = (Ok a, w').
Proof.
  intros Ht Hd Hb Hm. unfold _generate_correction.
  destruct (Hb previous errs) as [prompt Hp].
  unfold bind at 1. unfold lift. rewrite Hp.
  unfold bind at 1. unfold read_clock at 1.
  unfold bind at 1.
  destruct (call_llm_mock' E self prompt
              {| clock_reads := S (clock_reads w); compiled := compiled w;
                 prompts := prompts w |} Hm) as [w1 ->].
  unfold bind at 1. unfold read_clock at 1.
  unfold bind at 1.
  match goal with |- context [validate E ?v ?c ?w0] =>
    destruct (ValidatorProofs.validate_returns E v c w0 Ht Hd)
      as (v' & w2 & ->) end.
  unfold ret. eauto.
Qed.

Lemma correction_rounds_returns_on E self task rounds :
  text_only_compiler E -> dependable_compiler E ->
  (forall c es, exists s,
     _build_correction_prompt (text self) task c es = Ok s) ->
  model_provider self = MOCK ->
  forall st w, exists st' w',
    correction_rounds E self task rounds st w = (Ok st', w').
Proof.
  intros Ht Hd Hb Hm. induction rounds as [|n rounds IH]; intros st w;
    cbn [correction_rounds]; [unfold ret; eauto|].
  destruct (ls_final_success st); [unfold ret; eauto|].
  destruct (current_validation st) as [v|]; [|unfold ret; eauto].
  destruct (success v); [unfold ret; eauto|].
  unfold bind.
  destruct (generate_correction_returns_on E self task n (current_code st)
              (errors v) w Ht Hd Hb Hm) as (a & w1 & ->).
  apply IH.
Qed.

(** X25.  With the builders of the source, a task that lacks one of the
    keys never reaches the model or the compiler: [generate] raises after
    reading the clock once, with no prompt sent and nothing compiled.
    What it raises is the fault of reading the examples when there is
    one, which comes first, and [KeyError] when the examples are loaded,
    as they are whenever no file read ends with a fault other than a
    missing file. *)
Theorem malformed_task_stops_before_the_model E F files self task w :
  text self = Prompts.builders F files ->
  Prompts.well_keyed task = false ->
  exists e w',
    generate E self task w = (Raise e, w') /\
    prompts w' = prompts w /\ compiled w' = compiled w /\
    clock_reads w' = S (clock_reads w) /\
    match examples_text_of self task with
    | Ok _ => e = KeyError
    | Raise e' => e = e'
    end /\
    (Catalog.no_read_fault files -> e = KeyError).
Proof.
  intros Htext Hk. unfold generate.
  unfold bind at 1. unfold read_clock at 1.
  fold (examples_text_of self task).
  assert (Hload : Catalog.no_read_fault files ->
                  exists t, examples_text_of self task = Ok t).
  { intros Hn. unfold examples_text_of. rewrite Htext.
    cbn [Prompts.builders Harness.load_examples].
    apply CatalogProofs.load_examples_returns, Hn. }
  destruct (examples_text_of self task) as [t|e'].
  - unfold bind at 1. unfold lift at 1.
    unfold bind at 1. unfold _generate_attempt.
    unfold bind at 1. unfold lift. rewrite Htext.
    cbn [Prompts.builders Harness._build_initial_prompt].
    rewrite (proj2 (initial_prompt_cases task _ _) Hk).
    exists KeyError. eexists. split; [reflexivity|]. cbn. auto 10.
  - unfold bind at 1. unfold lift at 1.
    exists e'. eexists. split; [reflexivity|]. cbn.
    repeat (split; [reflexivity|]). intros Hn.
    destruct (Hload Hn) as [t Ht]. discriminate Ht.
Qed.

Lemma malformed_task_stops_before_the_model_witness :
  exists e w',
    generate quiet mock_harness nameless_parameter initial_world
    = (Raise e, w') /\
    prompts w' = prompts initial_world /\
    compiled w' = compiled initial_world /\
    clock_reads w' = S (clock_reads initial_world) /\
    e = KeyError.
Proof.
  destruct (malformed_task_stops_before_the_model quiet plain_formatting
              one_file mock_harness nameless_parameter initial_world
              eq_refl eq_refl)
    as (e & w' & Hg & Hp & Hc & Hr & _ & He).
  exists e, w'. split; [exact Hg|]. split; [exact Hp|]. split; [exact Hc|].
  split; [exact Hr|]. exact (He CatalogProofs.one_file_no_read_fault).
Defined.

(** X26.  With the builders of the source over files whose reading never
    ends with a fault other than a missing file, the canned provider, and
    a compiler run that ends in one of the three ways [_run_compiler]
    knows and prints plain text whose line numbers [int] accepts,
    [generate] returns metrics for every task that has its keys, whatever
    the bound on the correction rounds and the state of the world. *)
Theorem well_keyed_task_is_generated E F files self task w :
  text self = Prompts.builders F files ->
  Catalog.no_read_fault files ->
  Prompts.well_keyed task = true ->
  model_provider self = MOCK ->
  text_only_compiler E -> dependable_compiler E ->
  exists m w', generate E self task w = (Ok m, w').
Proof.
  intros Htext Hn Hk Hm Ht Hd.
  assert (Hc : forall c es, exists s,
             _build_correction_prompt (text self) task c es = Ok s).
  { intros c es. rewrite Htext. cbn. eauto. }
  unfold generate.
  unfold bind at 1. unfold read_clock at 1.
  unfold bind at 1. unfold lift at 1. rewrite Htext.
  cbn [Prompts.builders Harness.load_examples].
  destruct (CatalogProofs.load_examples_returns files (example_selector self)
              (select (example_selector self) (task_type task) 1500 3) Hn)
    as [ex ->].
  unfold bind at 1.
  match goal with |- context [_generate_attempt E self task ?ex 1 ?w0] =>
    assert (Hp : exists p,
              _build_initial_prompt (text self) task (spec self) ex = Ok p);
    [|destruct Hp as [p Hp];
      destruct (generate_attempt_returns_on E self task ex 1 w0 p Ht Hd Hp Hm)
        as (a1 & w1 & ->)] end.
  { rewrite Htext. cbn [Prompts.builders Harness._build_initial_prompt].
    apply (proj1 (initial_prompt_cases task _ _) Hk). }
  unfold bind at 1.
  match goal with |- context [correction_rounds E self task ?r ?st ?w0] =>
    destruct (correction_rounds_returns_on E self task r Ht Hd Hc Hm st w0)
      as (st' & w2 & ->) end.
  unfold bind, read_clock, ret. eauto.
Qed.

Lemma well_keyed_task_is_generated_witness :
  exists m w',
    generate (with_process quiet scenario1) mock_harness test_001_pure_add
      initial_world = (Ok m, w').
Proof.
  exact (well_keyed_task_is_generated (with_process quiet scenario1)
           plain_formatting one_file mock_harness test_001_pure_add
           initial_world eq_refl CatalogProofs.one_file_no_read_fault
           eq_refl eq_refl ValidatorExtras.scenario1_is_text_only
           ValidatorExtras.scenario1_is_dependable).
Defined.

End PromptProofs.

(* ===================================================================== *)
(** * Properties of harness construction and batches *)
(* ===================================================================== *)

Module BatchProofs.
Import Py Validator Selector Harness Scenario Scenario2 Rounds Batch.

(** ** Construction *)

Lemma api_key_of_ok H name k :
  api_key_of H name = Ok k <-> environ_get H name = Some k /\ k <> "".
Proof.
  unfold api_key_of. destruct (environ_get H name) as [k'|].
  - destruct k' as [|c k'']; cbn [PyStr.truthy].
    + split; [discriminate|]. intros [Hk Hne]. inversion Hk. congruence.
    + split.
      * intros Hk. inversion Hk; subst. split; [reflexivity|discriminate].
      * intros [Hk _]. inversion Hk. reflexivity.
  - split; [discriminate|]. intros [Hk _]. discriminate Hk.
Qed.

Lemma handled_ok package body c :
  handled package body = Ok c <-> body = inr c.
Proof.
  unfold handled. destruct body as [[|e]|c']; split; intros Hb;
    try discriminate Hb; inversion Hb; reflexivity.
Qed.

Lemma try_client_ok H provider package variable made c :
  try_client H provider package variable made = inr c <->
  import_module H package = None /\
  exists k, environ_get H variable = Some k /\ k <> "" /\
            construct H provider k = None /\ c = made k.
Proof.
  unfold try_client. destruct (import_module H package) as [f|].
  - split; [discriminate|]. intros [Hi _]. discriminate Hi.
  - destruct (api_key_of H variable) as [k|e] eqn:Hk.
    + apply api_key_of_ok in Hk as [Hk Hne].
      destruct (construct H provider k) as [f|] eqn:Hc.
      * split; [discriminate|].
        intros (_ & k' & Hk' & _ & Hc' & _). congruence.
      * split.
        -- intros Hr. inversion Hr. split; [reflexivity|]. exists k. auto.
        -- intros (_ & k' & Hk' & _ & _ & ->). congruence.
    + split; [discriminate|].
      intros (_ & k' & Hk' & Hne & _).
      assert (Hok : api_key_of H variable = Ok k')
        by (apply api_key_of_ok; auto).
      congruence.
Qed.

(** X27.  [run_test_suite] takes no provider: it always builds its harness
    with the defaults of the constructor, the ANTHROPIC provider.  So
    it runs the tasks exactly when the default specification
    file can be read, the anthropic library can be imported, the variable
    ANTHROPIC_API_KEY holds a non-empty key and the client is constructed
    from it; otherwise it raises before any task is looked at. *)
Theorem run_test_suite_needs_anthropic E H tb tasks output_file w :
  (exists st, run_test_suite E H tb tasks output_file w = Ok st) <->
  (exists s, read_spec H (default_spec_path H) = Ok s) /\
  import_module H "anthropic" = None /\
  exists k, environ_get H "ANTHROPIC_API_KEY" = Some k /\ k <> "" /\
            construct H ANTHROPIC k = None.
Proof.
  unfold run_test_suite, default_harness, new_harness, _init_api_client.
  destruct (read_spec H (default_spec_path H)) as [s|e]; cbn [obind].
  - destruct (handled "anthropic" _) as [c|e] eqn:Hc; cbn [obind].
    + apply handled_ok, try_client_ok in Hc as (Hi & k & Hk & Hne & Hc & _).
      split; [|eauto]. intros _. split; [eauto|]. split; [exact Hi|].
      exists k. auto.
    + split; [intros [st Hst]; discriminate Hst|].
      intros (_ & Hi & k & Hk & Hne & Hk').
      assert (Hok : handled "anthropic"
                      (try_client H ANTHROPIC "anthropic" "ANTHROPIC_API_KEY"
                         AnthropicClient) = Ok (AnthropicClient k)).
      { apply handled_ok, try_client_ok. split; [exact Hi|].
        exists k. auto. }
      congruence.
  - split; [intros [st Hst]; discriminate Hst|].
    intros ([s Hs] & _). discriminate Hs.
Qed.

Lemma run_test_suite_needs_anthropic_witness :
  exists st,
    run_test_suite quiet a_host plain_text [test_001_pure_add] None
      initial_world = Ok st.
Proof.
  apply (proj2 (run_test_suite_needs_anthropic quiet a_host plain_text
                  [test_001_pure_add] None initial_world)).
  split; [exists "# Covenant"; reflexivity|]. split; [reflexivity|].
  exists "key". split; [reflexivity|]. split; [discriminate|reflexivity].
Defined.

(** ** The loop over the tasks *)

Lemma persist_cases H f m lines :
  persist H f m lines = lines \/
  exists line,
    holds_severity m = false /\ dumps H m = Ok line /\
    persist H f m lines = lines ++ [line +++ PyStr.nl].
Proof.
  unfold persist, to_json.
  destruct f as [f|]; [|auto].
  destruct (PyStr.truthy f); [|auto].
  destruct (open_append H f); [|auto].
  destruct (holds_severity m); [auto|].
  destruct (dumps H m) as [line|]; [|auto].
  destruct (write H f _); [|auto].
  right. exists line. auto.
Qed.

Lemma persist_extends H f m lines :
  exists more, persist H f m lines = lines ++ more /\ (length more <= 1)%nat.
Proof.
  destruct (persist_cases H f m lines) as [->|(line & _ & _ & ->)].
  - exists []. rewrite app_nil_r. cbn. auto.
  - eexists. split; [reflexivity|]. cbn. lia.
Qed.

Lemma run_tasks_extends E H self f tasks : forall st,
  exists more lines,
    results (run_tasks E H self f tasks st) = results st ++ more /\
    written (run_tasks E H self f tasks st) = written st ++ lines /\
    (length lines <= length more <= length tasks)%nat.
Proof.
  unfold run_tasks.
  induction tasks as [|task tasks IH]; intros st; cbn [fold_left].
  - exists [], []. rewrite !app_nil_r. cbn. auto.
  - destruct (IH (run_task E H self f st task)) as (more & lines & Hr & Hw & Hl).
    rewrite Hr, Hw. unfold run_task.
    destruct (generate E self task (world st)) as [[m|e] w']; cbn.
    + destruct (persist_extends H f m (written st)) as (l1 & -> & Hl1).
      exists (m :: more), (l1 ++ lines). rewrite <- !app_assoc. cbn.
      split; [reflexivity|]. split; [reflexivity|].
      rewrite length_app. lia.
    + exists more, lines. split; [reflexivity|]. split; [reflexivity|]. lia.
Qed.

(** X28.  A batch never stops early.  Of the metrics and of the lines
    already there nothing is lost; at most one entry is added per task and
    at most one line per entry.  A task whose generation raises adds
    nothing and the tasks behind it are run from the world it left; the
    metrics of a task whose generation returns are among the results even
    when writing them to the output file fails. *)
Theorem batch_survives_failures E H self f tasks st :
  let final := run_tasks E H self f tasks st in
  (exists more lines,
     results final = results st ++ more /\
     written final = written st ++ lines /\
     (length lines <= length more <= length tasks)%nat) /\
  (forall pre task post,
     tasks = pre ++ task :: post ->
     let mid := run_tasks E H self f pre st in
     match generate E self task (world mid) with
     | (Ok m, _) => In m (results final)
     | (Raise _, w') =>
         final = run_tasks E H self f post
                   {| results := results mid; world := w';
                      written := written mid |}
     end).
Proof.
  intros final. split; [apply run_tasks_extends|].
  intros pre task post -> mid. subst final mid. unfold run_tasks.
  rewrite fold_left_app. cbn [fold_left].
  set (mid := fold_left (run_task E H self f) pre st).
  destruct (generate E self task (world mid)) as [[m|e] w'] eqn:Hg.
  - destruct (run_tasks_extends E H self f post (run_task E H self f mid task))
      as (more & lines & Hr & _).
    unfold run_tasks in Hr. rewrite Hr. unfold run_task. rewrite Hg.
    cbn [results]. apply in_or_app. left. apply in_or_app. right. cbn. auto.
  - replace (run_task E H self f mid task)
      with {| results := results mid; world := w'; written := written mid |}
      by (unfold run_task; rewrite Hg; reflexivity).
    reflexivity.
Qed.

Lemma batch_survives_failures_witness :
  run_tasks quiet a_host mock_harness (Some "results.jsonl")
    [nameless_parameter; test_001_pure_add] fresh_batch
  = run_tasks quiet a_host mock_harness (Some "results.jsonl")
      [test_001_pure_add]
      {| results := [];
         world := {| clock_reads := 1; compiled := []; prompts := [] |};
         written := [] |}.
Proof.
  exact (proj2 (batch_survives_failures quiet a_host mock_harness
                  (Some "results.jsonl")
                  [nameless_parameter; test_001_pure_add] fresh_batch)
           [] nameless_parameter [test_001_pure_add] eq_refl).
Defined.

(** ** What reaches the output file *)

Lemma metrics_without_severity E self task w m w' :
  generate E self task w = (Ok m, w') ->
  holds_severity m = false ->
  clean_first_pass m.
Proof.
  intros Hg Hs.
  destruct (HarnessExtras.generate_inv E self task w m w' Hg)
    as (a1 & more & p1 & ps & Hatt & Htot & _ & _ & _ & _ & Hval & Hfirst
        & Hfinal & _ & Hmore & Hcodes & _).
  unfold holds_severity in Hs. rewrite Hatt in Hs, Hval. cbn [existsb] in Hs.
  apply orb_false_iff in Hs as [Hs1 _].
  apply Forall_inv in Hval. destruct Hval as (v & Hv & _ & Hiff).
  rewrite Hv in Hs1.
  destruct (errors v ++ warnings v) eqn:Hew; [|discriminate Hs1].
  apply app_eq_nil in Hew as [He Hw].
  assert (Hok : attempt_ok a1 = true).
  { unfold attempt_ok, succeeded. rewrite Hv. apply Hiff, He. }
  rewrite Hok in Hfirst. specialize (Hmore Hfirst). subst more.
  cbn [last] in Hfinal, Hcodes. rewrite Hok in Hfinal.
  rewrite Hv in Hcodes.
  assert (Hsv : success v = true) by (apply Hiff, He).
  rewrite Hsv in Hcodes.
  unfold clean_first_pass. rewrite Htot, Hatt. cbn [length].
  split; [reflexivity|]. split; [exact Hfirst|]. split; [exact Hfinal|].
  split; [exact Hcodes|]. exists a1, v. auto.
Qed.

(** X29.  The encoder of the output file has no text for a severity, so
    the metrics of a task that met any diagnostic, error or warning, in
    any attempt are never written: every line a batch appends is the
    encoding of metrics among its results that belong to a task which
    succeeded at the first attempt without a single diagnostic. *)
Theorem only_clean_first_passes_are_written E H self f tasks : forall st,
  exists lines,
    written (run_tasks E H self f tasks st) = written st ++ lines /\
    Forall (fun l =>
              exists m line,
                In m (results (run_tasks E H self f tasks st)) /\
                dumps H m = Ok line /\ l = line +++ PyStr.nl /\
                clean_first_pass m)
           lines.
Proof.
  induction tasks as [|task tasks IH]; intros st.
  - exists []. cbn. rewrite app_nil_r. auto.
  - unfold run_tasks in *. cbn [fold_left].
    set (s1 := run_task E H self f st task).
    destruct (IH s1) as (lines & Hw & Hall).
    destruct (run_tasks_extends E H self f tasks s1) as (more & _ & Hr & _).
    unfold run_tasks in Hr.
    assert (Hcase :
      written s1 = written st \/
      exists m line w',
        generate E self task (world st) = (Ok m, w') /\
        results s1 = results st ++ [m] /\
        holds_severity m = false /\ dumps H m = Ok line /\
        written s1 = written st ++ [line +++ PyStr.nl]).
    { subst s1. unfold run_task.
      destruct (generate E self task (world st)) as [[m|e] w'] eqn:Hg;
        cbn [written results]; [|auto].
      destruct (persist_cases H f m (written st))
        as [->|(line & Hs & Hd & ->)]; [auto|].
      right. exists m, line, w'. auto. }
    destruct Hcase as [Hc|(m & line & w' & Hg & Hres & Hs & Hd & Hc)];
      rewrite Hw, Hc.
    + exists lines. auto.
    + exists ((line +++ PyStr.nl) :: lines). rewrite <- app_assoc.
      split; [reflexivity|]. constructor; [|exact Hall].
      exists m, line. split.
      * rewrite Hr, Hres. apply in_or_app. left. apply in_or_app. right.
        cbn. auto.
      * split; [exact Hd|]. split; [reflexivity|].
        exact (metrics_without_severity E self task (world st) m w' Hg Hs).
Qed.

Lemma only_clean_first_passes_are_written_witness :
  exists lines,
    lines = ["{task_id: test_001_pure_add}" +++ PyStr.nl] /\
    Forall (fun l =>
              exists m line,
                In m (results
                        (run_tasks quiet a_host mock_harness
                           (Some "results.jsonl")
                           [nameless_parameter; test_001_pure_add]
                           fresh_batch)) /\
                dumps a_host m = Ok line /\ l = line +++ PyStr.nl /\
                clean_first_pass m)
           lines.
Proof.
  destruct (only_clean_first_passes_are_written quiet a_host mock_harness
              (Some "results.jsonl") [nameless_parameter; test_001_pure_add]
              fresh_batch) as (lines & Hw & Hall).
  exists lines. split; [|exact Hall].
  vm_compute in Hw. symmetry. exact Hw.
Defined.

(** ** The summary of a batch *)

Lemma sum_Z_shift {A} (f : A -> Z) (l : list A) : forall acc,
  fold_left (fun acc a => acc + f a) l acc = acc + sum_Z f l.
Proof.
  unfold sum_Z. induction l as [|a l IH]; intros acc; cbn [fold_left];
    [lia|]. rewrite (IH (acc + f a)), (IH (0 + f a)). lia.
Qed.

Lemma sum_Z_cons {A} (f : A -> Z) a (l : list A) :
  sum_Z f (a :: l) = f a + sum_Z f l.
Proof. unfold sum_Z at 1. cbn [fold_left]. rewrite sum_Z_shift. lia. Qed.

Lemma count_if_bounds {A} (p q : A -> bool) (l : list A) :
  Forall (fun a => p a = true -> q a = true) l ->
  0 <= count_if p l <= count_if q l /\ count_if q l <= Z.of_nat (length l).
Proof.
  unfold count_if. induction 1 as [|a l Ha _ IH].
  - cbn. lia.
  - rewrite !sum_Z_cons. cbn [length].
    destruct (p a); [rewrite (Ha eq_refl)|destruct (q a)]; lia.
Qed.

Lemma run_tasks_generated E H self f tasks : forall st,
  Forall (generated_by E self) (results st) ->
  Forall (generated_by E self) (results (run_tasks E H self f tasks st)).
Proof.
  unfold run_tasks. induction tasks as [|task tasks IH]; intros st Hst;
    cbn [fold_left]; [exact Hst|].
  apply IH. unfold run_task.
  destruct (generate E self task (world st)) as [[m|e] w'] eqn:Hg;
    cbn [results]; [|exact Hst].
  apply Forall_app. split; [exact Hst|]. constructor; [|constructor].
  exists task, (world st), w'. exact Hg.
Qed.

Lemma first_pass_is_final E self m :
  generated_by E self m ->
  first_pass_success m = true -> final_success m = true.
Proof.
  intros (task & w & w' & Hg) Hfirst.
  destruct (HarnessExtras.generate_inv E self task w m w' Hg)
    as (a1 & more & p1 & ps & _ & _ & _ & _ & _ & _ & _ & Hf & Hfinal & _
        & Hmore & _).
  rewrite (Hmore Hfirst) in Hfinal. cbn [last] in Hfinal. congruence.
Qed.

(** X30.  In the results of a batch the tasks that succeeded at the first
    pass are among those that succeeded in the end, so the two counts of
    the summary are ordered: first-pass successes, then final successes,
    then the number of results, which is at most the number of tasks.
    When there is a result, [print_summary] gets past both rates: it
    prints the heading, the total and the two rates, each the count
    divided by the total, times one hundred. *)
Theorem batch_summary_counts E H self f tasks w :
  let rs := results (run_tasks E H self f tasks
                       {| results := []; world := w; written := [] |}) in
  let total := Z.of_nat (length rs) in
  let first_pass := count_if first_pass_success rs in
  let final := count_if final_success rs in
  0 <= first_pass <= final /\ final <= total /\
  total <= Z.of_nat (length tasks) /\
  (rs <> [] ->
   exists rest ending,
     print_summary E rs
     = ([PText (PyStr.nl +++ repeat_string "=" 80); PText "SUMMARY";
         PText (repeat_string "=" 80); PTotal total;
         PRate "First-pass success" first_pass total
           (inject_Z first_pass / inject_Z total * 100)%Q;
         PRate "Final success" final total
           (inject_Z final / inject_Z total * 100)%Q] ++ rest,
        ending)).
Proof.
  intros rs total first_pass final.
  assert (Hgen : Forall (generated_by E self) rs).
  { apply run_tasks_generated. constructor. }
  assert (Himp : Forall (fun m => first_pass_success m = true ->
                                  final_success m = true) rs).
  { eapply Forall_impl; [|exact Hgen]. intros m. apply first_pass_is_final. }
  destruct (count_if_bounds _ _ rs Himp) as [Hle Htot].
  split; [exact Hle|]. split; [exact Htot|]. split.
  - destruct (run_tasks_extends E H self f tasks
                {| results := []; world := w; written := [] |})
      as (more & lines & Hr & _ & Hl).
    subst total rs. rewrite Hr. cbn [results app]. lia.
  - intros Hne. unfold print_summary. fold total first_pass final.
    assert (Hp : 0 < total).
    { subst total. destruct rs; [congruence|cbn [length]; lia]. }
    unfold guarded_average. replace (total >? 0) with true by lia.
    rewrite !HarnessProofs.truediv_positive by assumption.
    destruct (flat_map error_codes rs) as [|c cs];
      [eexists; eexists; reflexivity|].
    destruct (most_common E (c :: cs) 10) as [top|e];
      eexists; eexists; cbn [app]; reflexivity.
Qed.

Lemma batch_summary_counts_witness :
  exists rest ending,
    print_summary quiet
      (results (run_tasks quiet a_host mock_harness (Some "results.jsonl")
                  [nameless_parameter; test_001_pure_add] fresh_batch))
    = ([PText (PyStr.nl +++ repeat_string "=" 80); PText "SUMMARY";
        PText (repeat_string "=" 80); PTotal 1;
        PRate "First-pass success" 1 1 (inject_Z 1 / inject_Z 1 * 100)%Q;
        PRate "Final success" 1 1 (inject_Z 1 / inject_Z 1 * 100)%Q] ++ rest,
       ending).
Proof.
  apply (proj2 (proj2 (proj2
           (batch_summary_counts quiet a_host mock_harness
              (Some "results.jsonl") [nameless_parameter; test_001_pure_add]
              initial_world)))).
  vm_compute. discriminate.
Defined.

End BatchProofs.
